(** * Verto (cloudvault-saas): similarity, version labels, content hash,
      version history and size formatting

    A shallow embedding of the client-side logic of the Verto file manager
    (FileUpload.tsx, VersionHistory.tsx, the Dashboard page and the
    AISimilarityService class), followed by the properties proved about it.

    Part I holds the embedding, one module per source unit; Part II holds the
    lemmas and theorems on the similarity score, the two label generators,
    the content hash, the failures of the searches, the merged history and
    the restore; Part III holds further properties of the same functions
    and of the list of files of the dashboard. *)

From Stdlib Require Import List String Ascii ZArith NArith.
From Stdlib Require Import QArith Qround Qabs Qpower.
From Stdlib Require Import Lia Bool Arith Permutation.
From Stdlib Require DecimalString HexadecimalString DecimalN.
Import ListNotations.

Close Scope Q_scope.
Local Open Scope string_scope.
Local Open Scope list_scope.
Local Open Scope nat_scope.

(* ===================================================================== *)
(** * Part I. The embedding                                               *)
(* ===================================================================== *)

(** ** The JavaScript run time the sources rely on *)

Module JS.

(** A JavaScript number.  Finite values are carried as exact rationals kept
    in lowest terms; the sources only divide, subtract and compare small
    integers, for which the correctly rounded double and the exact quotient
    order in the same way against the constants used (0, 0.3, 0.5).  There
    is no negative zero. *)
Inductive number : Type :=
| NaN
| PInf
| NInf
| Fin (q : Q).

Definition of_Z (z : Z) : number := Fin (inject_Z z).
Definition of_nat (n : nat) : number := of_Z (Z.of_nat n).
Definition of_N (n : N) : number := of_Z (Z.of_N n).

Definition isNaN (x : number) : bool :=
  match x with NaN => true | _ => false end.

(** [x - y] *)
Definition sub (x y : number) : number :=
  match x, y with
  | NaN, _ | _, NaN => NaN
  | PInf, PInf | NInf, NInf => NaN
  | PInf, _ | _, NInf => PInf
  | NInf, _ | _, PInf => NInf
  | Fin a, Fin b => Fin (Qred (a - b))
  end.

Definition Qsign_pos (a : Q) : bool := (0 <? Qnum a)%Z.
Definition Qis_zero (a : Q) : bool := (Qnum a =? 0)%Z.

(** [x / y] *)
Definition div (x y : number) : number :=
  match x, y with
  | NaN, _ | _, NaN => NaN
  | Fin a, Fin b =>
      if Qis_zero b then
        if Qis_zero a then NaN else if Qsign_pos a then PInf else NInf
      else Fin (Qred (a / b))
  | Fin _, _ => Fin 0
  | _, Fin b =>
      let same := Bool.eqb (Qsign_pos b || Qis_zero b)
                           (match x with PInf => true | _ => false end) in
      if same then PInf else NInf
  | _, _ => NaN
  end.

(** [x > y]; any comparison with NaN is false. *)
Definition gtb (x y : number) : bool :=
  match x, y with
  | NaN, _ | _, NaN => false
  | PInf, PInf => false
  | PInf, _ => true
  | _, PInf => false
  | NInf, _ => false
  | Fin _, NInf => true
  | Fin a, Fin b => negb (Qle_bool a b)
  end.

(** [x === 0] *)
Definition is_zero (x : number) : bool :=
  match x with Fin a => Qis_zero a | _ => false end.

(** ToInt32: the value a number takes under a bitwise operator. *)
Definition toInt32 (z : Z) : Z :=
  ((z + 2147483648) mod 4294967296 - 2147483648)%Z.

(** [x << n] on an integer-valued number. *)
Definition shl (x : Z) (n : Z) : Z := toInt32 (Z.shiftl (toInt32 x) n).

(** [x & y] *)
Definition band (x y : Z) : Z := toInt32 (Z.land (toInt32 x) (toInt32 y)).

(** Number-to-string of an integer below 10^21 in magnitude: plain decimal
    digits, with a leading minus sign when negative. *)
Definition string_of_N (n : N) : string :=
  DecimalString.NilEmpty.string_of_uint (N.to_uint n).

Definition string_of_Z (z : Z) : string :=
  match z with
  | Zneg p => "-" ++ string_of_N (Npos p)
  | _ => string_of_N (Z.to_N z)
  end.

(** [n.toString(16)] of a non-negative integer. *)
Definition hex_of_N (n : N) : string :=
  HexadecimalString.NilEmpty.string_of_uint (N.to_hex_uint n).

(** [s.padStart(n, c)] with a one-character filler. *)
Definition padStart (n : nat) (c : ascii) (s : string) : string :=
  string_of_list_ascii (repeat c (n - String.length s)) ++ s.

(** [s.startsWith(p)] and [s.includes(p)] *)
Definition startsWith (p s : string) : bool := String.prefix p s.

Definition includes (p s : string) : bool :=
  match String.index 0 p s with Some _ => true | None => false end.

(** [s.split(sep)[0]] for a non-empty separator: the part of [s] before the
    first occurrence of [sep], all of [s] when there is none. *)
Fixpoint split_head (sep s : string) : string :=
  if String.prefix sep s then EmptyString
  else match s with
       | EmptyString => EmptyString
       | String c r => String c (split_head sep r)
       end.

(** ASCII case folding: [toLowerCase] as it is on strings of ASCII
    characters.  It leaves every other character as it is, which
    [String.prototype.toLowerCase] does not; the properties that depend on
    the folding are stated for strings of ASCII characters. *)
Definition lower_ascii (c : ascii) : ascii :=
  let n := nat_of_ascii c in
  if (65 <=? n) && (n <=? 90) then ascii_of_nat (n + 32) else c.

Fixpoint toLowerCase (s : string) : string :=
  match s with
  | EmptyString => EmptyString
  | String c r => String (lower_ascii c) (toLowerCase r)
  end.

(** [a[i] = x] on an array: overwrites inside the array, extends it when
    [i] is its length (and pads with [hole] beyond). *)
Fixpoint array_set {X : Type} (hole : X) (a : list X) (i : nat) (x : X)
  : list X :=
  match i, a with
  | O, [] => [x]
  | O, _ :: t => x :: t
  | S i', [] => hole :: array_set hole [] i' x
  | S i', h :: t => h :: array_set hole t i' x
  end.

(** [Array.prototype.sort] for a consistent comparator: a stable insertion
    sort.  [before y x] says that the comparator puts [y] strictly before
    [x] (its result on [(y, x)] is negative); an element is inserted in
    front of the first element that is not strictly before it, so equal
    elements keep their order. *)
Fixpoint insert_sorted {X : Type} (before : X -> X -> bool) (x : X)
  (l : list X) : list X :=
  match l with
  | [] => [x]
  | y :: t => if before y x then y :: insert_sorted before x t
              else x :: y :: t
  end.

Definition sort_by {X : Type} (before : X -> X -> bool) (l : list X)
  : list X :=
  fold_right (insert_sorted before) [] l.

(** [a.findIndex(p)]: the first index whose element satisfies [p], if
    any. *)
Fixpoint findIndex {X : Type} (p : X -> bool) (a : list X) : option nat :=
  match a with
  | [] => None
  | x :: t => if p x then Some 0 else option_map S (findIndex p t)
  end.

(** [a.filter((x, index, self) => p x index self)] *)
Definition filter_indexed {X : Type} (p : X -> nat -> list X -> bool)
  (a : list X) : list X :=
  map snd (filter (fun ix => p (snd ix) (fst ix) a)
                  (combine (seq 0 (List.length a)) a)).

(** A value as the remote store hands it back in a column that the
    sources read as [number | string | null | undefined]. *)
Inductive value : Type :=
| Null
| Undefined
| Num (n : number)
| Str (s : string).

(** [Math.floor(Math.log(x) / Math.log(k))] for an integer base [k > 1]:
    the largest [i] with [k^i <= x].  It is found by trying the exponents
    from a bound downwards.  The double computation agrees with it unless
    [x] lies within rounding error of a power of [k]. *)
Fixpoint search_down (fuel : nat) (i : Z) (k q : Q) : Z :=
  match fuel with
  | O => i
  | S fuel' =>
      if Qle_bool (Qpower k i) q then i
      else search_down fuel' (i - 1)%Z k q
  end.

Definition floor_log_pos (k : Z) (q : Q) : Z :=
  let bound := (Z.log2 (Qnum q) + Z.log2 (Zpos (Qden q)) + 1)%Z in
  search_down (Z.to_nat (2 * bound + 1)) bound (inject_Z k) q.

Definition floor_log (x : number) (k : Z) : number :=
  match x with
  | NaN | NInf => NaN
  | PInf => PInf
  | Fin q =>
      if Qis_zero q then NInf
      else if Qsign_pos q then of_Z (floor_log_pos k q)
      else NaN
  end.

(** [Math.pow(k, i)] for an integer base [k > 1] and an [i] that is an
    integer, an infinity or NaN. *)
Definition pow (k : Z) (i : number) : number :=
  match i with
  | NaN => NaN
  | PInf => PInf
  | NInf => Fin 0
  | Fin e => Fin (Qred (Qpower (inject_Z k) (Qfloor e)))
  end.

(** [a[i]] for a number [i]: an element for an integer index inside the
    array, [undefined] otherwise. *)
Definition index {X : Type} (a : list X) (i : number) : option X :=
  match i with
  | Fin e =>
      if Qeq_bool e (inject_Z (Qfloor e)) && (0 <=? Qfloor e)%Z
      then nth_error a (Z.to_nat (Qfloor e))
      else None
  | _ => None
  end.

(** What string concatenation makes of an array element. *)
Definition string_of_element (x : option string) : string :=
  match x with Some s => s | None => "undefined" end.

(** [String(parseFloat(x.toFixed(2)))], below 10^21 in magnitude.
    [toFixed(2)] rounds to the nearest hundredth, halves away from zero;
    reading the digits back and printing the number drops the zeros that
    end the fraction.  For a dyadic [x] (an integer byte count divided by a
    power of 1024) the double holds [x] exactly and the digits are these. *)
Definition hundredths (q : Q) : Z :=
  Qfloor (Qabs q * inject_Z 100 + (1 # 2)).

Definition string_of_parseFloat_toFixed2 (x : number) : string :=
  match x with
  | NaN => "NaN"
  | PInf => "Infinity"
  | NInf => "-Infinity"
  | Fin q =>
      let h := Z.to_N (hundredths q) in
      let sign := if (Qnum q <? 0)%Z && negb (h =? 0)%N then "-" else EmptyString in
      let whole := string_of_N (h / 100) in
      let frac := (h mod 100)%N in
      sign ++ whole ++
        (if (frac =? 0)%N then EmptyString
         else if (frac mod 10 =? 0)%N then "." ++ string_of_N (frac / 10)
         else "." ++ string_of_N (frac / 10) ++ string_of_N (frac mod 10))
  end.

(** [x === y] *)
Definition number_eqb (x y : number) : bool :=
  match x, y with
  | PInf, PInf | NInf, NInf => true
  | Fin a, Fin b => Qeq_bool a b
  | _, _ => false
  end.

Definition strict_eqb (x y : value) : bool :=
  match x, y with
  | Null, Null | Undefined, Undefined => true
  | Num a, Num b => number_eqb a b
  | Str a, Str b => (a =? b)%string
  | _, _ => false
  end.

(** [Number(v)], given the engine's conversion of strings. *)
Definition toNumber (StringToNumber : string -> number) (v : value)
  : number :=
  match v with
  | Null => Fin 0
  | Undefined => NaN
  | Num n => n
  | Str s => StringToNumber s
  end.

(** [\d]: one of the ten ASCII digits. *)
Definition is_digit (c : ascii) : bool :=
  let n := nat_of_ascii c in (48 <=? n) && (n <=? 57).

(** The longest run of digits that [s] begins with, and the rest of [s]:
    what a greedy [\d+] (or [\d*]) takes. *)
Fixpoint span_digits (s : string) : string * string :=
  match s with
  | String c r =>
      if is_digit c then let (d, rest) := span_digits r in (String c d, rest)
      else (EmptyString, s)
  | EmptyString => (EmptyString, EmptyString)
  end.

(** [Number(d)] for a string of decimal digits: the integer it denotes. *)
Definition digit_value (c : ascii) : N := N_of_ascii c - 48.

Definition N_of_digits (d : string) : N :=
  fold_left (fun acc c => (10 * acc + digit_value c)%N)
            (list_ascii_of_string d) 0%N.

(** An instance of the string conversion for plain decimal literals
    (optional sign, digits, optional fraction), the empty string being 0
    and anything else NaN.  It is used to run examples; the engine's
    conversion accepts more (white space, exponents, hexadecimal). *)
Definition decimal_StringToNumber (s : string) : number :=
  let (negative, u) :=
    match s with
    | String "-" r => (true, r)
    | String "+" r => (false, r)
    | _ => (false, s)
    end in
  if (s =? EmptyString)%string then Fin 0
  else
    let (ip, r) := span_digits u in
    let (fp, rest) :=
      match r with
      | String "." r1 => span_digits r1
      | _ => (EmptyString, r)
      end in
    if negb (rest =? EmptyString)%string
       || ((ip =? EmptyString)%string && (fp =? EmptyString)%string)
    then NaN
    else
      let m := Z.of_N (N_of_digits (ip ++ fp)) in
      let q := (inject_Z m / Qpower (inject_Z 10) (Z.of_nat (String.length fp)))%Q in
      Fin (Qred (if negative then Qopp q else q)).

End JS.

(** ** The version pattern [/v(\d+)\.(\d+)\.(\d+)/]

    Both label generators parse a stored label with this pattern. *)

Module VersionPattern.

(** The three captured digit runs when the pattern matches at the very
    start of [s].  Each [\d+] takes the longest run of digits: giving one
    back would leave a digit where the pattern wants a dot. *)
Definition match_here (s : string) : option (string * string * string) :=
  match s with
  | String "v" r =>
      let (d1, r1) := JS.span_digits r in
      match d1, r1 with
      | String _ _, String "." r2 =>
          let (d2, r3) := JS.span_digits r2 in
          match d2, r3 with
          | String _ _, String "." r4 =>
              let (d3, _) := JS.span_digits r4 in
              match d3 with
              | String _ _ => Some (d1, d2, d3)
              | EmptyString => None
              end
          | _, _ => None
          end
      | _, _ => None
      end
  | _ => None
  end.

(** [s.match(pattern)]: the captures of the leftmost match. *)
Fixpoint exec (s : string) : option (string * string * string) :=
  match match_here s with
  | Some m => Some m
  | None =>
      match s with
      | EmptyString => None
      | String _ r => exec r
      end
  end.

(** What the pattern describes: a [v], then three non-empty runs of digits
    separated by dots. *)
Definition digits (d : string) : Prop :=
  d <> EmptyString /\
  Forall (fun c => JS.is_digit c = true) (list_ascii_of_string d).

Definition matches (m : string) : Prop :=
  exists d1 d2 d3,
    digits d1 /\ digits d2 /\ digits d3 /\
    m = ("v" ++ d1 ++ "." ++ d2 ++ "." ++ d3)%string.

Definition has_match (s : string) : Prop :=
  exists pre m post, matches m /\ s = (pre ++ m ++ post)%string.

(** A string that does not begin with a digit: where a run of digits
    ends. *)
Definition no_digit_ahead (r : string) : Prop :=
  match r with
  | EmptyString => True
  | String c _ => JS.is_digit c = false
  end.

End VersionPattern.

(** ** The remote platform client

    The client [blink] (blink/client, and the hosted backend behind it) is
    not among the sources.  Its record store is taken from the contract the
    specification gives for it: named tables with [list], [create] and
    [update]; the tables are lists of rows, and every call may be
    rejected. *)

Module Blink.

(** A row of table [files] (the columns the modelled functions read or
    write). *)
Record FileRow : Type := mkFileRow {
  f_id : string;
  f_name : string;
  f_organization_id : string;
  f_parent_file_id : option string;
  f_file_path : string;
  f_file_size : JS.value;
  f_uploaded_by : string;
  f_created_at : string;
  f_updated_at : string;
  f_version_label : string;
  f_version_notes : option string;
  f_is_latest_version : string;
  f_sequential_number : option N
}.

(** A row of table [fileVersions]. *)
Record FileVersionRow : Type := mkFileVersionRow {
  fv_id : string;
  fv_file_id : string;
  fv_version_label : string;
  fv_file_path : string;
  fv_file_size : JS.value;
  fv_uploaded_by : string;
  fv_created_at : string;
  fv_version_notes : option string;
  fv_is_current : string
}.

(** A row of table [activityLog]. *)
Record ActivityRow : Type := mkActivityRow {
  a_id : string;
  a_organization_id : string;
  a_file_id : string;
  a_user_id : string;
  a_action : string;
  a_details : string
}.

(** One entry of the object that [ai.generateObject] returns for the
    similarity schema. *)
Record Similarity : Type := mkSimilarity {
  fileIndex : Z;
  contentSimilarity : JS.number;
  nameSimilarity : JS.number;
  overallSimilarity : JS.number;
  reason : string;
  shouldVersion : bool
}.

(** A prop of a component called back by a handler. *)
Inductive Callback : Type :=
| OnRestore (versionId : string)
| OnClose.

(** Everything outside the functions: the tables, the answers the hosted
    model will give, which of the coming remote calls will be rejected
    ([faults], one flag per call, none left meaning no rejection), whether
    the store rejects an update of an id it does not hold, the number of
    calls rejected so far, and the callbacks invoked so far. *)
Record World : Type := mkWorld {
  files : list FileRow;
  fileVersions : list FileVersionRow;
  activityLog : list ActivityRow;
  ai_objects : list (list Similarity);
  faults : list bool;
  update_rejects_unknown_id : bool;
  rejected : nat;
  callbacks : list Callback
}.

Definition set_files (x : list FileRow) (w : World) : World :=
  mkWorld x (fileVersions w) (activityLog w) (ai_objects w) (faults w)
    (update_rejects_unknown_id w) (rejected w) (callbacks w).

Definition set_fileVersions (x : list FileVersionRow) (w : World) : World :=
  mkWorld (files w) x (activityLog w) (ai_objects w) (faults w)
    (update_rejects_unknown_id w) (rejected w) (callbacks w).

Definition set_activityLog (x : list ActivityRow) (w : World) : World :=
  mkWorld (files w) (fileVersions w) x (ai_objects w) (faults w)
    (update_rejects_unknown_id w) (rejected w) (callbacks w).

Definition set_ai_objects (x : list (list Similarity)) (w : World) : World :=
  mkWorld (files w) (fileVersions w) (activityLog w) x (faults w)
    (update_rejects_unknown_id w) (rejected w) (callbacks w).

Definition set_faults (x : list bool) (w : World) : World :=
  mkWorld (files w) (fileVersions w) (activityLog w) (ai_objects w) x
    (update_rejects_unknown_id w) (rejected w) (callbacks w).

Definition set_rejected (x : nat) (w : World) : World :=
  mkWorld (files w) (fileVersions w) (activityLog w) (ai_objects w)
    (faults w) (update_rejects_unknown_id w) x (callbacks w).

Definition set_callbacks (x : list Callback) (w : World) : World :=
  mkWorld (files w) (fileVersions w) (activityLog w) (ai_objects w)
    (faults w) (update_rejects_unknown_id w) (rejected w) x.

(** *** Awaited computations

    An [async] function body run to completion: it returns or throws, and
    leaves a world behind. *)
Inductive completion (A : Type) : Type :=
| Return (a : A)
| Throw.
Arguments Return {A} a.
Arguments Throw {A}.

Definition Async (A : Type) : Type := World -> completion A * World.

Definition ret {A : Type} (a : A) : Async A := fun w => (Return a, w).

Definition bind {A B : Type} (m : Async A) (k : A -> Async B) : Async B :=
  fun w =>
    match m w with
    | (Return a, w') => k a w'
    | (Throw, w') => (Throw, w')
    end.

(** [try { body } catch (error) { handler }] *)
Definition try_catch {A : Type} (body handler : Async A) : Async A :=
  fun w =>
    match body w with
    | (Return a, w') => (Return a, w')
    | (Throw, w') => handler w'
    end.

(** [await Promise.all(calls)]: every call is issued, in order; the whole
    is rejected when one of them is. *)
Fixpoint promise_all {A : Type} (calls : list (Async A)) : Async (list A) :=
  fun w =>
    match calls with
    | [] => (Return [], w)
    | call :: calls' =>
        let (r, w1) := call w in
        let (rs, w2) := promise_all calls' w1 in
        match r, rs with
        | Return a, Return l => (Return (a :: l), w2)
        | _, _ => (Throw, w2)
        end
    end.

(** A prop being called. *)
Definition call_back (c : Callback) : Async unit :=
  fun w => (Return tt, set_callbacks (callbacks w ++ [c]) w).

(** A rejected call. *)
Definition reject {A : Type} : Async A :=
  fun w => (Throw, set_rejected (S (rejected w)) w).

(** A remote call: rejected if the world says so, carried out otherwise. *)
Definition remote {A : Type} (op : Async A) : Async A :=
  fun w =>
    match faults w with
    | true :: rest => reject (set_faults rest w)
    | false :: rest => op (set_faults rest w)
    | [] => op w
    end.

(** *** The record store *)

(** Modelled from the spec: [list({ where, orderBy, limit })] of the
    record store, whose client is not among the sources.  The rows that
    satisfy [where], in the order asked for (the stored order when none
    is), cut at [limit].  [before a b] says that [a] sorts strictly before
    [b]. *)
Definition select {R : Type} (where_ : R -> bool)
  (orderBy : option (R -> R -> bool)) (limit : option nat) (table : list R)
  : list R :=
  let rows := filter where_ table in
  let rows :=
    match orderBy with
    | Some before => JS.sort_by before rows
    | None => rows
    end in
  match limit with
  | Some n => firstn n rows
  | None => rows
  end.

(** Modelled from the spec: [update(id, fields)] of the record store,
    whose client is not among the sources.  [fields] is the assignment to
    the columns; the result is [None] when the table holds no row of that
    id. *)
Definition table_update {R : Type} (key : R -> string) (id : string)
  (fields : R -> R) (table : list R) : option (list R) :=
  if existsb (fun r => (key r =? id)%string) table
  then Some (map (fun r => if (key r =? id)%string then fields r else r)
                 table)
  else None.

(** Modelled from the spec: the calls [db.files.list],
    [db.fileVersions.list], [db.files.update], [db.fileVersions.update] and
    [db.activityLog.create] of the client, which is not among the sources.
    What the store does with an update of an id it does not hold is not
    said; the world carries both answers. *)
Definition files_list (where_ : FileRow -> bool)
  (orderBy : option (FileRow -> FileRow -> bool)) (limit : option nat)
  : Async (list FileRow) :=
  remote (fun w => (Return (select where_ orderBy limit (files w)), w)).

Definition fileVersions_list (where_ : FileVersionRow -> bool)
  (orderBy : option (FileVersionRow -> FileVersionRow -> bool))
  (limit : option nat) : Async (list FileVersionRow) :=
  remote (fun w => (Return (select where_ orderBy limit (fileVersions w)), w)).

Definition files_update (id : string) (fields : FileRow -> FileRow)
  : Async unit :=
  remote (fun w =>
    match table_update f_id id fields (files w) with
    | Some table => (Return tt, set_files table w)
    | None =>
        if update_rejects_unknown_id w then reject w else (Return tt, w)
    end).

Definition fileVersions_update (id : string)
  (fields : FileVersionRow -> FileVersionRow) : Async unit :=
  remote (fun w =>
    match table_update fv_id id fields (fileVersions w) with
    | Some table => (Return tt, set_fileVersions table w)
    | None =>
        if update_rejects_unknown_id w then reject w else (Return tt, w)
    end).

(** A world that answers every call: no rejection is scheduled and an
    update of an unknown id is ignored. *)
Definition answers (w : World) : Prop :=
  faults w = [] /\ update_rejects_unknown_id w = false.

Definition activityLog_create (row : ActivityRow) : Async unit :=
  remote (fun w => (Return tt, set_activityLog (activityLog w ++ [row]) w)).

(** Modelled from the spec: [ai.generateObject] of the client, which is
    not among the sources.  It gives the next answer of the hosted model;
    the call is rejected when the model has none. *)
Definition ai_generateObject : Async (list Similarity) :=
  remote (fun w =>
    match ai_objects w with
    | object :: rest => (Return object, set_ai_objects rest w)
    | [] => reject w
    end).

(** Modelled from the spec: the orders [{ created_at: 'desc' }] and
    [{ sequential_number: 'desc' }] of the store, whose client is not among
    the sources.  Text columns compare as strings; in a descending order a
    missing number comes last. *)
Definition created_at_desc (a b : FileRow) : bool :=
  String.ltb (f_created_at b) (f_created_at a).

Definition fv_created_at_desc (a b : FileVersionRow) : bool :=
  String.ltb (fv_created_at b) (fv_created_at a).

Definition sequential_number_desc (a b : FileRow) : bool :=
  match f_sequential_number a, f_sequential_number b with
  | Some x, Some y => (y <? x)%N
  | Some _, None => true
  | None, _ => false
  end.

End Blink.

Declare Scope async_scope.
Delimit Scope async_scope with async.
Notation "x <- m ;; k" := (Blink.bind m (fun x => k))
  (at level 61, m at next level, right associativity) : async_scope.
Notation "m ;; k" := (Blink.bind m (fun _ => k))
  (at level 61, right associativity) : async_scope.

(** ** The standard Levenshtein distance

    The distance that [calculateSimilarity] is compared with.  A string is
    a sequence of code units of some type [char] with a decidable equality.
    An edit script turns [s] into [t] by keeping a unit, substituting one
    unit for another, deleting a unit of [s] or inserting a unit of [t];
    [edits s t n] says that some script does so at cost [n], each
    substitution, deletion and insertion costing one. *)

Module Levenshtein.

Section Strings.

Variable char : Type.
Variable char_eq_dec : forall a b : char, {a = b} + {a <> b}.

Inductive edits : list char -> list char -> nat -> Prop :=
| edits_nil : edits [] [] 0
| edits_keep a s t n : edits s t n -> edits (a :: s) (a :: t) n
| edits_subst a b s t n : edits s t n -> edits (a :: s) (b :: t) (S n)
| edits_delete a s t n : edits s t n -> edits (a :: s) t (S n)
| edits_insert b s t n : edits s t n -> edits s (b :: t) (S n).

(** The Levenshtein distance is the least cost of an edit script. *)
Definition is_distance (s t : list char) (d : nat) : Prop :=
  edits s t d /\ forall n, edits s t n -> d <= n.

(** The textbook recursion that computes it. *)
Fixpoint editDistance (s t : list char) {struct s} : nat :=
  match s with
  | [] => List.length t
  | a :: s' =>
      (fix against (t : list char) : nat :=
         match t with
         | [] => S (List.length s')
         | b :: t' =>
             if char_eq_dec a b then editDistance s' t'
             else S (Nat.min (editDistance s' t')
                       (Nat.min (against t') (editDistance s' t)))
         end) t
  end.

End Strings.

End Levenshtein.

(** ** components/FileUpload.tsx

    Numbers read out of a label are kept as exact naturals; they are what
    the doubles of the source hold below 2^53. *)

Module FileUpload.

Local Open Scope async_scope.

(** A browser [File]: its attributes and its bytes. *)
Record File : Type := mkFile {
  name : string;
  type : string;
  size : N;
  lastModified : Z;
  bytes : list Byte.byte
}.

Record FileAnalysis : Type := mkFileAnalysis {
  contentType : string;
  keyTerms : list string;
  documentPurpose : string;
  suggestedCategory : string;
  extractedMetadata : list (string * JS.value)
}.

(** A match found by either similarity search.  The two sentences shown to
    the user ([similarityReason], [aiAnalysis]) are left out. *)
Record SimilarityResult : Type := mkSimilarityResult {
  fileId : string;
  fileName : string;
  versionLabel : string;
  uploadedBy : string;
  createdAt : string;
  similarityScore : JS.number;
  contentSimilarity : JS.number;
  nameSimilarity : JS.number
}.

(** [results.sort((a, b) => b.similarityScore - a.similarityScore)] *)
Definition by_score_desc (a b : SimilarityResult) : bool :=
  JS.gtb (similarityScore a) (similarityScore b).

Definition formatFileSize (bytes : JS.number) : string :=
  if JS.is_zero bytes then "0 Bytes"
  else
    let k := 1024%Z in
    let sizes := ["Bytes"; "KB"; "MB"; "GB"] in
    let i := JS.floor_log bytes k in
    (JS.string_of_parseFloat_toFixed2 (JS.div bytes (JS.pow k i))
       ++ " " ++ JS.string_of_element (JS.index sizes i))%string.

Section Strings.

(** The strings compared are sequences of code units; the functions need
    nothing of them but the test [===]. *)
Variable char : Type.
Variable char_eq_dec : forall a b : char, {a = b} + {a <> b}.

(** [s.charAt(i)]: the unit at [i], nothing outside the string. *)
Definition charAt (s : list char) (i : nat) : option char := nth_error s i.

Definition charAt_eqb (x y : option char) : bool :=
  match x, y with
  | Some a, Some b => if char_eq_dec a b then true else false
  | None, None => true
  | _, _ => false
  end.

(** [matrix[i][j]]; the loops below never read outside the matrix, where
    the value is taken to be 0. *)
Definition matrix_get (matrix : list (list nat)) (i j : nat) : nat :=
  nth j (nth i matrix []) 0.

(** [matrix[i][j] = v] *)
Definition matrix_set (matrix : list (list nat)) (i j v : nat)
  : list (list nat) :=
  JS.array_set [] matrix i (JS.array_set 0 (nth i matrix []) j v).

(** [for (let i = lo; i <= hi; i++) body] as a fold over the indices. *)
Definition for_loop {St : Type} (lo hi : nat) (body : St -> nat -> St)
  (s : St) : St :=
  fold_left body (seq lo (S hi - lo)) s.

Definition levenshteinDistance (str1 str2 : list char) : nat :=
  let matrix : list (list nat) := [] in
  let matrix :=
    for_loop 0 (List.length str2)
      (fun matrix i => JS.array_set [] matrix i [i]) matrix in
  let matrix :=
    for_loop 0 (List.length str1)
      (fun matrix j => matrix_set matrix 0 j j) matrix in
  let matrix :=
    for_loop 1 (List.length str2)
      (fun matrix i =>
         for_loop 1 (List.length str1)
           (fun matrix j =>
              if charAt_eqb (charAt str2 (i - 1)) (charAt str1 (j - 1))
              then matrix_set matrix i j (matrix_get matrix (i - 1) (j - 1))
              else matrix_set matrix i j
                     (Nat.min (matrix_get matrix (i - 1) (j - 1) + 1)
                        (Nat.min (matrix_get matrix i (j - 1) + 1)
                                 (matrix_get matrix (i - 1) j + 1))))
           matrix)
      matrix in
  matrix_get matrix (List.length str2) (List.length str1).

(** The body of the inner loop, for row [i] and column [j]. *)
Definition inner_body (str1 str2 : list char) (i : nat)
  (matrix : list (list nat)) (j : nat) : list (list nat) :=
  if charAt_eqb (charAt str2 (i - 1)) (charAt str1 (j - 1))
  then matrix_set matrix i j (matrix_get matrix (i - 1) (j - 1))
  else matrix_set matrix i j
         (Nat.min (matrix_get matrix (i - 1) (j - 1) + 1)
            (Nat.min (matrix_get matrix i (j - 1) + 1)
                     (matrix_get matrix (i - 1) j + 1))).

(** What the loops leave at [matrix[i][j]]: the distance between the first
    [j] units of [str1] and the first [i] units of [str2], read from their
    ends.  [row i] is a finished row, [stub i] a row as the first loop
    makes it. *)
Definition cell (str1 str2 : list char) (i j : nat) : nat :=
  Levenshtein.editDistance char char_eq_dec
    (rev (firstn j str1)) (rev (firstn i str2)).

Definition row (str1 str2 : list char) (i : nat) : list nat :=
  map (cell str1 str2 i) (seq 0 (S (List.length str1))).

Definition stub (i : nat) : list nat := [i].

Definition calculateSimilarity (str1 str2 : list char) : JS.number :=
  let longer :=
    if List.length str2 <? List.length str1 then str1 else str2 in
  let shorter :=
    if List.length str2 <? List.length str1 then str2 else str1 in
  let editDistance := levenshteinDistance longer shorter in
  JS.div (JS.sub (JS.of_nat (List.length longer)) (JS.of_nat editDistance))
         (JS.of_nat (List.length longer)).

End Strings.

(** [calculateSimilarity] on file names. *)
Definition nameSimilarityOf (a b : string) : JS.number :=
  calculateSimilarity ascii ascii_dec
    (list_ascii_of_string a) (list_ascii_of_string b).

(** One round of the hash: [hash = ((hash << 5) - hash) + c; hash = hash &
    hash]. *)
Definition hash_step (hash : Z) (c : N) : Z :=
  let hash := (JS.shl hash 5 - hash + Z.of_N c)%Z in
  JS.band hash hash.

(** The promise of [generateFileHash] always resolves; its value is a
    function of the file.  The reader is given the first 1000 bytes. *)
Definition generateFileHash (file : File) : string :=
  let bytes := firstn 1000 (bytes file) in
  let hash := 0%Z in
  let str :=
    (name file ++ JS.string_of_N (size file)
       ++ JS.string_of_Z (lastModified file))%string in
  let hash :=
    fold_left hash_step (map N_of_ascii (list_ascii_of_string str)) hash in
  let hash :=
    fold_left hash_step
      (map Byte.to_N (firstn (Nat.min (List.length bytes) 100) bytes))
      hash in
  let hashStr := JS.hex_of_N (Z.to_N (Z.abs hash)) in
  hashStr.

(** The label [contentType] given to a MIME type. *)
Definition contentTypeOf (type : string) : string :=
  if JS.includes "pdf" type then "PDF Document"
  else if JS.startsWith "image/" type then "Image File"
  else if JS.includes "document" type then "Text Document"
  else "File".

Definition analyzeAndFindSimilarFiles (organizationId : string) (file : File)
  : Blink.Async (FileAnalysis * list SimilarityResult) :=
  Blink.try_catch
    (let analysis :=
       {| contentType := contentTypeOf (type file);
          keyTerms := [JS.split_head "." (name file)];
          documentPurpose :=
            (contentTypeOf (type file) ++ " for organization")%string;
          suggestedCategory := "general";
          extractedMetadata :=
            [("fileName", JS.Str (name file));
             ("fileSize", JS.Num (JS.of_N (size file)));
             ("fileType", JS.Str (type file))] |} in
     existingFiles <-
       Blink.files_list
         (fun f => (Blink.f_organization_id f =? organizationId)%string
                   && (Blink.f_is_latest_version f =? "1")%string)
         None (Some 10) ;;
     let fileName := JS.toLowerCase (name file) in
     let fileBaseName := JS.split_head "." fileName in
     let similarFiles :=
       fold_left
         (fun similarFiles existingFile =>
            let existingName := JS.toLowerCase (Blink.f_name existingFile) in
            let existingBaseName := JS.split_head "." existingName in
            let nameSimilarity :=
              nameSimilarityOf fileBaseName existingBaseName in
            if JS.gtb nameSimilarity (JS.Fin (1 # 2))
            then similarFiles
                   ++ [{| fileId := Blink.f_id existingFile;
                          fileName := Blink.f_name existingFile;
                          versionLabel := Blink.f_version_label existingFile;
                          uploadedBy := Blink.f_uploaded_by existingFile;
                          createdAt := Blink.f_created_at existingFile;
                          similarityScore := nameSimilarity;
                          contentSimilarity := nameSimilarity;
                          nameSimilarity := nameSimilarity |}]
            else similarFiles)
         existingFiles [] in
     Blink.ret (analysis, JS.sort_by by_score_desc similarFiles))
    (Blink.ret
       ({| contentType := "File";
           keyTerms := [name file];
           documentPurpose := "Document file";
           suggestedCategory := "general";
           extractedMetadata := [] |},
        [])).

(** The increment of [generateVersionLabel]: the patch number goes up. *)
Definition next_patch (currentVersion : string) : option string :=
  match VersionPattern.exec currentVersion with
  | Some (major, minor, patch) =>
      let major := JS.N_of_digits major in
      let minor := JS.N_of_digits minor in
      let patch := JS.N_of_digits patch in
      let prefix := JS.split_head "-v" currentVersion in
      Some (prefix ++ "-v" ++ JS.string_of_N major ++ "."
              ++ JS.string_of_N minor ++ "."
              ++ JS.string_of_N (patch + 1))%string
  | None => None
  end.

(** [existingFiles[0]?.sequential_number ? ... + 1 : 1] *)
Definition nextSeqOf (existingFiles : list Blink.FileRow) : N :=
  match existingFiles with
  | f :: _ =>
      match Blink.f_sequential_number f with
      | Some n => if (n =? 0)%N then 1%N else (n + 1)%N
      | None => 1%N
      end
  | [] => 1%N
  end.

(** [existingFileId] is an optional string; an empty one counts as none. *)
Definition given (existingFileId : option string) : option string :=
  match existingFileId with
  | Some id => if (id =? EmptyString)%string then None else Some id
  | None => None
  end.

Definition generateVersionLabel (organizationId : string)
  (existingFileId : option string) : Blink.Async string :=
  Blink.try_catch
    (incremented <-
       match given existingFileId with
       | Some existingFileId =>
           existingFile <-
             Blink.files_list
               (fun f => (Blink.f_id f =? existingFileId)%string)
               None None ;;
           match existingFile with
           | existingFile0 :: _ =>
               let currentVersion := Blink.f_version_label existingFile0 in
               Blink.ret (next_patch currentVersion)
           | [] => Blink.ret None
           end
       | None => Blink.ret None
       end ;;
     match incremented with
     | Some label => Blink.ret label
     | None =>
         existingFiles <-
           Blink.files_list
             (fun f => (Blink.f_organization_id f =? organizationId)%string)
             (Some Blink.sequential_number_desc) (Some 1) ;;
         let nextSeq := nextSeqOf existingFiles in
         Blink.ret
           ("VT-" ++ JS.padStart 2 "0" (JS.string_of_N nextSeq) ++ "-v1.0.0")%string
     end)
    (Blink.ret "VT-01-v1.0.0").

End FileUpload.

(** ** services/aiSimilarityService.ts *)

Module AISimilarityService.

Local Open Scope async_scope.

Inductive IncrementType : Type := Major | Minor | Patch.

Definition incrementVersion (currentVersion : string)
  (incrementType : IncrementType) : string :=
  match VersionPattern.exec currentVersion with
  | None => (currentVersion ++ ".1")%string
  | Some (major, minor, patch) =>
      let major := JS.N_of_digits major in
      let minor := JS.N_of_digits minor in
      let patch := JS.N_of_digits patch in
      let '(major, minor, patch) :=
        match incrementType with
        | Major => ((major + 1)%N, 0%N, 0%N)
        | Minor => (major, (minor + 1)%N, 0%N)
        | Patch => (major, minor, (patch + 1)%N)
        end in
      let prefix := JS.split_head "-v" currentVersion in
      (prefix ++ "-v" ++ JS.string_of_N major ++ "."
         ++ JS.string_of_N minor ++ "." ++ JS.string_of_N patch)%string
  end.

(** [existingFiles[similarity.fileIndex]] *)
Definition fileAt (existingFiles : list Blink.FileRow) (fileIndex : Z)
  : option Blink.FileRow :=
  if (fileIndex <? 0)%Z then None
  else nth_error existingFiles (Z.to_nat fileIndex).

(** The prompt sent to the hosted model is not modelled; its answer is
    whatever the world holds.  The threshold 0.3 is the rational 3/10. *)
Definition findSimilarFiles (file : FileUpload.File) (organizationId : string)
  (fileAnalysis : FileUpload.FileAnalysis)
  : Blink.Async (list FileUpload.SimilarityResult) :=
  Blink.try_catch
    (existingFiles <-
       Blink.files_list
         (fun f => (Blink.f_organization_id f =? organizationId)%string
                   && (Blink.f_is_latest_version f =? "1")%string)
         None (Some 20) ;;
     if List.length existingFiles =? 0 then Blink.ret []
     else
       similarities <- Blink.ai_generateObject ;;
       let results :=
         fold_left
           (fun results similarity =>
              if JS.gtb (Blink.overallSimilarity similarity) (JS.Fin (3 # 10))
                 && Blink.shouldVersion similarity
              then
                match fileAt existingFiles (Blink.fileIndex similarity) with
                | Some existingFile =>
                    results
                      ++ [{| FileUpload.fileId := Blink.f_id existingFile;
                             FileUpload.fileName := Blink.f_name existingFile;
                             FileUpload.versionLabel :=
                               Blink.f_version_label existingFile;
                             FileUpload.uploadedBy :=
                               Blink.f_uploaded_by existingFile;
                             FileUpload.createdAt :=
                               Blink.f_created_at existingFile;
                             FileUpload.similarityScore :=
                               Blink.overallSimilarity similarity;
                             FileUpload.contentSimilarity :=
                               Blink.contentSimilarity similarity;
                             FileUpload.nameSimilarity :=
                               Blink.nameSimilarity similarity |}]
                | None => results
                end
              else results)
           similarities [] in
       Blink.ret (JS.sort_by FileUpload.by_score_desc results))
    (Blink.ret []).

End AISimilarityService.

(** ** components/VersionHistory.tsx *)

Module VersionHistory.

Local Open Scope async_scope.

Record FileVersion : Type := mkFileVersion {
  id : string;
  version_label : string;
  file_path : string;
  file_size : JS.value;
  uploaded_by : string;
  created_at : string;
  version_notes : string;
  is_current : string
}.

Record User : Type := mkUser { user_id : string }.

(** The state of the component. *)
Record State : Type := mkState {
  versions : list FileVersion;
  loading : bool;
  currentUser : option User
}.

Definition setVersions (x : list FileVersion) (st : State) : State :=
  mkState x (loading st) (currentUser st).

Definition setLoading (x : bool) (st : State) : State :=
  mkState (versions st) x (currentUser st).

Definition formatFileSize (bytes : JS.number) : string :=
  if JS.is_zero bytes then "0 Bytes"
  else
    let k := 1024%Z in
    let sizes := ["Bytes"; "KB"; "MB"; "GB"] in
    let i := JS.floor_log bytes k in
    (JS.string_of_parseFloat_toFixed2 (JS.div bytes (JS.pow k i))
       ++ " " ++ JS.string_of_element (JS.index sizes i))%string.

(** [x || ''] on an optional string. *)
Definition or_empty (x : option string) : string :=
  match x with Some s => s | None => EmptyString end.

Definition of_version (version : Blink.FileVersionRow) : FileVersion :=
  {| id := Blink.fv_id version;
     version_label := Blink.fv_version_label version;
     file_path := Blink.fv_file_path version;
     file_size := Blink.fv_file_size version;
     uploaded_by := Blink.fv_uploaded_by version;
     created_at := Blink.fv_created_at version;
     version_notes := or_empty (Blink.fv_version_notes version);
     is_current := Blink.fv_is_current version |}.

Definition of_file (file : Blink.FileRow) : FileVersion :=
  {| id := Blink.f_id file;
     version_label := Blink.f_version_label file;
     file_path := Blink.f_file_path file;
     file_size := Blink.f_file_size file;
     uploaded_by := Blink.f_uploaded_by file;
     created_at := Blink.f_created_at file;
     version_notes := or_empty (Blink.f_version_notes file);
     is_current := Blink.f_is_latest_version file |}.

(** The versions that [loadVersions] gathers, before it drops the
    duplicates and sorts. *)
Definition listed (fileVersions : list Blink.FileVersionRow)
  (originalFile : list Blink.FileRow) : list FileVersion :=
  map of_version fileVersions ++ map of_file originalFile.

(** The two queries of [loadVersions]: [{ file_id: fileId }] on table
    [fileVersions] and [{ OR: [{ id: fileId }, { parent_file_id: fileId }] }]
    on table [files]. *)
Definition of_file_id (fileId : string) (v : Blink.FileVersionRow) : bool :=
  (Blink.fv_file_id v =? fileId)%string.

Definition of_lineage (fileId : string) (f : Blink.FileRow) : bool :=
  (Blink.f_id f =? fileId)%string
  || match Blink.f_parent_file_id f with
     | Some parent => (parent =? fileId)%string
     | None => false
     end.

Section Dates.

(** [new Date(s).getTime()]: the milliseconds of a date string, nothing
    (NaN) for a string that is no date. *)
Variable getTime : string -> option Z.

(** [(a, b) => getTime(b.created_at) - getTime(a.created_at)] is negative:
    [a] is the later of the two. *)
Definition newer (a b : FileVersion) : bool :=
  match getTime (created_at a), getTime (created_at b) with
  | Some ta, Some tb => (tb <? ta)%Z
  | _, _ => false
  end.

(** The list that [loadVersions] builds from the two answers of the
    store. *)
Definition mergeVersions (fileVersions : list Blink.FileVersionRow)
  (originalFile : list Blink.FileRow) : list FileVersion :=
  let allVersions : list FileVersion := [] in
  let allVersions := allVersions ++ map of_version fileVersions in
  let allVersions := allVersions ++ map of_file originalFile in
  let uniqueVersions :=
    JS.sort_by newer
      (JS.filter_indexed
         (fun version index self =>
            match JS.findIndex (fun v => (id v =? id version)%string) self
            with
            | Some first => index =? first
            | None => false
            end)
         allVersions) in
  uniqueVersions.

Definition loadVersions (fileId : string) (st : State) : Blink.Async State :=
  let st := setLoading true st in
  st <-
    Blink.try_catch
      (fileVersions <-
         Blink.fileVersions_list (of_file_id fileId)
           (Some Blink.fv_created_at_desc) None ;;
       originalFile <-
         Blink.files_list (of_lineage fileId)
           (Some Blink.created_at_desc) None ;;
       Blink.ret (setVersions (mergeVersions fileVersions originalFile) st))
      (Blink.ret st) ;;
  Blink.ret (setLoading false st).

(** What [loadVersions] shows of a world that answers. *)
Definition shown (fileId : string) (w : Blink.World) : list FileVersion :=
  mergeVersions
    (Blink.select (of_file_id fileId)
       (Some Blink.fv_created_at_desc) None (Blink.fileVersions w))
    (Blink.select (of_lineage fileId)
       (Some Blink.created_at_desc) None (Blink.files w)).

End Dates.

Definition set_is_current (x : string) (v : Blink.FileVersionRow)
  : Blink.FileVersionRow :=
  Blink.mkFileVersionRow (Blink.fv_id v) (Blink.fv_file_id v)
    (Blink.fv_version_label v) (Blink.fv_file_path v) (Blink.fv_file_size v)
    (Blink.fv_uploaded_by v) (Blink.fv_created_at v)
    (Blink.fv_version_notes v) x.

(** The assignment [{ version_label, file_path, file_size, updated_at }]
    to a row of [files]. *)
Definition set_restored (version : FileVersion) (updated_at : string)
  (f : Blink.FileRow) : Blink.FileRow :=
  Blink.mkFileRow (Blink.f_id f) (Blink.f_name f) (Blink.f_organization_id f)
    (Blink.f_parent_file_id f) (file_path version) (file_size version)
    (Blink.f_uploaded_by f) (Blink.f_created_at f) updated_at
    (version_label version) (Blink.f_version_notes f)
    (Blink.f_is_latest_version f) (Blink.f_sequential_number f).

(** [currentUser?.id || 'unknown'] *)
Definition user_or_unknown (currentUser : option User) : string :=
  match currentUser with
  | Some u => if (user_id u =? EmptyString)%string then "unknown" else user_id u
  | None => "unknown"
  end.

(** [handleRestore].  [onRestore] tells whether the prop is given; [now]
    is [Date.now()] and [nowISO] is [new Date().toISOString()] at the time
    of the call.  The handler returns nothing; what it did shows in the
    world it leaves. *)
Definition handleRestore (fileId : string) (onRestore : bool) (st : State)
  (now : N) (nowISO : string) (version : FileVersion) : Blink.Async unit :=
  if negb onRestore then Blink.ret tt
  else
    Blink.try_catch
      (Blink.promise_all
         (map (fun v => Blink.fileVersions_update (id v) (set_is_current "0"))
              (versions st)) ;;
       Blink.fileVersions_update (id version) (set_is_current "1") ;;
       Blink.files_update fileId (set_restored version nowISO) ;;
       Blink.activityLog_create
         {| Blink.a_id := ("activity_" ++ JS.string_of_N now)%string;
            Blink.a_organization_id := "org_sample";
            Blink.a_file_id := fileId;
            Blink.a_user_id := user_or_unknown (currentUser st);
            Blink.a_action := "restore";
            Blink.a_details :=
              ("Restored to version " ++ version_label version)%string |} ;;
       Blink.call_back (Blink.OnRestore (id version)) ;;
       Blink.call_back Blink.OnClose)
      (Blink.ret tt).

(** What a restore of [version] makes of a row of [fileVersions], in a
    world that answers: [cleared] by the updates of [Promise.all], then
    marked current if it is the restored one; and of a row of [files]. *)
Definition cleared (vs : list FileVersion) (r : Blink.FileVersionRow)
  : Blink.FileVersionRow :=
  fold_left
    (fun r v =>
       if (Blink.fv_id r =? id v)%string then set_is_current "0" r else r)
    vs r.

Definition restored_version (vs : list FileVersion) (version : FileVersion)
  (r : Blink.FileVersionRow) : Blink.FileVersionRow :=
  if (Blink.fv_id (cleared vs r) =? id version)%string
  then set_is_current "1" (cleared vs r)
  else cleared vs r.

Definition restored_file (fileId : string) (version : FileVersion)
  (nowISO : string) (f : Blink.FileRow) : Blink.FileRow :=
  if (Blink.f_id f =? fileId)%string
  then set_restored version nowISO f else f.

End VersionHistory.

(** ** pages/Dashboard.tsx *)

Module Dashboard.

Section Conversion.

(** The engine's conversion of a string to a number, [Number(s)]. *)
Variable StringToNumber : string -> JS.number.

Definition formatFileSize (bytes : JS.value) : string :=
  if JS.strict_eqb bytes JS.Null
     || JS.strict_eqb bytes JS.Undefined
     || JS.strict_eqb bytes (JS.Str EmptyString)
     || JS.isNaN (JS.toNumber StringToNumber bytes)
  then "0 Bytes"
  else
    let numBytes := JS.toNumber StringToNumber bytes in
    if JS.is_zero numBytes then "0 Bytes"
    else
      let k := 1024%Z in
      let sizes := ["Bytes"; "KB"; "MB"; "GB"] in
      let i := JS.floor_log numBytes k in
      (JS.string_of_parseFloat_toFixed2 (JS.div numBytes (JS.pow k i))
         ++ " " ++ JS.string_of_element (JS.index sizes i))%string.

(** The inputs that are no byte count: null, undefined, the empty string,
    and whatever [Number] turns into NaN. *)
Definition malformed (bytes : JS.value) : Prop :=
  bytes = JS.Null \/ bytes = JS.Undefined \/ bytes = JS.Str EmptyString \/
  JS.isNaN (JS.toNumber StringToNumber bytes) = true.

End Conversion.

End Dashboard.

(** ** Worlds and files to run the functions on *)

Module Examples.

(** Two reports of 101 bytes that differ in their last byte only. *)
Definition report_a : FileUpload.File :=
  FileUpload.mkFile "report.pdf" "application/pdf" 101 1700000000000
    (repeat Byte.x25 100 ++ [Byte.x41]).

Definition report_b : FileUpload.File :=
  FileUpload.mkFile "report.pdf" "application/pdf" 101 1700000000000
    (repeat Byte.x25 100 ++ [Byte.x42]).

Definition world_of (files : list Blink.FileRow)
  (fileVersions : list Blink.FileVersionRow) (faults : list bool)
  (update_rejects_unknown_id : bool) : Blink.World :=
  {| Blink.files := files;
     Blink.fileVersions := fileVersions;
     Blink.activityLog := [];
     Blink.ai_objects := [];
     Blink.faults := faults;
     Blink.update_rejects_unknown_id := update_rejects_unknown_id;
     Blink.rejected := 0;
     Blink.callbacks := [] |}.

(** A stored file whose label carries no version. *)
Definition draft_file : Blink.FileRow :=
  {| Blink.f_id := "file_1";
     Blink.f_name := "Manual.pdf";
     Blink.f_organization_id := "org_sample";
     Blink.f_parent_file_id := None;
     Blink.f_file_path := "https://cdn.example/manual-1.pdf";
     Blink.f_file_size := JS.Str "2048";
     Blink.f_uploaded_by := "user_1";
     Blink.f_created_at := "2024-01-02T00:00:00.000Z";
     Blink.f_updated_at := "2024-01-02T00:00:00.000Z";
     Blink.f_version_label := "draft";
     Blink.f_version_notes := Some "Initial version";
     Blink.f_is_latest_version := "1";
     Blink.f_sequential_number := Some 4%N |}.

Definition draft_world : Blink.World := world_of [draft_file] [] [] false.

(** A world in which nothing is stored and no call is rejected. *)
Definition quiet_world : Blink.World := world_of [] [] [] false.

Definition manual_file : Blink.FileRow :=
  {| Blink.f_id := "file_1";
     Blink.f_name := "Manual_v2.pdf";
     Blink.f_organization_id := "org_sample";
     Blink.f_parent_file_id := None;
     Blink.f_file_path := "https://cdn.example/manual-2.pdf";
     Blink.f_file_size := JS.Str "2048";
     Blink.f_uploaded_by := "user_1";
     Blink.f_created_at := "2024-01-02T00:00:00.000Z";
     Blink.f_updated_at := "2024-01-02T00:00:00.000Z";
     Blink.f_version_label := "VT-01-v1.0.0";
     Blink.f_version_notes := Some "Initial version";
     Blink.f_is_latest_version := "1";
     Blink.f_sequential_number := Some 1%N |}.

(** A store holding that file, with the next remote call rejected. *)
Definition offline_world : Blink.World :=
  world_of [manual_file] [] [true] false.

Definition manual_upload : FileUpload.File :=
  FileUpload.mkFile "Manual.pdf" "application/pdf" 3 1700000000000
    [Byte.x25; Byte.x50; Byte.x44].

Definition manual_analysis : FileUpload.FileAnalysis :=
  {| FileUpload.contentType := "PDF Document";
     FileUpload.keyTerms := ["Manual"];
     FileUpload.documentPurpose := "PDF Document for organization";
     FileUpload.suggestedCategory := "general";
     FileUpload.extractedMetadata := [] |}.

End Examples.

(** ** A restore, step by step

    The dashboard lists the files that are the latest of their lineage and
    opens the version history of one of them; the history then holds that
    file itself, shown as current, next to the earlier versions. *)

Module Scenario.

(** The file shown on the dashboard. *)
Definition root_file : Blink.FileRow :=
  {| Blink.f_id := "file_1";
     Blink.f_name := "Manual.pdf";
     Blink.f_organization_id := "org_sample";
     Blink.f_parent_file_id := None;
     Blink.f_file_path := "https://cdn.example/manual-2.pdf";
     Blink.f_file_size := JS.Str "4096";
     Blink.f_uploaded_by := "user_1";
     Blink.f_created_at := "2024-02-01T00:00:00.000Z";
     Blink.f_updated_at := "2024-02-01T00:00:00.000Z";
     Blink.f_version_label := "VT-01-v1.0.1";
     Blink.f_version_notes := Some "Updated version";
     Blink.f_is_latest_version := "1";
     Blink.f_sequential_number := Some 1%N |}.

(** An earlier version of it, not current. *)
Definition version_1 : Blink.FileVersionRow :=
  {| Blink.fv_id := "version_1";
     Blink.fv_file_id := "file_1";
     Blink.fv_version_label := "VT-01-v1.0.0";
     Blink.fv_file_path := "https://cdn.example/manual-1.pdf";
     Blink.fv_file_size := JS.Num (JS.of_Z 2048);
     Blink.fv_uploaded_by := "user_1";
     Blink.fv_created_at := "2024-01-01T00:00:00.000Z";
     Blink.fv_version_notes := None;
     Blink.fv_is_current := "0" |}.

Definition restore_world (update_rejects_unknown_id : bool) : Blink.World :=
  Examples.world_of [root_file] [version_1] [] update_rejects_unknown_id.

Definition V1 : VersionHistory.FileVersion :=
  VersionHistory.of_version version_1.

Definition V2 : VersionHistory.FileVersion :=
  VersionHistory.of_file root_file.

(** The component before the history is opened. *)
Definition closed : VersionHistory.State :=
  {| VersionHistory.versions := [];
     VersionHistory.loading := false;
     VersionHistory.currentUser := Some (VersionHistory.mkUser "user_1") |}.

(** The state a run of [loadVersions] leaves. *)
Definition state_after
  (run : Blink.completion VersionHistory.State * Blink.World)
  : VersionHistory.State :=
  match fst run with
  | Blink.Return st => st
  | Blink.Throw => closed
  end.

(** The number of versions shown as current. *)
Definition count_current (versions : list VersionHistory.FileVersion)
  : nat :=
  List.length
    (filter (fun v => (VersionHistory.is_current v =? "1")%string) versions).

(** Open the history of the file, restore [V1], open the history again. *)
Definition opened (getTime : string -> option Z) (rejects : bool)
  : Blink.completion VersionHistory.State * Blink.World :=
  VersionHistory.loadVersions getTime "file_1" closed (restore_world rejects).

Definition restored (getTime : string -> option Z) (rejects : bool)
  : Blink.completion unit * Blink.World :=
  VersionHistory.handleRestore "file_1" true
    (state_after (opened getTime rejects))
    1706745600000%N "2024-02-01T00:00:00.000Z" V1
    (snd (opened getTime rejects)).

Definition reopened (getTime : string -> option Z) (rejects : bool)
  : Blink.completion VersionHistory.State * Blink.World :=
  VersionHistory.loadVersions getTime "file_1"
    (state_after (opened getTime rejects)) (snd (restored getTime rejects)).

End Scenario.

(** ** Strings of ASCII characters *)

Module Text.

(** A string of 7-bit characters.  The strings of this development are
    sequences of 8-bit characters, where those of the sources are sequences
    of UTF-16 code units, and [JS.toLowerCase] folds the letters A to Z
    only.  On a string of 7-bit characters the two kinds of string are the
    same sequence, unit by unit, and [JS.toLowerCase] is
    [String.prototype.toLowerCase]. *)
Definition ascii_only (s : string) : bool :=
  forallb (fun c => nat_of_ascii c <? 128) (list_ascii_of_string s).

End Text.

(** ** The two analyses of the upload component *)

Module Analyses.

(** The analysis that [analyzeAndFindSimilarFiles] builds from the file
    before it calls the store, and returns when the call is answered. *)
Definition built (file : FileUpload.File) : FileUpload.FileAnalysis :=
  {| FileUpload.contentType :=
       FileUpload.contentTypeOf (FileUpload.type file);
     FileUpload.keyTerms := [JS.split_head "." (FileUpload.name file)];
     FileUpload.documentPurpose :=
       (FileUpload.contentTypeOf (FileUpload.type file)
          ++ " for organization")%string;
     FileUpload.suggestedCategory := "general";
     FileUpload.extractedMetadata :=
       [("fileName", JS.Str (FileUpload.name file));
        ("fileSize", JS.Num (JS.of_N (FileUpload.size file)));
        ("fileType", JS.Str (FileUpload.type file))] |}.

(** The analysis that its [catch] returns. *)
Definition fallback (file : FileUpload.File) : FileUpload.FileAnalysis :=
  {| FileUpload.contentType := "File";
     FileUpload.keyTerms := [FileUpload.name file];
     FileUpload.documentPurpose := "Document file";
     FileUpload.suggestedCategory := "general";
     FileUpload.extractedMetadata := [] |}.

End Analyses.

(** ** What the two searches report

    The record that each search builds for a stored file, and the test it
    applies, named so that the properties can speak of them. *)

Module Matches.

(** The filter of both searches: [{ organization_id, is_latest_version:
    "1" }]. *)
Definition of_latest (organizationId : string) (f : Blink.FileRow) : bool :=
  (Blink.f_organization_id f =? organizationId)%string
  && (Blink.f_is_latest_version f =? "1")%string.

(** [name.toLowerCase().split('.')[0]] *)
Definition baseName (name : string) : string :=
  JS.split_head "." (JS.toLowerCase name).

(** The score that [analyzeAndFindSimilarFiles] gives a stored file, and
    the entry it reports for it. *)
Definition nameScore (file : FileUpload.File) (existingFile : Blink.FileRow)
  : JS.number :=
  FileUpload.nameSimilarityOf (baseName (FileUpload.name file))
    (baseName (Blink.f_name existingFile)).

Definition byName (file : FileUpload.File) (existingFile : Blink.FileRow)
  : FileUpload.SimilarityResult :=
  {| FileUpload.fileId := Blink.f_id existingFile;
     FileUpload.fileName := Blink.f_name existingFile;
     FileUpload.versionLabel := Blink.f_version_label existingFile;
     FileUpload.uploadedBy := Blink.f_uploaded_by existingFile;
     FileUpload.createdAt := Blink.f_created_at existingFile;
     FileUpload.similarityScore := nameScore file existingFile;
     FileUpload.contentSimilarity := nameScore file existingFile;
     FileUpload.nameSimilarity := nameScore file existingFile |}.

(** The test that [findSimilarFiles] applies to an entry of the model's
    answer, and the entry it reports for the stored file the answer points
    at. *)
Definition accepted (similarity : Blink.Similarity) : bool :=
  JS.gtb (Blink.overallSimilarity similarity) (JS.Fin (3 # 10))
  && Blink.shouldVersion similarity.

Definition byModel (existingFile : Blink.FileRow)
  (similarity : Blink.Similarity) : FileUpload.SimilarityResult :=
  {| FileUpload.fileId := Blink.f_id existingFile;
     FileUpload.fileName := Blink.f_name existingFile;
     FileUpload.versionLabel := Blink.f_version_label existingFile;
     FileUpload.uploadedBy := Blink.f_uploaded_by existingFile;
     FileUpload.createdAt := Blink.f_created_at existingFile;
     FileUpload.similarityScore := Blink.overallSimilarity similarity;
     FileUpload.contentSimilarity := Blink.contentSimilarity similarity;
     FileUpload.nameSimilarity := Blink.nameSimilarity similarity |}.

(** A list in which no entry is followed by one of a greater score. *)
Definition best_first (results : list FileUpload.SimilarityResult) : Prop :=
  ForallOrdPairs
    (fun a b =>
       JS.gtb (FileUpload.similarityScore b) (FileUpload.similarityScore a)
       = false)
    results.

End Matches.

(** ** Labels and sequence numbers, to state the properties with *)

Module Labels.

(** The label [<prefix>-v<major>.<minor>.<patch>]. *)
Definition versioned (prefix : string) (major minor patch : N) : string :=
  (prefix ++ "-v" ++ JS.string_of_N major ++ "."
     ++ JS.string_of_N minor ++ "." ++ JS.string_of_N patch)%string.

(** The three numbers after an increment. *)
Definition incremented (incrementType : AISimilarityService.IncrementType)
  (major minor patch : N) : N * N * N :=
  match incrementType with
  | AISimilarityService.Major => ((major + 1)%N, 0%N, 0%N)
  | AISimilarityService.Minor => (major, (minor + 1)%N, 0%N)
  | AISimilarityService.Patch => (major, minor, (patch + 1)%N)
  end.

(** A string in which [-v] does not occur. *)
Definition no_separator (s : string) : Prop :=
  forall a b : string, s <> (a ++ "-v" ++ b)%string.


End Labels.

(** ** Orders and effects, to state the properties with *)

Module Effects.

(** A list of versions in which none is followed by a later one, every
    date being one that [getTime] reads. *)
Definition newest_first (getTime : string -> option Z)
  (versions : list VersionHistory.FileVersion) : Prop :=
  ForallOrdPairs
    (fun a b =>
       exists ta tb,
         getTime (VersionHistory.created_at a) = Some ta /\
         getTime (VersionHistory.created_at b) = Some tb /\
         (tb <= ta)%Z)
    versions.

(** A call that touches neither the callbacks nor the activity log, and
    that counts a rejection exactly when it throws. *)
Definition quiet {A : Type} (m : Blink.Async A) : Prop :=
  forall w,
    Blink.callbacks (snd (m w)) = Blink.callbacks w /\
    Blink.activityLog (snd (m w)) = Blink.activityLog w /\
    match fst (m w) with
    | Blink.Return _ => Blink.rejected (snd (m w)) = Blink.rejected w
    | Blink.Throw => Blink.rejected w < Blink.rejected (snd (m w))
    end.

(** What a restore of the file [fileId] may change in a row of [files]:
    nothing in the rows of other files, and nothing but the label, the
    path, the size and the time of update in its own. *)
Definition same_file_but_restored (fileId : string) (f f' : Blink.FileRow)
  : Prop :=
  ((Blink.f_id f =? fileId)%string = false -> f' = f) /\
  Blink.f_id f' = Blink.f_id f /\
  Blink.f_name f' = Blink.f_name f /\
  Blink.f_organization_id f' = Blink.f_organization_id f /\
  Blink.f_parent_file_id f' = Blink.f_parent_file_id f /\
  Blink.f_uploaded_by f' = Blink.f_uploaded_by f /\
  Blink.f_created_at f' = Blink.f_created_at f /\
  Blink.f_version_notes f' = Blink.f_version_notes f /\
  Blink.f_is_latest_version f' = Blink.f_is_latest_version f /\
  Blink.f_sequential_number f' = Blink.f_sequential_number f.

(** What a restore may change in the world: the [is_current] marks of the
    rows of [fileVersions], the restored columns of the file, and the ends
    of the activity log and of the callbacks.  No row is created or
    deleted. *)
Definition restore_frame (fileId : string) (w w' : Blink.World) : Prop :=
  map (VersionHistory.set_is_current EmptyString) (Blink.fileVersions w')
  = map (VersionHistory.set_is_current EmptyString) (Blink.fileVersions w) /\
  Forall2 (same_file_but_restored fileId) (Blink.files w) (Blink.files w') /\
  (exists entries, Blink.activityLog w' = Blink.activityLog w ++ entries) /\
  (exists calls, Blink.callbacks w' = Blink.callbacks w ++ calls) /\
  Blink.ai_objects w' = Blink.ai_objects w.

End Effects.

(** ** pages/Dashboard.tsx: the list of files *)

Module Store.

(** Modelled from the spec: the order [{ updated_at: 'desc' }] of the
    store, whose client is not among the sources.  Text columns compare as
    strings. *)
Definition updated_at_desc (a b : Blink.FileRow) : bool :=
  String.ltb (Blink.f_updated_at b) (Blink.f_updated_at a).

(** Modelled from the spec: [delete(id)] of the record store, whose client
    is not among the sources.  The rows of that id are removed; a delete
    of an id that the store does not hold is answered as an update of one
    is. *)
Definition files_delete (id : string) : Blink.Async unit :=
  Blink.remote (fun w =>
    if existsb (fun r => (Blink.f_id r =? id)%string) (Blink.files w)
    then (Blink.Return tt,
          Blink.set_files
            (filter (fun r => negb (Blink.f_id r =? id)%string)
                    (Blink.files w)) w)
    else if Blink.update_rejects_unknown_id w then Blink.reject w
         else (Blink.Return tt, w)).

End Store.

Module DashboardPage.

Local Open Scope async_scope.

(** The state of the page that the modelled functions read or write. *)
Record State : Type := mkState {
  files : list Blink.FileRow;
  loading : bool;
  searchQuery : string
}.

Definition setFiles (x : list Blink.FileRow) (st : State) : State :=
  mkState x (loading st) (searchQuery st).

Definition setLoading (x : bool) (st : State) : State :=
  mkState (files st) x (searchQuery st).

(** [currentOrg.id] *)
Definition currentOrg_id : string := "org_sample".

Definition loadFiles (st : State) : Blink.Async State :=
  let st := setLoading true st in
  st <-
    Blink.try_catch
      (fileList <-
         Blink.files_list
           (fun f => (Blink.f_organization_id f =? currentOrg_id)%string
                     && (Blink.f_is_latest_version f =? "1")%string)
           (Some Store.updated_at_desc) None ;;
       Blink.ret (setFiles fileList st))
      (Blink.ret st) ;;
  Blink.ret (setLoading false st).

(** [handleDelete].  [user_id] is [user.id] and [now] is [Date.now()].
    The refresh [loadFiles()] is started and not awaited; it cannot throw,
    and the state given here is the one it leaves when it has settled. *)
Definition handleDelete (user_id : string) (now : N) (file : Blink.FileRow)
  (st : State) : Blink.Async State :=
  Blink.try_catch
    (Store.files_delete (Blink.f_id file) ;;
     Blink.activityLog_create
       {| Blink.a_id := ("activity_" ++ JS.string_of_N now)%string;
          Blink.a_organization_id := currentOrg_id;
          Blink.a_file_id := Blink.f_id file;
          Blink.a_user_id := user_id;
          Blink.a_action := "delete";
          Blink.a_details := ("Deleted " ++ Blink.f_name file)%string |} ;;
     loadFiles st)
    (Blink.ret st).

Definition filteredFiles (files : list Blink.FileRow) (searchQuery : string)
  : list Blink.FileRow :=
  filter
    (fun file =>
       JS.includes (JS.toLowerCase searchQuery)
         (JS.toLowerCase (Blink.f_name file))
       || JS.includes (JS.toLowerCase searchQuery)
            (JS.toLowerCase (Blink.f_version_label file)))
    files.

Section Dates.

(** [new Date(s).getTime()], nothing (NaN) for a string that is no date,
    and [new Date(s).toLocaleDateString()], which depends on the locale of
    the browser. *)
Variable getTime : string -> option Z.
Variable toLocaleDateString : string -> string.

(** [formatDate].  [now] is [new Date().getTime()]; [dateString] is a
    string, or nothing for null and undefined.  The times are whole
    milliseconds, far below 2^53, so the quotient and its ceiling are
    exact where they decide the answer. *)
Definition formatDate (now : Z) (dateString : option string) : string :=
  match dateString with
  | None => "Unknown date"
  | Some dateString =>
      if (dateString =? EmptyString)%string
         || (dateString =? EmptyString)%string
         || (dateString =? "null")%string
      then "Unknown date"
      else
        match getTime dateString with
        | None => "Invalid date"
        | Some date =>
            let diffTime := Z.abs (now - date) in
            let diffDays :=
              Qceiling (inject_Z diffTime
                        / inject_Z (1000 * 60 * 60 * 24))%Q in
            if (diffDays =? 1)%Z then "Today"
            else if (diffDays =? 2)%Z then "Yesterday"
            else if (diffDays <=? 7)%Z
                 then (JS.string_of_Z (diffDays - 1) ++ " days ago")%string
                 else toLocaleDateString dateString
        end
  end.

End Dates.

End DashboardPage.

(** ** Further worlds and files to run the functions on *)

Module MoreExamples.

(** A stored file whose name starts with a dot, and an upload of the same
    name. *)
Definition dot_file : Blink.FileRow :=
  {| Blink.f_id := "file_9";
     Blink.f_name := ".env";
     Blink.f_organization_id := "org_sample";
     Blink.f_parent_file_id := None;
     Blink.f_file_path := "https://cdn.example/env";
     Blink.f_file_size := JS.Str "64";
     Blink.f_uploaded_by := "user_1";
     Blink.f_created_at := "2024-01-02T00:00:00.000Z";
     Blink.f_updated_at := "2024-01-02T00:00:00.000Z";
     Blink.f_version_label := "VT-01-v1.0.0";
     Blink.f_version_notes := None;
     Blink.f_is_latest_version := "1";
     Blink.f_sequential_number := Some 1%N |}.

Definition dot_world : Blink.World :=
  Examples.world_of [dot_file] [] [] false.

Definition dot_upload : FileUpload.File :=
  FileUpload.mkFile ".env" "text/plain" 3 1700000000000
    [Byte.x41; Byte.x3d; Byte.x31].

(** A store holding one file, and a hosted model that answers with two
    entries: one for the file listed first, one for a file numbered 1,
    which is beyond the list when the count starts at 0. *)
Definition first_entry : Blink.Similarity :=
  {| Blink.fileIndex := 0;
     Blink.contentSimilarity := JS.Fin (4 # 5);
     Blink.nameSimilarity := JS.Fin (9 # 10);
     Blink.overallSimilarity := JS.Fin (17 # 20);
     Blink.reason := "Same manual";
     Blink.shouldVersion := true |}.

Definition second_entry : Blink.Similarity :=
  {| Blink.fileIndex := 1;
     Blink.contentSimilarity := JS.Fin (4 # 5);
     Blink.nameSimilarity := JS.Fin (9 # 10);
     Blink.overallSimilarity := JS.Fin (19 # 20);
     Blink.reason := "Same manual";
     Blink.shouldVersion := true |}.

Definition model_world : Blink.World :=
  {| Blink.files := [Examples.manual_file];
     Blink.fileVersions := [];
     Blink.activityLog := [];
     Blink.ai_objects := [[first_entry; second_entry]];
     Blink.faults := [];
     Blink.update_rejects_unknown_id := false;
     Blink.rejected := 0;
     Blink.callbacks := [] |}.

(** A clock that reads the two dates of the restore scenario. *)
Definition clock (s : string) : option Z :=
  if (s =? "2024-01-01T00:00:00.000Z")%string then Some 1704067200000%Z
  else if (s =? "2024-02-01T00:00:00.000Z")%string then Some 1706745600000%Z
  else None.

(** A lineage kept in [fileVersions] alone: the file row is not marked
    latest, the second of its two versions is current. *)
Definition plain_file : Blink.FileRow :=
  {| Blink.f_id := "file_1";
     Blink.f_name := "Manual.pdf";
     Blink.f_organization_id := "org_sample";
     Blink.f_parent_file_id := None;
     Blink.f_file_path := "https://cdn.example/manual-2.pdf";
     Blink.f_file_size := JS.Str "4096";
     Blink.f_uploaded_by := "user_1";
     Blink.f_created_at := "2024-01-01T00:00:00.000Z";
     Blink.f_updated_at := "2024-02-01T00:00:00.000Z";
     Blink.f_version_label := "VT-01-v1.0.1";
     Blink.f_version_notes := None;
     Blink.f_is_latest_version := "0";
     Blink.f_sequential_number := Some 1%N |}.

Definition version_2 : Blink.FileVersionRow :=
  {| Blink.fv_id := "version_2";
     Blink.fv_file_id := "file_1";
     Blink.fv_version_label := "VT-01-v1.0.1";
     Blink.fv_file_path := "https://cdn.example/manual-2.pdf";
     Blink.fv_file_size := JS.Num (JS.of_Z 4096);
     Blink.fv_uploaded_by := "user_1";
     Blink.fv_created_at := "2024-02-01T00:00:00.000Z";
     Blink.fv_version_notes := None;
     Blink.fv_is_current := "1" |}.

Definition plain_world : Blink.World :=
  Examples.world_of [plain_file] [Scenario.version_1; version_2] [] false.

(** The same store, answering three calls and rejecting the fourth. *)
Definition failing_world : Blink.World :=
  Examples.world_of [plain_file] [Scenario.version_1; version_2]
    [false; false; false; true] false.

Definition plain_screen : VersionHistory.State :=
  {| VersionHistory.versions :=
       VersionHistory.shown clock "file_1" plain_world;
     VersionHistory.loading := false;
     VersionHistory.currentUser := Some (VersionHistory.mkUser "user_1") |}.

(** The dashboard showing the file of the restore scenario. *)
Definition dashboard : DashboardPage.State :=
  {| DashboardPage.files := [Scenario.root_file];
     DashboardPage.loading := false;
     DashboardPage.searchQuery := EmptyString |}.

End MoreExamples.

(* ===================================================================== *)
(** * Part II. Properties                                                 *)
(* ===================================================================== *)

(** ** The similarity of names *)

Section LevenshteinFacts.

Variable char : Type.
Variable char_eq_dec : forall a b : char, {a = b} + {a <> b}.

Local Abbreviation lev := (Levenshtein.editDistance char char_eq_dec).
Local Abbreviation edits := (Levenshtein.edits char).
Local Abbreviation is_distance := (Levenshtein.is_distance char).

Lemma editDistance_nil_r (s : list char) : lev s [] = List.length s.
Proof. destruct s; reflexivity. Qed.

Lemma editDistance_cons_cons (a b : char) (s t : list char) :
  lev (a :: s) (b :: t) =
  if char_eq_dec a b then lev s t
  else S (Nat.min (lev s t) (Nat.min (lev (a :: s) t) (lev s (b :: t)))).
Proof. reflexivity. Qed.

Lemma edits_refl (s : list char) : edits s s 0.
Proof. induction s; constructor; assumption. Qed.

Lemma edits_nil_l (t : list char) : edits [] t (List.length t).
Proof. induction t; simpl; constructor; assumption. Qed.

Lemma edits_nil_r (s : list char) : edits s [] (List.length s).
Proof. induction s; simpl; constructor; assumption. Qed.

Lemma edits_editDistance (s t : list char) : edits s t (lev s t).
Proof.
  revert t. induction s as [|a s IHs]; intro t.
  - apply edits_nil_l.
  - induction t as [|b t IHt].
    + rewrite editDistance_nil_r. apply edits_nil_r.
    + rewrite editDistance_cons_cons.
      destruct (char_eq_dec a b) as [->|Hne].
      * apply Levenshtein.edits_keep, IHs.
      * destruct (Nat.min_spec (lev s t) (Nat.min (lev (a :: s) t) (lev s (b :: t))))
          as [[_ ->]|[_ ->]].
        -- apply Levenshtein.edits_subst, IHs.
        -- destruct (Nat.min_spec (lev (a :: s) t) (lev s (b :: t)))
             as [[_ ->]|[_ ->]].
           ++ apply Levenshtein.edits_insert, IHt.
           ++ apply Levenshtein.edits_delete, IHs.
Qed.

(** One more unit on either side moves the distance by at most one. *)
Lemma editDistance_step (n : nat) :
  forall s t : list char, List.length s + List.length t <= n ->
    (forall a, lev (a :: s) t <= S (lev s t)) /\
    (forall b, lev s (b :: t) <= S (lev s t)) /\
    (forall a, lev s t <= S (lev (a :: s) t)) /\
    (forall b, lev s t <= S (lev s (b :: t))).
Proof.
  induction n as [|n IH]; intros s t Hlen.
  - destruct s, t; simpl in Hlen; try lia.
    repeat split; intros; simpl; lia.
  - assert (A1 : forall a, lev (a :: s) t <= S (lev s t)).
    { intro a. destruct t as [|b t'].
      - rewrite !editDistance_nil_r. simpl. lia.
      - rewrite editDistance_cons_cons. destruct (char_eq_dec a b).
        + simpl in Hlen. destruct (IH s t') as (_ & _ & _ & B2); [lia|]. apply B2.
        + lia. }
    assert (A2 : forall b, lev s (b :: t) <= S (lev s t)).
    { intro b. destruct s as [|a s'].
      - simpl. lia.
      - rewrite editDistance_cons_cons. destruct (char_eq_dec a b).
        + simpl in Hlen. destruct (IH s' t) as (_ & _ & B1 & _); [lia|]. apply B1.
        + lia. }
    repeat split; auto.
    + intro a. destruct t as [|b t'].
      * rewrite !editDistance_nil_r. simpl. lia.
      * simpl in Hlen.
        destruct (IH s t') as (_ & A2' & B1' & _); [lia|].
        rewrite editDistance_cons_cons. destruct (char_eq_dec a b).
        -- apply A2'.
        -- specialize (A2' b). specialize (B1' a). lia.
    + intro b. destruct s as [|a s'].
      * simpl. lia.
      * simpl in Hlen.
        destruct (IH s' t) as (A1' & _ & _ & B2'); [lia|].
        rewrite editDistance_cons_cons. destruct (char_eq_dec a b).
        -- apply A1'.
        -- specialize (A1' a). specialize (B2' b). lia.
Qed.

Lemma editDistance_le_edits (s t : list char) (n : nat) :
  edits s t n -> lev s t <= n.
Proof.
  induction 1 as [|a s t n _ IH|a b s t n _ IH|a s t n _ IH|b s t n _ IH].
  - simpl. lia.
  - rewrite editDistance_cons_cons. destruct (char_eq_dec a a); [assumption|congruence].
  - rewrite editDistance_cons_cons. destruct (char_eq_dec a b); lia.
  - destruct (editDistance_step _ s t (le_n _)) as (A1 & _). specialize (A1 a). lia.
  - destruct (editDistance_step _ s t (le_n _)) as (_ & A2 & _). specialize (A2 b). lia.
Qed.

Lemma editDistance_is_levenshtein (s t : list char) :
  is_distance s t (lev s t).
Proof.
  split; [apply edits_editDistance | apply editDistance_le_edits].
Qed.

Lemma is_levenshtein_unique (s t : list char) (d d' : nat) :
  is_distance s t d -> is_distance s t d' -> d = d'.
Proof.
  intros [H1 H2] [H1' H2']. apply Nat.le_antisymm; auto.
Qed.

Lemma edits_sym (s t : list char) (n : nat) : edits s t n -> edits t s n.
Proof. induction 1; constructor; assumption. Qed.

Lemma edits_app_keep (u s t : list char) (n : nat) :
  edits s t n -> edits (s ++ u) (t ++ u) n.
Proof. induction 1; simpl; try (constructor; assumption). apply edits_refl. Qed.

Lemma edits_snoc_subst (a b : char) (s t : list char) (n : nat) :
  edits s t n -> edits (s ++ [a]) (t ++ [b]) (S n).
Proof.
  induction 1; simpl; try (constructor; assumption).
  apply Levenshtein.edits_subst. constructor.
Qed.

Lemma edits_snoc_delete (a : char) (s t : list char) (n : nat) :
  edits s t n -> edits (s ++ [a]) t (S n).
Proof.
  induction 1; simpl; try (constructor; assumption).
  apply Levenshtein.edits_delete. constructor.
Qed.

Lemma edits_snoc_insert (b : char) (s t : list char) (n : nat) :
  edits s t n -> edits s (t ++ [b]) (S n).
Proof.
  induction 1; simpl; try (constructor; assumption).
  apply Levenshtein.edits_insert. constructor.
Qed.

Lemma edits_rev (s t : list char) (n : nat) :
  edits s t n -> edits (rev s) (rev t) n.
Proof.
  induction 1; simpl.
  - constructor.
  - apply edits_app_keep; assumption.
  - apply edits_snoc_subst; assumption.
  - apply edits_snoc_delete; assumption.
  - apply edits_snoc_insert; assumption.
Qed.

Lemma editDistance_sym (s t : list char) : lev s t = lev t s.
Proof.
  apply (is_levenshtein_unique s t); [apply editDistance_is_levenshtein|].
  destruct (editDistance_is_levenshtein t s) as [H1 H2].
  split; [apply edits_sym, H1 | intros n Hn; apply H2, edits_sym, Hn].
Qed.

Lemma editDistance_rev (s t : list char) : lev (rev s) (rev t) = lev s t.
Proof.
  apply (is_levenshtein_unique s t); [|apply editDistance_is_levenshtein].
  destruct (editDistance_is_levenshtein (rev s) (rev t)) as [H1 H2].
  split.
  - apply edits_rev in H1. rewrite !rev_involutive in H1. exact H1.
  - intros n Hn. apply H2, edits_rev, Hn.
Qed.


(** *** The matrix of [levenshteinDistance] *)

Lemma array_set_append {X : Type} (hole : X) (a : list X) (x : X) :
  JS.array_set hole a (List.length a) x = a ++ [x].
Proof. induction a as [|y a IH]; simpl; [reflexivity|now rewrite IH]. Qed.

Lemma array_set_middle {X : Type} (hole : X) (pre post : list X) (c x : X) :
  JS.array_set hole (pre ++ c :: post) (List.length pre) x = pre ++ x :: post.
Proof. induction pre as [|y pre IH]; simpl; [reflexivity|now rewrite IH]. Qed.

Lemma fill_by_index {X : Type} (hole : X) (f : nat -> X) (n k : nat) :
  fold_left (fun a i => JS.array_set hole a i (f i)) (seq k n) (map f (seq 0 k))
  = map f (seq 0 (k + n)).
Proof.
  revert k. induction n as [|n IH]; intro k; simpl.
  - now rewrite Nat.add_0_r.
  - replace (JS.array_set hole (map f (seq 0 k)) k (f k))
      with (map f (seq 0 (S k))).
    + rewrite IH. f_equal. f_equal. lia.
    + rewrite seq_S, map_app. simpl.
      rewrite <- (array_set_append hole (map f (seq 0 k)) (f k)).
      now rewrite length_map, length_seq.
Qed.

Lemma matrix_set_middle (pre post : list (list nat)) (cur : list nat) (j v : nat) :
  FileUpload.matrix_set (pre ++ cur :: post) (List.length pre) j v
  = pre ++ JS.array_set 0 cur j v :: post.
Proof.
  unfold FileUpload.matrix_set. rewrite nth_middle. apply array_set_middle.
Qed.

Lemma matrix_get_middle (pre post : list (list nat)) (cur : list nat) (j : nat) :
  FileUpload.matrix_get (pre ++ cur :: post) (List.length pre) j = nth j cur 0.
Proof. unfold FileUpload.matrix_get. now rewrite nth_middle. Qed.

Lemma matrix_get_before (pre post : list (list nat)) (i j : nat) :
  i < List.length pre ->
  FileUpload.matrix_get (pre ++ post) i j = nth j (nth i pre []) 0.
Proof. intro H. unfold FileUpload.matrix_get. now rewrite app_nth1. Qed.

Section Matrix.

Variables str1 str2 : list char.

Local Abbreviation cell := (FileUpload.cell char char_eq_dec str1 str2).
Local Abbreviation row := (FileUpload.row char char_eq_dec str1 str2).
Local Abbreviation stub := FileUpload.stub.
Local Abbreviation inner_body :=
  (FileUpload.inner_body char char_eq_dec str1 str2).

Lemma cell_0_l (i : nat) : i <= List.length str2 -> cell i 0 = i.
Proof.
  intro H. unfold cell. simpl. rewrite length_rev, length_firstn. lia.
Qed.

Lemma cell_0_r (j : nat) : j <= List.length str1 -> cell 0 j = j.
Proof.
  intro H. unfold cell. simpl. rewrite editDistance_nil_r, length_rev, length_firstn. lia.
Qed.

Lemma rev_firstn_S (s : list char) (k : nat) (c : char) :
  nth_error s k = Some c -> rev (firstn (S k) s) = c :: rev (firstn k s).
Proof.
  revert k. induction s as [|x s IH]; intros [|k] H; simpl in *; try discriminate.
  - now inversion H.
  - specialize (IH k H). simpl in IH. rewrite IH. reflexivity.
Qed.

Lemma cell_S_S (i j : nat) :
  i < List.length str2 -> j < List.length str1 ->
  cell (S i) (S j) =
  if FileUpload.charAt_eqb char char_eq_dec
       (FileUpload.charAt char str2 i) (FileUpload.charAt char str1 j)
  then cell i j
  else Nat.min (cell i j + 1) (Nat.min (cell (S i) j + 1) (cell i (S j) + 1)).
Proof.
  intros Hi Hj. unfold FileUpload.charAt.
  destruct (nth_error str2 i) as [b|] eqn:Eb;
    [|apply nth_error_None in Eb; lia].
  destruct (nth_error str1 j) as [a|] eqn:Ea;
    [|apply nth_error_None in Ea; lia].
  unfold cell. rewrite (rev_firstn_S _ _ _ Ea), (rev_firstn_S _ _ _ Eb).
  rewrite editDistance_cons_cons. simpl.
  destruct (char_eq_dec a b) as [E|Hne], (char_eq_dec b a) as [E'|Hne'];
    try congruence; try reflexivity.
  lia.
Qed.

Lemma nth_map_seq {X : Type} (f : nat -> X) (n j : nat) (d : X) :
  j < n -> nth j (map f (seq 0 n)) d = f j.
Proof.
  intro H. rewrite (nth_indep _ d (f 0)) by now rewrite length_map, length_seq.
  rewrite map_nth, seq_nth by assumption. reflexivity.
Qed.

Lemma inner_loop_fills_row (n : nat) :
  forall (k : nat) (pre post : list (list nat)),
    1 <= List.length pre <= List.length str2 ->
    nth (List.length pre - 1) pre [] = row (List.length pre - 1) ->
    1 <= k -> k + n = S (List.length str1) ->
    fold_left (inner_body (List.length pre)) (seq k n)
      (pre ++ map (cell (List.length pre)) (seq 0 k) :: post)
    = pre ++ row (List.length pre) :: post.
Proof.
  induction n as [|n IH]; intros k pre post Hi Hprev Hk Hkn; simpl.
  - unfold row. replace (S (List.length str1)) with k by lia. reflexivity.
  - set (i := List.length pre) in *.
    set (cur := map (cell i) (seq 0 k)).
    assert (Hv : inner_body i (pre ++ cur :: post) k
                 = pre ++ map (cell i) (seq 0 (S k)) :: post).
    { unfold inner_body.
      rewrite !matrix_get_middle.
      rewrite !(matrix_get_before pre (cur :: post) (i - 1)) by (subst i; lia).
      rewrite Hprev. unfold row, cur.
      rewrite !nth_map_seq by lia.
      assert (E := cell_S_S (i - 1) (k - 1)).
      replace (S (i - 1)) with i in E by lia.
      replace (S (k - 1)) with k in E by lia.
      specialize (E ltac:(lia) ltac:(lia)).
      assert (Hset : forall v, FileUpload.matrix_set (pre ++ map (cell i) (seq 0 k) :: post) i k v
                      = pre ++ (map (cell i) (seq 0 k) ++ [v]) :: post).
      { intro v. unfold i. rewrite matrix_set_middle. f_equal. f_equal.
        rewrite <- array_set_append with (hole := 0).
        now rewrite length_map, length_seq. }
      rewrite seq_S, map_app. simpl.
      destruct (FileUpload.charAt_eqb _ _ _ _); rewrite Hset, E; reflexivity. }
    fold cur. rewrite Hv. apply IH; try assumption; lia.
Qed.

Lemma outer_loop_fills_matrix (n : nat) :
  forall i : nat, 1 <= i -> i + n = S (List.length str2) ->
    fold_left
      (fun matrix i =>
         FileUpload.for_loop 1 (List.length str1) (inner_body i) matrix)
      (seq i n) (map row (seq 0 i) ++ map stub (seq i n))
    = map row (seq 0 (i + n)).
Proof.
  induction n as [|n IH]; intros i Hi Hin; simpl.
  - now rewrite app_nil_r, Nat.add_0_r.
  - unfold FileUpload.for_loop at 2.
    replace (S (List.length str1) - 1) with (List.length str1) by lia.
    assert (Hlen : List.length (map row (seq 0 i)) = i)
      by now rewrite length_map, length_seq.
    assert (Hstub : stub i = map (cell i) (seq 0 1)).
    { simpl. unfold stub. rewrite cell_0_l by lia. reflexivity. }
    rewrite Hstub.
    pose proof (inner_loop_fills_row (List.length str1) 1 (map row (seq 0 i))
                  (map stub (seq (S i) n))) as H.
    rewrite Hlen in H. rewrite H; try lia.
    + replace (map row (seq 0 i) ++ row i :: map stub (seq (S i) n))
        with (map row (seq 0 (S i)) ++ map stub (seq (S i) n)).
      * rewrite IH by lia. f_equal. f_equal. lia.
      * rewrite seq_S, map_app, <- app_assoc. reflexivity.
    + apply nth_map_seq. lia.
Qed.

Lemma levenshteinDistance_cell :
  FileUpload.levenshteinDistance char char_eq_dec str1 str2
  = cell (List.length str2) (List.length str1).
Proof.
  unfold FileUpload.levenshteinDistance.
  (* first loop: one stub per row *)
  assert (H1 : FileUpload.for_loop 0 (List.length str2)
                 (fun matrix i => JS.array_set [] matrix i [i]) []
               = map stub (seq 0 (S (List.length str2)))).
  { unfold FileUpload.for_loop. rewrite Nat.sub_0_r.
    apply (fill_by_index [] stub (S (List.length str2)) 0). }
  rewrite H1. clear H1.
  (* second loop: row 0 *)
  assert (H2 : FileUpload.for_loop 0 (List.length str1)
                 (fun matrix j => FileUpload.matrix_set matrix 0 j j)
                 (map stub (seq 0 (S (List.length str2))))
               = map row (seq 0 1) ++ map stub (seq 1 (List.length str2))).
  { unfold FileUpload.for_loop. rewrite Nat.sub_0_r.
    change (map stub (seq 0 (S (List.length str2))))
      with ([] ++ stub 0 :: map stub (seq 1 (List.length str2))).
    assert (G : forall js cur post,
               fold_left (fun matrix j => FileUpload.matrix_set matrix 0 j j) js
                 ([] ++ cur :: post)
               = fold_left (fun a j => JS.array_set 0 a j j) js cur :: post).
    { induction js as [|j js IHjs]; intros cur post; simpl; [reflexivity|].
      rewrite <- (IHjs (JS.array_set 0 cur j j) post). reflexivity. }
    rewrite G. simpl. f_equal.
    change [0] with (map (fun j : nat => j) (seq 0 1)).
    rewrite (fill_by_index 0 (fun j => j) (List.length str1) 1).
    unfold row. apply map_ext_in. intros j Hj. apply in_seq in Hj.
    symmetry. apply cell_0_r. lia. }
  rewrite H2. clear H2.
  unfold FileUpload.for_loop at 1.
  replace (S (List.length str2) - 1) with (List.length str2) by lia.
  match goal with
  | |- FileUpload.matrix_get ?m _ _ = _ =>
      replace m with (map row (seq 0 (1 + List.length str2)))
  end.
  2: { symmetry.
       exact (outer_loop_fills_matrix (List.length str2) 1 (le_n 1) eq_refl). }
  unfold FileUpload.matrix_get.
  rewrite (nth_map_seq row) by lia. unfold row. rewrite nth_map_seq by lia.
  reflexivity.
Qed.

Lemma levenshteinDistance_editDistance :
  FileUpload.levenshteinDistance char char_eq_dec str1 str2 = lev str1 str2.
Proof.
  rewrite levenshteinDistance_cell. unfold cell.
  rewrite !firstn_all. apply editDistance_rev.
Qed.

End Matrix.

End LevenshteinFacts.

Lemma editDistance_self (char : Type)
  (char_eq_dec : forall a b : char, {a = b} + {a <> b}) (s : list char) :
  Levenshtein.editDistance char char_eq_dec s s = 0.
Proof.
  apply Nat.le_0_r. apply editDistance_le_edits, edits_refl.
Qed.

Lemma div_self_pos (n : nat) :
  0 < n ->
  JS.div (JS.sub (JS.of_nat n) (JS.of_nat 0)) (JS.of_nat n) = JS.Fin 1%Q.
Proof.
  intro Hn. unfold JS.of_nat, JS.of_Z, JS.sub, JS.div.
  assert (Hz : JS.Qis_zero (inject_Z (Z.of_nat n)) = false).
  { unfold JS.Qis_zero. simpl. apply Z.eqb_neq. lia. }
  rewrite Hz. f_equal.
  change 1%Q with (Qred 1%Q). apply Qred_complete.
  rewrite Qred_correct. simpl Z.of_nat.
  unfold Qminus. change (- inject_Z 0)%Q with 0%Q. rewrite Qplus_0_r.
  apply Qmult_inv_r. unfold inject_Z, Qeq. simpl. lia.
Qed.

Lemma similarity_of_nonempty_self (char : Type)
  (char_eq_dec : forall a b : char, {a = b} + {a <> b}) (s : list char) :
  s <> [] -> FileUpload.calculateSimilarity char char_eq_dec s s = JS.Fin 1%Q.
Proof.
  intro Hs. unfold FileUpload.calculateSimilarity.
  rewrite Nat.ltb_irrefl, levenshteinDistance_editDistance, editDistance_self.
  apply div_self_pos. destruct s; [congruence | simpl; lia].
Qed.

(** C4.  For every pair of strings, [calculateSimilarity s1 s2] is
    [(max(len1, len2) - d) / max(len1, len2)], where [d] is the standard
    Levenshtein distance between [s1] and [s2]: the least cost of an edit
    script from one to the other. *)
Theorem calculateSimilarity_formula (char : Type)
  (char_eq_dec : forall a b : char, {a = b} + {a <> b}) (s1 s2 : list char) :
  let len1 := List.length s1 in
  let len2 := List.length s2 in
  let d := Levenshtein.editDistance char char_eq_dec s1 s2 in
  Levenshtein.is_distance char s1 s2 d /\
  FileUpload.calculateSimilarity char char_eq_dec s1 s2 =
    JS.div (JS.sub (JS.of_nat (Nat.max len1 len2)) (JS.of_nat d))
           (JS.of_nat (Nat.max len1 len2)).
Proof.
  intros len1 len2 d. split; [apply editDistance_is_levenshtein|].
  unfold FileUpload.calculateSimilarity. fold len1 len2.
  rewrite levenshteinDistance_editDistance.
  destruct (Nat.ltb_spec len2 len1) as [H|H].
  - replace (Nat.max len1 len2) with len1 by lia. reflexivity.
  - fold len2. replace (Nat.max len1 len2) with len2 by lia.
    now rewrite editDistance_sym.
Qed.

(** C5.  The similarity of a string with itself is 1 when the string is
    not empty.  For the empty string [calculateSimilarity] divides 0 by 0
    and returns NaN, not 1. *)
Theorem calculateSimilarity_self (char : Type)
  (char_eq_dec : forall a b : char, {a = b} + {a <> b}) (s : list char) :
  FileUpload.calculateSimilarity char char_eq_dec s s
  = match s with
    | [] => JS.NaN
    | _ :: _ => JS.Fin 1%Q
    end.
Proof.
  destruct s as [|c s]; [reflexivity|].
  apply similarity_of_nonempty_self. discriminate.
Qed.

(** ** Version labels *)

(** C2.  [incrementVersion] turns VT-01-v1.0.0 into VT-01-v1.0.1 for a
    patch increment and VT-01-v1.9.9 into VT-01-v1.10.0 for a minor one. *)
Theorem incrementVersion_examples :
  AISimilarityService.incrementVersion "VT-01-v1.0.0"
    AISimilarityService.Patch = "VT-01-v1.0.1" /\
  AISimilarityService.incrementVersion "VT-01-v1.9.9"
    AISimilarityService.Minor = "VT-01-v1.10.0".
Proof. split; reflexivity. Qed.

(** ** File sizes *)

(** *** The integer logarithm *)

Lemma search_down_spec (K q : Q) (fuel : nat) :
  forall i : Z,
    (q < K ^ (i + 1))%Q ->
    (K ^ (i - Z.of_nat fuel) <= q)%Q ->
    let r := JS.search_down fuel i K q in
    (K ^ r <= q)%Q /\ (q < K ^ (r + 1))%Q.
Proof.
  induction fuel as [|fuel IH]; intros i Hup Hlow; simpl.
  - replace (i - Z.of_nat 0)%Z with i in Hlow by lia. split; assumption.
  - destruct (Qle_bool (K ^ i) q) eqn:E.
    + apply Qle_bool_iff in E. split; assumption.
    + apply IH.
      * replace (i - 1 + 1)%Z with i by lia.
        apply Qnot_le_lt. intro H. apply Qle_bool_iff in H. congruence.
      * replace (i - 1 - Z.of_nat fuel)%Z with (i - Z.of_nat (S fuel))%Z by lia.
        exact Hlow.
Qed.

(** [floor_log_pos k q] is the floor of the logarithm of [q] in base [k]. *)
Lemma floor_log_pos_spec (k : Z) (q : Q) :
  (2 <= k)%Z -> (0 < q)%Q ->
  let i := JS.floor_log_pos k q in
  (inject_Z k ^ i <= q)%Q /\ (q < inject_Z k ^ (i + 1))%Q.
Proof.
  intros Hk Hq. unfold JS.floor_log_pos.
  destruct q as [n d]. simpl Qnum. simpl Qden.
  assert (Hn : (0 < n)%Z) by (unfold Qlt in Hq; simpl in Hq; lia).
  set (B := (Z.log2 n + Z.log2 (Z.pos d) + 1)%Z).
  assert (HB : (0 < B)%Z).
  { pose proof (Z.log2_nonneg n). pose proof (Z.log2_nonneg (Z.pos d)). lia. }
  assert (Hpow : forall m, (0 < m)%Z -> (m < k ^ (B + 1))%Z \/ (B + 1 <= Z.log2 m)%Z).
  { intros m Hm. destruct (Z.log2_spec m Hm) as [_ H].
    destruct (Z_lt_le_dec (Z.log2 m) (B + 1)) as [Hlt|Hge]; [left|right; exact Hge].
    eapply Z.lt_le_trans; [exact H|].
    transitivity (2 ^ (B + 1))%Z.
    - apply Z.pow_le_mono_r; lia.
    - apply Z.pow_le_mono_l; lia. }
  assert (HnM : (n < k ^ (B + 1))%Z).
  { destruct (Hpow n Hn) as [H|H]; [exact H|].
    pose proof (Z.log2_nonneg (Z.pos d)). lia. }
  assert (HdM : (Z.pos d < k ^ (B + 1))%Z).
  { destruct (Hpow (Z.pos d) eq_refl) as [H|H]; [exact H|].
    pose proof (Z.log2_nonneg n). lia. }
  assert (HM : (inject_Z k ^ (B + 1) == inject_Z (k ^ (B + 1)))%Q).
  { symmetry. apply Zpower_Qpower. lia. }
  apply search_down_spec.
  - rewrite HM. unfold Qlt, inject_Z. simpl.
    assert (0 < k ^ (B + 1))%Z by lia. nia.
  - replace (B - Z.of_nat (Z.to_nat (2 * B + 1)))%Z with (- (B + 1))%Z by lia.
    rewrite Qpower_opp, HM.
    assert (HMpos : (0 < k ^ (B + 1))%Z) by lia.
    destruct (k ^ (B + 1))%Z as [|M|M] eqn:EM; try lia.
    unfold Qle, Qinv, inject_Z. simpl. nia.
Qed.

(** C9.  Each of the three copies of [formatFileSize] (FileUpload,
    VersionHistory, Dashboard) prints 0 as 0 Bytes and 1536 as 1.5 KB. *)
Theorem formatFileSize_examples (StringToNumber : string -> JS.number) :
  (FileUpload.formatFileSize (JS.of_Z 0) = "0 Bytes" /\
   FileUpload.formatFileSize (JS.of_Z 1536) = "1.5 KB") /\
  (VersionHistory.formatFileSize (JS.of_Z 0) = "0 Bytes" /\
   VersionHistory.formatFileSize (JS.of_Z 1536) = "1.5 KB") /\
  (Dashboard.formatFileSize StringToNumber (JS.Num (JS.of_Z 0)) = "0 Bytes" /\
   Dashboard.formatFileSize StringToNumber (JS.Num (JS.of_Z 1536)) = "1.5 KB").
Proof. repeat split; vm_compute; reflexivity. Qed.

(** C10.  The Dashboard copy of [formatFileSize] returns 0 Bytes for every
    null, undefined, empty-string or non-numeric input: such a value is
    never printed as NaN, and the function returns normally. *)
Theorem formatFileSize_malformed (StringToNumber : string -> JS.number)
  (bytes : JS.value) :
  Dashboard.malformed StringToNumber bytes ->
  Dashboard.formatFileSize StringToNumber bytes = "0 Bytes".
Proof.
  unfold Dashboard.malformed, Dashboard.formatFileSize.
  intros [-> | [-> | [-> | H]]]; try reflexivity.
  rewrite H, !orb_true_r. reflexivity.
Qed.

Lemma formatFileSize_malformed_witness :
  Dashboard.malformed JS.decimal_StringToNumber (JS.Str "12 apples") /\
  Dashboard.formatFileSize JS.decimal_StringToNumber (JS.Str "12 apples")
  = "0 Bytes".
Proof.
  assert (H : Dashboard.malformed JS.decimal_StringToNumber
                (JS.Str "12 apples")).
  { right; right; right. reflexivity. }
  split; [exact H | exact (formatFileSize_malformed _ _ H)].
Defined.

(** A number that is no size at all passes the guard: only what [Number]
    turns into NaN is caught, and a negative number prints as NaN. *)
Lemma formatFileSize_negative (StringToNumber : string -> JS.number) :
  Dashboard.formatFileSize StringToNumber (JS.Num (JS.of_Z (-5)))
  = "NaN undefined".
Proof. vm_compute. reflexivity. Qed.

(** ** The content hash *)

Lemma firstn_min_length {X : Type} (l : list X) (n : nat) :
  firstn (Nat.min (List.length l) n) l = firstn n l.
Proof.
  destruct (Nat.le_gt_cases n (List.length l)) as [H | H].
  - now rewrite Nat.min_r.
  - rewrite Nat.min_l by lia. now rewrite firstn_all, firstn_all2 by lia.
Qed.

Lemma hashed_bytes (l : list Byte.byte) :
  firstn (Nat.min (List.length (firstn 1000 l)) 100) (firstn 1000 l)
  = firstn (Nat.min 100 (List.length l)) l.
Proof.
  rewrite firstn_min_length, firstn_firstn.
  change (Nat.min 100 1000) with 100.
  now rewrite Nat.min_comm, firstn_min_length.
Qed.

(** C8.  The hash of [generateFileHash] depends only on the name, the
    size, the time of last modification and the first min(100, length)
    bytes of the content: two files that agree on these four have the same
    hash, whatever their contents are afterwards. *)
Theorem generateFileHash_depends_on (f1 f2 : FileUpload.File) :
  FileUpload.name f1 = FileUpload.name f2 ->
  FileUpload.size f1 = FileUpload.size f2 ->
  FileUpload.lastModified f1 = FileUpload.lastModified f2 ->
  firstn (Nat.min 100 (List.length (FileUpload.bytes f1))) (FileUpload.bytes f1)
  = firstn (Nat.min 100 (List.length (FileUpload.bytes f2))) (FileUpload.bytes f2) ->
  FileUpload.generateFileHash f1 = FileUpload.generateFileHash f2.
Proof.
  intros Hname Hsize Htime Hbytes. unfold FileUpload.generateFileHash.
  rewrite !hashed_bytes, Hname, Hsize, Htime, Hbytes. reflexivity.
Qed.

Lemma generateFileHash_collision_witness :
  FileUpload.bytes Examples.report_a <> FileUpload.bytes Examples.report_b /\
  FileUpload.generateFileHash Examples.report_a = FileUpload.generateFileHash Examples.report_b.
Proof.
  split.
  - intro H. apply (f_equal (fun l => nth 100 l Byte.x00)) in H.
    vm_compute in H. discriminate H.
  - apply (generateFileHash_depends_on Examples.report_a Examples.report_b); reflexivity.
Defined.

(** ** The list of versions *)

Lemma insert_sorted_perm {X : Type} (before : X -> X -> bool) (x : X)
  (l : list X) : Permutation (JS.insert_sorted before x l) (x :: l).
Proof.
  induction l as [|y l IH]; simpl; [reflexivity|].
  destruct (before y x); [|reflexivity].
  rewrite IH. apply perm_swap.
Qed.

Lemma sort_by_perm {X : Type} (before : X -> X -> bool) (l : list X) :
  Permutation (JS.sort_by before l) l.
Proof.
  induction l as [|x l IH]; simpl; [reflexivity|].
  rewrite insert_sorted_perm. now apply perm_skip.
Qed.

Lemma NoDup_map_filter {X Y : Type} (f : X -> Y) (p : X -> bool)
  (l : list X) : NoDup (map f l) -> NoDup (map f (filter p l)).
Proof.
  induction l as [|x l IH]; simpl; intro H; [constructor|].
  inversion H as [|? ? Hx Hl]; subst.
  destruct (p x); simpl; [constructor|]; auto.
  intro Hin. apply Hx. apply in_map_iff in Hin as (y & Hy & Hin).
  apply filter_In in Hin as [Hin _]. apply in_map_iff. eauto.
Qed.

(** If [g] tells apart the elements of [l], and [f] tells apart what [g]
    does, then [f] tells apart the elements of [l]. *)
Lemma NoDup_map_finer {X Y Z : Type} (f : X -> Y) (g : X -> Z)
  (l : list X) :
  NoDup (map g l) ->
  (forall x y, In x l -> In y l -> f x = f y -> g x = g y) ->
  NoDup (map f l).
Proof.
  induction l as [|x l IH]; simpl; intros Hg Hfg; [constructor|].
  inversion Hg as [|? ? Hx Hl]; subst. constructor.
  - intro Hin. apply in_map_iff in Hin as (y & Hy & Hin).
    apply Hx. apply in_map_iff. exists y. split; [|assumption].
    symmetry. apply Hfg; auto.
  - apply IH; auto.
Qed.

Lemma map_fst_combine_seq {X : Type} (l : list X) (k : nat) :
  map fst (combine (seq k (List.length l)) l) = seq k (List.length l).
Proof.
  revert k. induction l as [|x l IH]; intro k; simpl; [reflexivity|].
  now rewrite IH.
Qed.

(** Keeping the first entry of each key leaves no key twice. *)
Lemma first_occurrences_NoDup {X : Type} (key : X -> string) (a : list X) :
  NoDup
    (map key
       (JS.filter_indexed
          (fun version index self =>
             match JS.findIndex (fun v => (key v =? key version)%string) self
             with
             | Some first => index =? first
             | None => false
             end)
          a)).
Proof.
  unfold JS.filter_indexed. rewrite map_map.
  apply NoDup_map_finer with (g := fst).
  - apply NoDup_map_filter. rewrite map_fst_combine_seq. apply seq_NoDup.
  - intros [i x] [j y] Hx Hy Hkey. simpl in *.
    apply filter_In in Hx as [_ Hx]. apply filter_In in Hy as [_ Hy].
    simpl in *. rewrite Hkey in Hx.
    destruct (JS.findIndex _ a) as [first|]; [|discriminate].
    apply Nat.eqb_eq in Hx, Hy. congruence.
Qed.

(** Sorting the first occurrences keeps the keys apart. *)
Lemma sorted_first_occurrences_NoDup {X : Type} (key : X -> string)
  (before : X -> X -> bool) (a : list X) :
  NoDup
    (map key
       (JS.sort_by before
          (JS.filter_indexed
             (fun version index self =>
                match JS.findIndex (fun v => (key v =? key version)%string)
                        self
                with
                | Some first => index =? first
                | None => false
                end)
             a))).
Proof.
  eapply Permutation_NoDup.
  - apply Permutation_map. symmetry. apply sort_by_perm.
  - apply first_occurrences_NoDup.
Qed.

Lemma merged_ids_NoDup (getTime : string -> option Z)
  (fileVersions : list Blink.FileVersionRow)
  (originalFile : list Blink.FileRow) :
  NoDup (map VersionHistory.id
           (VersionHistory.mergeVersions getTime fileVersions originalFile)).
Proof. apply sorted_first_occurrences_NoDup. Qed.

(** [loadVersions] always returns, and the list it shows holds no id twice
    if the one shown before did not: it is the merged list, or the old one
    when the store rejected a call. *)
Lemma loadVersions_unique_ids (getTime : string -> option Z)
  (fileId : string) (st : VersionHistory.State) (w : Blink.World) :
  NoDup (map VersionHistory.id (VersionHistory.versions st)) ->
  exists st',
    fst (VersionHistory.loadVersions getTime fileId st w) = Blink.Return st' /\
    VersionHistory.loading st' = false /\
    NoDup (map VersionHistory.id (VersionHistory.versions st')).
Proof.
  intro Hst.
  unfold VersionHistory.loadVersions, Blink.try_catch, Blink.bind,
    Blink.fileVersions_list, Blink.files_list, Blink.remote, Blink.ret,
    Blink.reject.
  destruct w as [fs fvs al ai flt rej cnt cbs]. simpl.
  destruct flt as [|[|] flt]; simpl.
  - eexists. split; [reflexivity|]. split; [reflexivity|].
    apply merged_ids_NoDup.
  - eexists. split; [reflexivity|]. split; [reflexivity|exact Hst].
  - destruct flt as [|[|] flt]; simpl;
      (eexists; split; [reflexivity|]; split; [reflexivity|]);
      first [exact Hst | apply merged_ids_NoDup].
Qed.

(** C7.  Whatever rows of [fileVersions] and of [files] the store answers
    with, ids shared between the two lists or not, the merged list that
    [loadVersions] builds holds no id twice. *)
Theorem mergeVersions_unique_ids (getTime : string -> option Z)
  (fileVersions : list Blink.FileVersionRow)
  (originalFile : list Blink.FileRow) :
  NoDup (map VersionHistory.id
           (VersionHistory.mergeVersions getTime fileVersions originalFile)).
Proof.
  unfold VersionHistory.mergeVersions.
  set (allVersions := ([] ++ map VersionHistory.of_version fileVersions)
                        ++ map VersionHistory.of_file originalFile).
  apply (sorted_first_occurrences_NoDup VersionHistory.id
           (VersionHistory.newer getTime) allVersions).
Qed.

(** ** The version pattern *)

Lemma append_assoc (a b c : string) :
  ((a ++ b) ++ c = a ++ (b ++ c))%string.
Proof. induction a as [|x a IH]; simpl; [reflexivity|now rewrite IH]. Qed.

Lemma span_digits_spec (s : string) :
  let (d, r) := JS.span_digits s in
  s = (d ++ r)%string /\
  Forall (fun c => JS.is_digit c = true) (list_ascii_of_string d) /\
  VersionPattern.no_digit_ahead r.
Proof.
  induction s as [|c s IH]; simpl.
  - repeat split; constructor.
  - destruct (JS.is_digit c) eqn:Hc.
    + destruct (JS.span_digits s) as [d r]. destruct IH as (-> & Hd & Hr).
      repeat split; simpl; auto.
    + repeat split; simpl; auto.
Qed.

Lemma span_digits_app (d r : string) :
  Forall (fun c => JS.is_digit c = true) (list_ascii_of_string d) ->
  VersionPattern.no_digit_ahead r ->
  JS.span_digits (d ++ r) = (d, r).
Proof.
  induction d as [|c d IH]; simpl; intros Hd Hr.
  - destruct r as [|c r]; simpl in *; [reflexivity|now rewrite Hr].
  - inversion Hd as [|? ? Hc Hd']; subst. rewrite Hc, IH; auto.
Qed.

Lemma span_digits_nonempty (d post : string) :
  VersionPattern.digits d ->
  exists c d', fst (JS.span_digits (d ++ post)) = String c d'.
Proof.
  intros [Hne Hd]. destruct d as [|c d]; [congruence|].
  simpl in *. inversion Hd as [|? ? Hc _]; subst. rewrite Hc.
  destruct (JS.span_digits (d ++ post)). simpl. eauto.
Qed.

Lemma dot_no_digit (r : string) : VersionPattern.no_digit_ahead (String "." r).
Proof. reflexivity. Qed.

Lemma match_here_complete (m post : string) :
  VersionPattern.matches m ->
  VersionPattern.match_here (m ++ post) <> None.
Proof.
  intros (d1 & d2 & d3 & H1 & H2 & H3 & ->).
  unfold VersionPattern.match_here. simpl.
  rewrite !append_assoc.
  rewrite (span_digits_app d1) by (apply H1 || apply dot_no_digit).
  destruct H1 as [Hne1 _]. destruct d1 as [|c1 d1]; [congruence|].
  simpl. rewrite !append_assoc.
  rewrite (span_digits_app d2) by (apply H2 || apply dot_no_digit).
  destruct H2 as [Hne2 _]. destruct d2 as [|c2 d2]; [congruence|].
  simpl.
  destruct (span_digits_nonempty d3 post H3) as (c & d' & E).
  destruct (JS.span_digits (d3 ++ post)) as [d r]. simpl in E. subst d.
  discriminate.
Qed.

Lemma exec_eq (s : string) :
  VersionPattern.exec s =
  match VersionPattern.match_here s with
  | Some m => Some m
  | None =>
      match s with
      | EmptyString => None
      | String _ r => VersionPattern.exec r
      end
  end.
Proof. destruct s; reflexivity. Qed.

Lemma exec_complete (s : string) :
  VersionPattern.has_match s -> VersionPattern.exec s <> None.
Proof.
  intros (pre & m & post & Hm & ->).
  induction pre as [|c pre IH].
  - pose proof (match_here_complete m post Hm) as H.
    change (EmptyString ++ m ++ post)%string with (m ++ post)%string.
    rewrite exec_eq. destruct (VersionPattern.match_here _); congruence.
  - change ((String c pre ++ m ++ post)%string)
      with (String c (pre ++ m ++ post)%string).
    rewrite exec_eq.
    destruct (VersionPattern.match_here _); [discriminate|exact IH].
Qed.

Lemma match_here_sound (s d1 d2 d3 : string) :
  VersionPattern.match_here s = Some (d1, d2, d3) ->
  exists m post, VersionPattern.matches m /\ s = (m ++ post)%string.
Proof.
  unfold VersionPattern.match_here.
  destruct s as [|c s]; [discriminate|].
  destruct (ascii_dec c "v") as [->|Hc].
  2: { destruct c as [[] [] [] [] [] [] [] []]; try discriminate. congruence. }
  pose proof (span_digits_spec s) as S1.
  destruct (JS.span_digits s) as [e1 r1]. destruct S1 as (-> & D1 & _).
  destruct e1 as [|x1 e1]; [discriminate|].
  destruct r1 as [|c1 r2]; [discriminate|].
  destruct (ascii_dec c1 ".") as [->|Hc1].
  2: { destruct c1 as [[] [] [] [] [] [] [] []]; try discriminate. congruence. }
  pose proof (span_digits_spec r2) as S2.
  destruct (JS.span_digits r2) as [e2 r3]. destruct S2 as (-> & D2 & _).
  destruct e2 as [|x2 e2]; [discriminate|].
  destruct r3 as [|c2 r4]; [discriminate|].
  destruct (ascii_dec c2 ".") as [->|Hc2].
  2: { destruct c2 as [[] [] [] [] [] [] [] []]; try discriminate. congruence. }
  pose proof (span_digits_spec r4) as S3.
  destruct (JS.span_digits r4) as [e3 r5]. destruct S3 as (-> & D3 & _).
  destruct e3 as [|x3 e3]; [discriminate|].
  intros _.
  exists ("v" ++ String x1 e1 ++ "." ++ String x2 e2 ++ "." ++ String x3 e3)%string, r5.
  split.
  - exists (String x1 e1), (String x2 e2), (String x3 e3).
    repeat split; auto; discriminate.
  - simpl. f_equal. f_equal.
    rewrite !append_assoc. simpl. f_equal. f_equal. f_equal.
    rewrite !append_assoc. reflexivity.
Qed.

Lemma exec_sound (s : string) :
  VersionPattern.exec s <> None -> VersionPattern.has_match s.
Proof.
  induction s as [|c s IH]; rewrite exec_eq.
  - simpl. congruence.
  - destruct (VersionPattern.match_here (String c s)) as [[[d1 d2] d3]|] eqn:E.
    + intros _. destruct (match_here_sound _ _ _ _ E) as (m & post & Hm & Hs).
      exists EmptyString, m, post. split; [assumption|]. simpl. exact Hs.
    + intro H. destruct (IH H) as (pre & m & post & Hm & ->).
      exists (String c pre), m, post. split; [assumption|reflexivity].
Qed.

(** [match] finds nothing exactly in the labels that hold no substring of
    the shape [vX.Y.Z]. *)
Lemma exec_None_iff (s : string) :
  VersionPattern.exec s = None <-> ~ VersionPattern.has_match s.
Proof.
  split.
  - intros H Hm. now apply (exec_complete s Hm).
  - intro H. destruct (VersionPattern.exec s) eqn:E; [|reflexivity].
    exfalso. apply H, exec_sound. congruence.
Qed.






(** ** Failures of the similarity search *)

Lemma findSimilarFiles_swallows (file : FileUpload.File)
  (organizationId : string) (fileAnalysis : FileUpload.FileAnalysis)
  (w : Blink.World) :
  let run := AISimilarityService.findSimilarFiles file organizationId
               fileAnalysis w in
  Blink.rejected (snd run) <> Blink.rejected w -> fst run = Blink.Return [].
Proof.
  unfold AISimilarityService.findSimilarFiles, Blink.try_catch, Blink.bind,
    Blink.files_list, Blink.ai_generateObject, Blink.remote, Blink.ret,
    Blink.reject.
  destruct w as [fs fvs al ai flt rej cnt cbs]. simpl.
  destruct flt as [|[|] flt]; simpl.
  - destruct (List.length _ =? 0); simpl; [congruence|].
    destruct ai as [|object ai]; simpl; [reflexivity|congruence].
  - reflexivity.
  - destruct (List.length _ =? 0); simpl; [congruence|].
    destruct flt as [|[|] flt]; simpl; try reflexivity;
      (destruct ai as [|object ai]; simpl; [reflexivity|congruence]).
Qed.

(** The analysis that [analyzeAndFindSimilarFiles] returns next to the empty
    list when a call is rejected. *)
Lemma analyzeAndFindSimilarFiles_swallows (organizationId : string)
  (file : FileUpload.File) (w : Blink.World) :
  let run := FileUpload.analyzeAndFindSimilarFiles organizationId file w in
  Blink.rejected (snd run) <> Blink.rejected w ->
  fst run
  = Blink.Return
      ({| FileUpload.contentType := "File";
          FileUpload.keyTerms := [FileUpload.name file];
          FileUpload.documentPurpose := "Document file";
          FileUpload.suggestedCategory := "general";
          FileUpload.extractedMetadata := [] |}, []).
Proof.
  unfold FileUpload.analyzeAndFindSimilarFiles, Blink.try_catch, Blink.bind,
    Blink.files_list, Blink.remote, Blink.ret, Blink.reject.
  destruct w as [fs fvs al ai flt rej cnt cbs]. simpl.
  destruct flt as [|[|] flt]; simpl; congruence.
Qed.

(** The analysis that [analyzeAndFindSimilarFiles] returns when its call is
    answered. *)
Lemma analyzeAndFindSimilarFiles_builds (organizationId : string)
  (file : FileUpload.File) (w : Blink.World) :
  let run := FileUpload.analyzeAndFindSimilarFiles organizationId file w in
  Blink.rejected (snd run) = Blink.rejected w ->
  exists similarFiles,
    fst run = Blink.Return (Analyses.built file, similarFiles).
Proof.
  unfold FileUpload.analyzeAndFindSimilarFiles, Blink.try_catch, Blink.bind,
    Blink.files_list, Blink.remote, Blink.ret, Blink.reject.
  destruct w as [fs fvs al ai flt rej cnt cbs]. simpl.
  destruct flt as [|[|] flt]; simpl; intros H.
  - eexists. reflexivity.
  - exfalso. lia.
  - eexists. reflexivity.
Qed.

(** The two analyses are never the same. *)
Lemma built_is_not_fallback (file : FileUpload.File) :
  Analyses.built file <> Analyses.fallback file.
Proof.
  intros E. apply (f_equal FileUpload.documentPurpose) in E.
  unfold Analyses.built, Analyses.fallback, FileUpload.contentTypeOf in E.
  simpl in E.
  destruct (JS.includes "pdf" (FileUpload.type file)); [discriminate|].
  destruct (JS.startsWith "image/" (FileUpload.type file)); [discriminate|].
  destruct (JS.includes "document" (FileUpload.type file)); discriminate.
Qed.

(** C6.  When a remote call made during the similarity search is rejected,
    both searches ([findSimilarFiles] of the service and
    [analyzeAndFindSimilarFiles] of FileUpload) catch the error and return
    an empty list of similar files.  [findSimilarFiles] returns nothing but
    the list: its result is the one it gives when nothing is rejected and
    the organization holds no file, and its caller cannot tell the two
    outcomes apart.  [analyzeAndFindSimilarFiles] returns an analysis next
    to the list: the fixed one of its [catch] after a rejection, the one
    built from the file whenever its call is answered.  The two analyses
    differ, so the result after a rejection differs from every result
    without one, and its caller can tell. *)
Theorem similarity_failure_swallowed (file : FileUpload.File)
  (organizationId : string) (fileAnalysis : FileUpload.FileAnalysis)
  (w : Blink.World) :
  let service w :=
    AISimilarityService.findSimilarFiles file organizationId fileAnalysis w in
  let upload w :=
    FileUpload.analyzeAndFindSimilarFiles organizationId file w in
  (Blink.rejected (snd (service w)) <> Blink.rejected w ->
   fst (service w) = Blink.Return [] /\
   fst (service Examples.quiet_world) = fst (service w) /\
   Blink.rejected (snd (service Examples.quiet_world))
   = Blink.rejected Examples.quiet_world) /\
  (Blink.rejected (snd (upload w)) <> Blink.rejected w ->
   fst (upload w) = Blink.Return (Analyses.fallback file, []) /\
   fst (upload Examples.quiet_world)
   = Blink.Return (Analyses.built file, []) /\
   Blink.rejected (snd (upload Examples.quiet_world))
   = Blink.rejected Examples.quiet_world /\
   forall w0 : Blink.World,
     Blink.rejected (snd (upload w0)) = Blink.rejected w0 ->
     (exists similarFiles,
         fst (upload w0) = Blink.Return (Analyses.built file, similarFiles)) /\
     fst (upload w0) <> fst (upload w)).
Proof.
  intros service upload. split; intro H.
  - pose proof (findSimilarFiles_swallows file organizationId fileAnalysis w H)
      as E.
    unfold service. rewrite E. repeat split; reflexivity.
  - pose proof (analyzeAndFindSimilarFiles_swallows organizationId file w H)
      as E.
    split; [exact E|]. split; [reflexivity|]. split; [reflexivity|].
    intros w0 H0.
    destruct (analyzeAndFindSimilarFiles_builds organizationId file w0 H0)
      as [similarFiles E0].
    split; [exists similarFiles; exact E0|].
    change (fst (upload w) = Blink.Return (Analyses.fallback file, [])) in E.
    change (fst (upload w0)
            = Blink.Return (Analyses.built file, similarFiles)) in E0.
    rewrite E0, E. intros F.
    apply (built_is_not_fallback file). congruence.
Qed.

Lemma similarity_failure_swallowed_witness :
  fst (AISimilarityService.findSimilarFiles Examples.manual_upload "org_sample"
         Examples.manual_analysis Examples.offline_world) = Blink.Return [] /\
  fst (FileUpload.analyzeAndFindSimilarFiles "org_sample"
         Examples.manual_upload Examples.offline_world)
  = Blink.Return (Analyses.fallback Examples.manual_upload, []).
Proof.
  destruct (similarity_failure_swallowed Examples.manual_upload "org_sample"
              Examples.manual_analysis Examples.offline_world) as [Hs Hu].
  split.
  - apply Hs. vm_compute. discriminate.
  - apply Hu. vm_compute. discriminate.
Defined.

(** The upload of Manual.pdf to an organization without files, once with
    the call to the store rejected and once with it answered: the list of
    similar files is empty both times, and the two results differ in the
    analysis. *)
Lemma similarity_failure_told_apart :
  fst (FileUpload.analyzeAndFindSimilarFiles "org_sample"
         Examples.manual_upload
         (Examples.world_of [] [] [true] false))
  = Blink.Return
      ({| FileUpload.contentType := "File";
          FileUpload.keyTerms := ["Manual.pdf"];
          FileUpload.documentPurpose := "Document file";
          FileUpload.suggestedCategory := "general";
          FileUpload.extractedMetadata := [] |}, []) /\
  fst (FileUpload.analyzeAndFindSimilarFiles "org_sample"
         Examples.manual_upload Examples.quiet_world)
  = Blink.Return
      ({| FileUpload.contentType := "PDF Document";
          FileUpload.keyTerms := ["Manual"];
          FileUpload.documentPurpose := "PDF Document for organization";
          FileUpload.suggestedCategory := "general";
          FileUpload.extractedMetadata :=
            [("fileName", JS.Str "Manual.pdf");
             ("fileSize", JS.Num (JS.of_N 3));
             ("fileType", JS.Str "application/pdf")] |}, []) /\
  fst (FileUpload.analyzeAndFindSimilarFiles "org_sample"
         Examples.manual_upload
         (Examples.world_of [] [] [true] false))
  <> fst (FileUpload.analyzeAndFindSimilarFiles "org_sample"
            Examples.manual_upload Examples.quiet_world).
Proof.
  split; [reflexivity|]. split; [reflexivity|]. discriminate.
Qed.

(** ** Restoring a version *)

(** *** Lists kept in step with the store *)

Lemma insert_sorted_map {X Y : Type} (g : X -> Y) (before : Y -> Y -> bool)
  (x : X) (l : list X) :
  JS.insert_sorted before (g x) (map g l)
  = map g (JS.insert_sorted (fun a b => before (g a) (g b)) x l).
Proof.
  induction l as [|y l IH]; simpl; [reflexivity|].
  destruct (before (g y) (g x)); simpl; [now rewrite IH|reflexivity].
Qed.

Lemma sort_by_map {X Y : Type} (g : X -> Y) (before : Y -> Y -> bool)
  (l : list X) :
  JS.sort_by before (map g l)
  = map g (JS.sort_by (fun a b => before (g a) (g b)) l).
Proof.
  induction l as [|x l IH]; simpl; [reflexivity|].
  rewrite IH. apply insert_sorted_map.
Qed.

Lemma filter_map_same {X : Type} (g : X -> X) (p : X -> bool) (l : list X) :
  (forall x, p (g x) = p x) ->
  filter p (map g l) = map g (filter p l).
Proof.
  intro H. induction l as [|x l IH]; simpl; [reflexivity|].
  rewrite H. destruct (p x); simpl; now rewrite IH.
Qed.

Lemma sort_by_ext {X : Type} (b1 b2 : X -> X -> bool) (l : list X) :
  (forall x y, b1 x y = b2 x y) -> JS.sort_by b1 l = JS.sort_by b2 l.
Proof.
  intro H. induction l as [|x l IH]; simpl; [reflexivity|].
  rewrite IH. generalize (JS.sort_by b2 l). intro s.
  induction s as [|y s IHs]; simpl; [reflexivity|].
  now rewrite H, IHs.
Qed.

(** A change of the rows that the query does not look at passes through
    [list]. *)
Lemma select_map {R : Type} (g : R -> R) (where_ : R -> bool)
  (before : R -> R -> bool) (table : list R) :
  (forall r, where_ (g r) = where_ r) ->
  (forall a b, before (g a) (g b) = before a b) ->
  Blink.select where_ (Some before) None (map g table)
  = map g (Blink.select where_ (Some before) None table).
Proof.
  intros Hw Hb. unfold Blink.select.
  rewrite filter_map_same by assumption. rewrite sort_by_map.
  f_equal. apply sort_by_ext. assumption.
Qed.

Lemma in_select {R : Type} (where_ : R -> bool)
  (before : R -> R -> bool) (table : list R) (r : R) :
  In r (Blink.select where_ (Some before) None table)
  <-> In r table /\ where_ r = true.
Proof.
  unfold Blink.select. rewrite <- filter_In.
  split; apply Permutation_in; [|symmetry]; apply sort_by_perm.
Qed.

(** *** First occurrences *)

Lemma findIndex_Some_nth {X : Type} (p : X -> bool) (a : list X) (i : nat) :
  JS.findIndex p a = Some i ->
  exists y, nth_error a i = Some y /\ p y = true.
Proof.
  revert i. induction a as [|x a IH]; intros i H; simpl in H; [discriminate|].
  destruct (p x) eqn:Hx.
  - inversion H; subst. exists x. split; [reflexivity|assumption].
  - destruct (JS.findIndex p a) as [k|]; [|discriminate].
    inversion H; subst. simpl. apply IH. reflexivity.
Qed.

Lemma findIndex_app {X : Type} (p : X -> bool) (l1 l2 : list X) (x : X) :
  In x l1 -> p x = true ->
  exists i, JS.findIndex p (l1 ++ l2) = Some i /\ i < List.length l1.
Proof.
  induction l1 as [|y l1 IH]; intros Hin Hp; [destruct Hin|].
  simpl. destruct (p y) eqn:Hy.
  - exists 0. split; [reflexivity|lia].
  - destruct Hin as [->|Hin]; [congruence|].
    destruct (IH Hin Hp) as (i & -> & Hi). exists (S i). split; [reflexivity|lia].
Qed.

Lemma in_combine_seq {X : Type} (a : list X) (k i : nat) (y : X) :
  In (i, y) (combine (seq k (List.length a)) a)
  <-> k <= i /\ nth_error a (i - k) = Some y.
Proof.
  revert k. induction a as [|x a IH]; intro k; simpl.
  - split; [intros []|]. intros [_ H]. destruct (i - k); discriminate.
  - rewrite IH. split.
    + intros [H|[Hk H]].
      * inversion H; subst. rewrite Nat.sub_diag. split; [lia|reflexivity].
      * split; [lia|]. replace (i - k) with (S (i - S k)) by lia. exact H.
    + intros [Hk H]. destruct (Nat.eq_dec i k) as [->|Hne].
      * rewrite Nat.sub_diag in H. simpl in H. left. congruence.
      * right. split; [lia|]. replace (i - k) with (S (i - S k)) in H by lia.
        exact H.
Qed.

Lemma in_filter_indexed {X : Type} (p : X -> nat -> list X -> bool)
  (a : list X) (y : X) :
  In y (JS.filter_indexed p a)
  <-> exists i, nth_error a i = Some y /\ p y i a = true.
Proof.
  unfold JS.filter_indexed. rewrite in_map_iff. split.
  - intros ([i x] & E & Hin). simpl in E. subst x.
    apply filter_In in Hin as [Hin Hp]. apply in_combine_seq in Hin as [_ Hn].
    rewrite Nat.sub_0_r in Hn. eauto.
  - intros (i & Hn & Hp). exists (i, y). split; [reflexivity|].
    apply filter_In. split; [|exact Hp].
    apply in_combine_seq. rewrite Nat.sub_0_r. split; [lia|exact Hn].
Qed.

Lemma mergeVersions_listed (getTime : string -> option Z)
  (fileVersions : list Blink.FileVersionRow)
  (originalFile : list Blink.FileRow) :
  VersionHistory.mergeVersions getTime fileVersions originalFile
  = JS.sort_by (VersionHistory.newer getTime)
      (JS.filter_indexed
         (fun version index self =>
            match JS.findIndex
                    (fun v => (VersionHistory.id v
                               =? VersionHistory.id version)%string) self
            with
            | Some first => index =? first
            | None => false
            end)
         (VersionHistory.listed fileVersions originalFile)).
Proof. reflexivity. Qed.

Lemma in_mergeVersions (getTime : string -> option Z)
  (fileVersions : list Blink.FileVersionRow)
  (originalFile : list Blink.FileRow) (y : VersionHistory.FileVersion) :
  In y (VersionHistory.mergeVersions getTime fileVersions originalFile)
  <-> exists i,
        nth_error (VersionHistory.listed fileVersions originalFile) i = Some y /\
        JS.findIndex
          (fun v => (VersionHistory.id v =? VersionHistory.id y)%string)
          (VersionHistory.listed fileVersions originalFile) = Some i.
Proof.
  rewrite mergeVersions_listed. split.
  - intro H. apply (Permutation_in _ (sort_by_perm _ _)) in H.
    apply in_filter_indexed in H as (i & Hn & Hp). exists i. split; [exact Hn|].
    destruct (JS.findIndex _ _) as [k|]; [|discriminate].
    apply Nat.eqb_eq in Hp. congruence.
  - intros (i & Hn & Hf).
    apply (Permutation_in _ (Permutation_sym (sort_by_perm _ _))).
    apply in_filter_indexed. exists i. split; [exact Hn|].
    rewrite Hf. apply Nat.eqb_refl.
Qed.

(** A version that comes from [fileVersions] is in the merged list, or
    another row of [fileVersions] with the same id is. *)
Lemma mergeVersions_keeps_version (getTime : string -> option Z)
  (fileVersions : list Blink.FileVersionRow)
  (originalFile : list Blink.FileRow) (r : Blink.FileVersionRow) :
  In r fileVersions ->
  exists r',
    In r' fileVersions /\ Blink.fv_id r' = Blink.fv_id r /\
    In (VersionHistory.of_version r')
       (VersionHistory.mergeVersions getTime fileVersions originalFile).
Proof.
  intro Hr.
  destruct (findIndex_app
              (fun v => (VersionHistory.id v
                         =? VersionHistory.id (VersionHistory.of_version r))%string)
              (map VersionHistory.of_version fileVersions)
              (map VersionHistory.of_file originalFile)
              (VersionHistory.of_version r))
    as (i & Hf & Hi).
  { apply in_map. exact Hr. }
  { apply String.eqb_refl. }
  destruct (findIndex_Some_nth _ _ _ Hf) as (y & Hn & Hy).
  apply String.eqb_eq in Hy.
  fold (VersionHistory.listed fileVersions originalFile) in Hf, Hn.
  assert (Hy' : In y (map VersionHistory.of_version fileVersions)).
  { unfold VersionHistory.listed in Hn. rewrite nth_error_app1 in Hn by exact Hi.
    eapply nth_error_In. exact Hn. }
  apply in_map_iff in Hy' as (r' & <- & Hr').
  exists r'. split; [exact Hr'|]. split; [exact Hy|].
  apply in_mergeVersions. exists i. split; [exact Hn|].
  rewrite <- Hf. f_equal.
  change (VersionHistory.id (VersionHistory.of_version r')) with (Blink.fv_id r').
  change (VersionHistory.id (VersionHistory.of_version r')) with (Blink.fv_id r') in Hy.
  simpl in Hy. simpl. rewrite Hy. reflexivity.
Qed.

(** *** What a restore does to a store that answers every call *)

Lemma table_update_map {R : Type} (key : R -> string) (id : string)
  (fields : R -> R) (table : list R) :
  match Blink.table_update key id fields table with
  | Some table' => table'
  | None => table
  end
  = map (fun r => if (key r =? id)%string then fields r else r) table.
Proof.
  unfold Blink.table_update.
  destruct (existsb _ table) eqn:E; [reflexivity|].
  induction table as [|r table IH]; simpl in *; [reflexivity|].
  apply orb_false_iff in E as [Er Et]. rewrite Er. f_equal. auto.
Qed.

Lemma fileVersions_update_answers (id : string)
  (fields : Blink.FileVersionRow -> Blink.FileVersionRow) (w : Blink.World) :
  Blink.answers w ->
  Blink.fileVersions_update id fields w
  = (Blink.Return tt,
     Blink.set_fileVersions
       (map (fun r => if (Blink.fv_id r =? id)%string then fields r else r)
            (Blink.fileVersions w)) w).
Proof.
  intros [Hf Hu]. unfold Blink.fileVersions_update, Blink.remote.
  rewrite Hf, Hu, <- table_update_map.
  destruct (Blink.table_update _ _ _ _); [reflexivity|].
  destruct w; reflexivity.
Qed.

Lemma files_update_answers (id : string)
  (fields : Blink.FileRow -> Blink.FileRow) (w : Blink.World) :
  Blink.answers w ->
  Blink.files_update id fields w
  = (Blink.Return tt,
     Blink.set_files
       (map (fun r => if (Blink.f_id r =? id)%string then fields r else r)
            (Blink.files w)) w).
Proof.
  intros [Hf Hu]. unfold Blink.files_update, Blink.remote.
  rewrite Hf, Hu, <- table_update_map.
  destruct (Blink.table_update _ _ _ _); [reflexivity|].
  destruct w; reflexivity.
Qed.

Lemma promise_all_answers (vs : list VersionHistory.FileVersion)
  (w : Blink.World) :
  Blink.answers w ->
  Blink.promise_all
    (map (fun v => Blink.fileVersions_update (VersionHistory.id v)
                     (VersionHistory.set_is_current "0")) vs) w
  = (Blink.Return (map (fun _ => tt) vs),
     Blink.set_fileVersions (map (VersionHistory.cleared vs) (Blink.fileVersions w)) w).
Proof.
  revert w. induction vs as [|v vs IH]; intros w Hw; simpl.
  - unfold VersionHistory.cleared. simpl. rewrite map_id. destruct w; reflexivity.
  - rewrite (fileVersions_update_answers _ _ w Hw).
    rewrite IH by (destruct Hw; split; assumption).
    simpl. rewrite map_map. destruct w; reflexivity.
Qed.

Lemma cleared_id vs r : Blink.fv_id (VersionHistory.cleared vs r) = Blink.fv_id r.
Proof.
  revert r. induction vs as [|v vs IH]; intro r; [reflexivity|].
  unfold VersionHistory.cleared in *. simpl. rewrite IH. destruct (_ =? _)%string; reflexivity.
Qed.

Lemma cleared_file_id vs r :
  Blink.fv_file_id (VersionHistory.cleared vs r) = Blink.fv_file_id r.
Proof.
  revert r. induction vs as [|v vs IH]; intro r; [reflexivity|].
  unfold VersionHistory.cleared in *. simpl. rewrite IH. destruct (_ =? _)%string; reflexivity.
Qed.

Lemma cleared_created_at vs r :
  Blink.fv_created_at (VersionHistory.cleared vs r) = Blink.fv_created_at r.
Proof.
  revert r. induction vs as [|v vs IH]; intro r; [reflexivity|].
  unfold VersionHistory.cleared in *. simpl. rewrite IH. destruct (_ =? _)%string; reflexivity.
Qed.

Lemma cleared_of_cleared vs r :
  Blink.fv_is_current r = "0" -> Blink.fv_is_current (VersionHistory.cleared vs r) = "0".
Proof.
  revert r. induction vs as [|v vs IH]; intros r H; [exact H|].
  unfold VersionHistory.cleared in *. simpl. apply IH. destruct (_ =? _)%string; [reflexivity|exact H].
Qed.

Lemma cleared_is_current vs r :
  In (Blink.fv_id r) (map VersionHistory.id vs) ->
  Blink.fv_is_current (VersionHistory.cleared vs r) = "0".
Proof.
  revert r. induction vs as [|v vs IH]; intros r H; [destruct H|].
  unfold VersionHistory.cleared in *. simpl in *.
  destruct (String.eqb_spec (Blink.fv_id r) (VersionHistory.id v)) as [E|E].
  - apply (cleared_of_cleared vs). reflexivity.
  - apply IH. destruct H as [H|H]; [congruence|exact H].
Qed.

Lemma loadVersions_answers (getTime : string -> option Z) (fileId : string)
  (st : VersionHistory.State) (w : Blink.World) :
  Blink.answers w ->
  VersionHistory.loadVersions getTime fileId st w
  = (Blink.Return
       (VersionHistory.setLoading false
          (VersionHistory.setVersions (VersionHistory.shown getTime fileId w)
             (VersionHistory.setLoading true st))), w).
Proof.
  intros [Hf _]. destruct w as [fs fvs al ai flt rej cnt cbs].
  simpl in Hf. subst flt. reflexivity.
Qed.

Lemma handleRestore_answers (fileId : string) (st : VersionHistory.State)
  (now : N) (nowISO : string) (version : VersionHistory.FileVersion)
  (w : Blink.World) :
  Blink.answers w ->
    VersionHistory.handleRestore fileId true st now nowISO version w
    = (Blink.Return tt,
       {| Blink.files := map (VersionHistory.restored_file fileId version nowISO) (Blink.files w);
          Blink.fileVersions :=
            map (VersionHistory.restored_version (VersionHistory.versions st) version)
                (Blink.fileVersions w);
          Blink.activityLog :=
            Blink.activityLog w
              ++ [{| Blink.a_id := "activity_" ++ JS.string_of_N now;
                     Blink.a_organization_id := "org_sample";
                     Blink.a_file_id := fileId;
                     Blink.a_user_id :=
                       VersionHistory.user_or_unknown
                         (VersionHistory.currentUser st);
                     Blink.a_action := "restore";
                     Blink.a_details :=
                       "Restored to version "
                         ++ VersionHistory.version_label version |}]%string;
          Blink.ai_objects := Blink.ai_objects w;
          Blink.faults := [];
          Blink.update_rejects_unknown_id := false;
          Blink.rejected := Blink.rejected w;
          Blink.callbacks :=
            Blink.callbacks w
              ++ [Blink.OnRestore (VersionHistory.id version); Blink.OnClose] |}).
Proof.
  intros Hw.
  unfold VersionHistory.handleRestore.
  change (negb true) with false. cbv iota.
  unfold Blink.try_catch, Blink.bind. cbv beta.
  rewrite promise_all_answers by exact Hw. cbv beta iota.
  rewrite fileVersions_update_answers
    by (destruct Hw; split; assumption). cbv beta iota.
  rewrite files_update_answers by (destruct Hw; split; assumption).
  cbv beta iota.
  destruct Hw as [Hf Hu]. destruct w as [fs fvs al ai flt rej cnt cbs].
  simpl in Hf, Hu. subst flt rej.
  unfold Blink.activityLog_create, Blink.remote, Blink.call_back. simpl.
  rewrite map_map, <- app_assoc. reflexivity.
Qed.

Lemma restored_version_keeps vs version r :
  Blink.fv_id (VersionHistory.restored_version vs version r) = Blink.fv_id r /\
  Blink.fv_file_id (VersionHistory.restored_version vs version r) = Blink.fv_file_id r /\
  Blink.fv_created_at (VersionHistory.restored_version vs version r) = Blink.fv_created_at r.
Proof.
  unfold VersionHistory.restored_version.
  destruct (_ =? _)%string; simpl;
    rewrite cleared_id, cleared_file_id, cleared_created_at; auto.
Qed.

Lemma restored_version_is_current vs version r :
  In (Blink.fv_id r) (map VersionHistory.id vs) ->
  Blink.fv_is_current (VersionHistory.restored_version vs version r)
  = if (Blink.fv_id r =? VersionHistory.id version)%string then "1" else "0".
Proof.
  intro H. unfold VersionHistory.restored_version. rewrite cleared_id.
  destruct (_ =? _)%string; [reflexivity|]. now apply cleared_is_current.
Qed.

Lemma restored_file_keeps fileId version nowISO f :
  Blink.f_id (VersionHistory.restored_file fileId version nowISO f) = Blink.f_id f /\
  Blink.f_parent_file_id (VersionHistory.restored_file fileId version nowISO f)
  = Blink.f_parent_file_id f /\
  Blink.f_created_at (VersionHistory.restored_file fileId version nowISO f)
  = Blink.f_created_at f /\
  Blink.f_is_latest_version (VersionHistory.restored_file fileId version nowISO f)
  = Blink.f_is_latest_version f.
Proof.
  unfold VersionHistory.restored_file. destruct (_ =? _)%string; simpl; auto.
Qed.

(** The store after a restore, as [loadVersions] lists it. *)
Lemma shown_after_restore (getTime : string -> option Z) (fileId : string)
  (st : VersionHistory.State) (now : N) (nowISO : string)
  (version : VersionHistory.FileVersion) (w : Blink.World) :
  Blink.answers w ->
  VersionHistory.shown getTime fileId
    (snd (VersionHistory.handleRestore fileId true st now nowISO version w))
  = VersionHistory.mergeVersions getTime
      (map (VersionHistory.restored_version (VersionHistory.versions st) version)
         (Blink.select (VersionHistory.of_file_id fileId)
            (Some Blink.fv_created_at_desc) None (Blink.fileVersions w)))
      (map (VersionHistory.restored_file fileId version nowISO)
         (Blink.select (VersionHistory.of_lineage fileId)
            (Some Blink.created_at_desc) None (Blink.files w))).
Proof.
  intro Hw. rewrite (handleRestore_answers _ _ _ _ _ _ Hw).
  unfold VersionHistory.shown. simpl. f_equal.
  - apply select_map.
    + intro r. unfold VersionHistory.of_file_id.
      now destruct (restored_version_keeps (VersionHistory.versions st) version r)
        as (_ & -> & _).
    + intros a b. unfold Blink.fv_created_at_desc.
      destruct (restored_version_keeps (VersionHistory.versions st) version a)
        as (_ & _ & ->).
      destruct (restored_version_keeps (VersionHistory.versions st) version b)
        as (_ & _ & ->).
      reflexivity.
  - apply select_map.
    + intro f. unfold VersionHistory.of_lineage.
      destruct (restored_file_keeps fileId version nowISO f) as (-> & -> & _).
      reflexivity.
    + intros a b. unfold Blink.created_at_desc.
      destruct (restored_file_keeps fileId version nowISO a) as (_ & _ & -> & _).
      destruct (restored_file_keeps fileId version nowISO b) as (_ & _ & -> & _).
      reflexivity.
Qed.

(** X21.  Where the restore does what it is meant to: in a world that
    answers, when none of the file rows of the lineage is marked latest,
    restoring a version that comes from [fileVersions] leaves that version,
    and no other, current in the history, and gives its label to the root
    file. *)
Lemma restore_when_no_file_is_latest (getTime : string -> option Z)
  (fileId : string) (st : VersionHistory.State) (now : N) (nowISO : string)
  (w : Blink.World) (r1 : Blink.FileVersionRow) :
  Blink.answers w ->
  VersionHistory.versions st = VersionHistory.shown getTime fileId w ->
  In r1 (Blink.fileVersions w) ->
  Blink.fv_file_id r1 = fileId ->
  (forall f, In f (Blink.files w) -> VersionHistory.of_lineage fileId f = true ->
             Blink.f_is_latest_version f <> "1") ->
  let V1 := VersionHistory.of_version r1 in
  let w' := snd (VersionHistory.handleRestore fileId true st now nowISO V1 w) in
  let after := VersionHistory.shown getTime fileId w' in
  Blink.callbacks w'
  = Blink.callbacks w ++ [Blink.OnRestore (VersionHistory.id V1); Blink.OnClose] /\
  (exists u, In u after /\ VersionHistory.id u = VersionHistory.id V1 /\
             VersionHistory.is_current u = "1") /\
  (forall u, In u after -> VersionHistory.is_current u = "1" ->
             VersionHistory.id u = VersionHistory.id V1) /\
  NoDup (map VersionHistory.id after) /\
  (forall f, In f (Blink.files w') -> Blink.f_id f = fileId ->
             Blink.f_version_label f = VersionHistory.version_label V1).
Proof.
  intros Hw Hst Hr1 Hfile Hlatest V1 w' after.
  set (L := Blink.select (VersionHistory.of_file_id fileId)
              (Some Blink.fv_created_at_desc) None (Blink.fileVersions w)).
  set (Lf := Blink.select (VersionHistory.of_lineage fileId)
               (Some Blink.created_at_desc) None (Blink.files w)).
  assert (Hafter : after
            = VersionHistory.mergeVersions getTime
                (map (VersionHistory.restored_version (VersionHistory.versions st) V1) L)
                (map (VersionHistory.restored_file fileId V1 nowISO) Lf))
    by (apply shown_after_restore; exact Hw).
  assert (Hloaded : forall r, In r L ->
            In (Blink.fv_id r) (map VersionHistory.id (VersionHistory.versions st))).
  { intros r Hr. rewrite Hst. unfold VersionHistory.shown. fold L Lf.
    destruct (mergeVersions_keeps_version getTime L Lf r Hr)
      as (r' & _ & Hid & Hin).
    apply in_map_iff. exists (VersionHistory.of_version r'). split; [exact Hid|exact Hin]. }
  assert (Hr1L : In r1 L).
  { apply in_select. split; [exact Hr1|].
    unfold VersionHistory.of_file_id. apply String.eqb_eq. exact Hfile. }
  split; [|split; [|split; [|split]]].
  - unfold w'. rewrite (handleRestore_answers _ _ _ _ _ _ Hw). reflexivity.
  - destruct (mergeVersions_keeps_version getTime
                (map (VersionHistory.restored_version (VersionHistory.versions st) V1) L)
                (map (VersionHistory.restored_file fileId V1 nowISO) Lf)
                (VersionHistory.restored_version (VersionHistory.versions st) V1 r1))
      as (r' & Hr' & Hid & Hin).
    { apply in_map. exact Hr1L. }
    apply in_map_iff in Hr' as (r0 & <- & Hr0).
    destruct (restored_version_keeps (VersionHistory.versions st) V1 r0) as (E0 & _).
    destruct (restored_version_keeps (VersionHistory.versions st) V1 r1) as (E1 & _).
    rewrite E0, E1 in Hid.
    exists (VersionHistory.of_version
              (VersionHistory.restored_version (VersionHistory.versions st) V1 r0)).
    rewrite Hafter. split; [exact Hin|]. split.
    + simpl. rewrite E0. exact Hid.
    + simpl. rewrite restored_version_is_current by (apply Hloaded; exact Hr0).
      simpl. rewrite Hid, String.eqb_refl. reflexivity.
  - intros u Hu Hcur. rewrite Hafter in Hu.
    apply in_mergeVersions in Hu as (i & Hn & _).
    apply nth_error_In in Hn. unfold VersionHistory.listed in Hn.
    apply in_app_iff in Hn as [Hn|Hn].
    + apply in_map_iff in Hn as (r' & <- & Hr').
      apply in_map_iff in Hr' as (r0 & <- & Hr0).
      destruct (restored_version_keeps (VersionHistory.versions st) V1 r0) as (E0 & _).
      simpl in *. rewrite E0.
      rewrite restored_version_is_current in Hcur by (apply Hloaded; exact Hr0).
      simpl in Hcur.
      destruct (String.eqb_spec (Blink.fv_id r0) (Blink.fv_id r1)); [assumption|discriminate].
    + apply in_map_iff in Hn as (f' & <- & Hf').
      apply in_map_iff in Hf' as (f0 & <- & Hf0).
      apply in_select in Hf0 as [Hf0 Hlin].
      destruct (restored_file_keeps fileId V1 nowISO f0) as (_ & _ & _ & E).
      simpl in Hcur. rewrite E in Hcur.
      exfalso. exact (Hlatest f0 Hf0 Hlin Hcur).
  - rewrite Hafter. apply merged_ids_NoDup.
  - intros f Hf Hid. unfold w' in Hf.
    rewrite (handleRestore_answers _ _ _ _ _ _ Hw) in Hf. simpl in Hf.
    apply in_map_iff in Hf as (f0 & <- & _).
    unfold VersionHistory.restored_file in *.
    destruct (String.eqb_spec (Blink.f_id f0) fileId) as [E|E].
    + reflexivity.
    + contradiction.
Qed.



Ltac split_dates getTime :=
  repeat match goal with
         | |- context [getTime ?s] => destruct (getTime s)
         | |- context [(?a <? ?b)%Z] => destruct (a <? b)%Z
         end.

(** C1.  Restoring an earlier version from the history of a dashboard
    file.  The loaded versions are [V1] (a row of [fileVersions], not
    current) and [V2] (the file itself, current).  When the store ignores
    an update of an id it does not hold, [handleRestore] runs to its end
    and the root file takes the label of [V1], but the history then shows
    two current versions, not one: the flag of [V2] is column
    [is_latest_version] of table [files], which the handler never writes.
    When the store rejects such an update the handler stops at
    [Promise.all] and calls neither [onRestore] nor [onClose]. *)
Theorem restore_leaves_two_current (getTime : string -> option Z) :
  let loaded := VersionHistory.versions
                  (Scenario.state_after (Scenario.opened getTime false)) in
  let after := VersionHistory.versions
                 (Scenario.state_after (Scenario.reopened getTime false)) in
  (In Scenario.V1 loaded /\ In Scenario.V2 loaded /\
   VersionHistory.is_current Scenario.V1 = "0" /\
   VersionHistory.is_current Scenario.V2 = "1") /\
  Blink.callbacks (snd (Scenario.restored getTime false))
  = [Blink.OnRestore "version_1"; Blink.OnClose] /\
  Scenario.count_current after = 2 /\
  map Blink.f_version_label (Blink.files (snd (Scenario.restored getTime false)))
  = [VersionHistory.version_label Scenario.V1] /\
  Blink.callbacks (snd (Scenario.restored getTime true)) = [] /\
  Blink.rejected (snd (Scenario.restored getTime true)) = 1.
Proof.
  cbv -[Z.ltb]. split_dates getTime; vm_compute; repeat split; auto.
Qed.

(* ===================================================================== *)
(** * Part III. Further properties                                        *)
(* ===================================================================== *)

(** ** The distance as a metric *)

Section DistanceFacts.

Variable char : Type.
Variable char_eq_dec : forall a b : char, {a = b} + {a <> b}.

Local Abbreviation edits := (Levenshtein.edits char).
Local Abbreviation lev := (Levenshtein.editDistance char char_eq_dec).

(** A script of cost 0 changes nothing. *)
Lemma edits_zero (s t : list char) (n : nat) :
  edits s t n -> n = 0 -> s = t.
Proof.
  induction 1; intros E; try discriminate; auto.
  f_equal; auto.
Qed.

(** A script changes the length by at most its cost. *)
Lemma edits_length (s t : list char) (n : nat) :
  edits s t n ->
  List.length s <= List.length t + n /\ List.length t <= List.length s + n.
Proof.
  induction 1; simpl; lia.
Qed.

(** Substituting along the shorter string and deleting or inserting the
    rest costs the length of the longer one. *)
Lemma edits_max (s : list char) :
  forall t : list char,
    exists n, n <= Nat.max (List.length s) (List.length t) /\ edits s t n.
Proof.
  induction s as [|a s IH]; intros t.
  - exists (List.length t). split; [simpl; lia | apply edits_nil_l].
  - destruct t as [|b t].
    + exists (List.length (a :: s)). split; [simpl; lia | apply edits_nil_r].
    + destruct (IH t) as [n [Hn He]].
      exists (S n). split; [simpl; lia |].
      now apply Levenshtein.edits_subst.
Qed.

(** Scripts compose: the cost of going through [t] is at most the sum. *)
Lemma edits_trans (t u : list char) (m : nat) :
  edits t u m ->
  forall (s : list char) (n : nat), edits s t n ->
    exists k, k <= n + m /\ edits s u k.
Proof.
  induction 1 as [|a t u m H IH|a b t u m H IH|a t u m H IH|b t u m H IH];
    intros s n Hs.
  - exists n. split; [lia | exact Hs].
  - remember (a :: t) as t0 eqn:Et.
    induction Hs as [|c s t' n Hs IHs|c d s t' n Hs IHs|c s t' n Hs IHs
                     |d s t' n Hs IHs]; try discriminate.
    + injection Et as -> ->.
      destruct (IH _ _ Hs) as [k [Hk Hk']].
      exists k. split; [lia | now apply Levenshtein.edits_keep].
    + injection Et as -> ->.
      destruct (IH _ _ Hs) as [k [Hk Hk']].
      exists (S k). split; [lia | now apply Levenshtein.edits_subst].
    + destruct (IHs Et) as [k [Hk Hk']].
      exists (S k). split; [lia | now apply Levenshtein.edits_delete].
    + injection Et as -> ->.
      destruct (IH _ _ Hs) as [k [Hk Hk']].
      exists (S k). split; [lia | now apply Levenshtein.edits_insert].
  - remember (a :: t) as t0 eqn:Et.
    induction Hs as [|c s t' n Hs IHs|c d s t' n Hs IHs|c s t' n Hs IHs
                     |d s t' n Hs IHs]; try discriminate.
    + injection Et as -> ->.
      destruct (IH _ _ Hs) as [k [Hk Hk']].
      exists (S k). split; [lia | now apply Levenshtein.edits_subst].
    + injection Et as -> ->.
      destruct (IH _ _ Hs) as [k [Hk Hk']].
      exists (S k). split; [lia | now apply Levenshtein.edits_subst].
    + destruct (IHs Et) as [k [Hk Hk']].
      exists (S k). split; [lia | now apply Levenshtein.edits_delete].
    + injection Et as -> ->.
      destruct (IH _ _ Hs) as [k [Hk Hk']].
      exists (S k). split; [lia | now apply Levenshtein.edits_insert].
  - remember (a :: t) as t0 eqn:Et.
    induction Hs as [|c s t' n Hs IHs|c d s t' n Hs IHs|c s t' n Hs IHs
                     |d s t' n Hs IHs]; try discriminate.
    + injection Et as -> ->.
      destruct (IH _ _ Hs) as [k [Hk Hk']].
      exists (S k). split; [lia | now apply Levenshtein.edits_delete].
    + injection Et as -> ->.
      destruct (IH _ _ Hs) as [k [Hk Hk']].
      exists (S k). split; [lia | now apply Levenshtein.edits_delete].
    + destruct (IHs Et) as [k [Hk Hk']].
      exists (S k). split; [lia | now apply Levenshtein.edits_delete].
    + injection Et as -> ->.
      destruct (IH _ _ Hs) as [k [Hk Hk']].
      exists k. split; [lia | exact Hk'].
  - destruct (IH _ _ Hs) as [k [Hk Hk']].
    exists (S k). split; [lia | now apply Levenshtein.edits_insert].
Qed.

(** Units kept by a script occur in both strings: between strings that
    share no unit every position of the longer one is paid for. *)
Lemma edits_disjoint (s t : list char) (n : nat) :
  edits s t n ->
  (forall a, In a s -> ~ In a t) ->
  Nat.max (List.length s) (List.length t) <= n.
Proof.
  induction 1 as [|a s t n H IH|a b s t n H IH|a s t n H IH|b s t n H IH];
    intros D; cbn [List.length].
  - lia.
  - exfalso. apply (D a); simpl; auto.
  - assert (Nat.max (List.length s) (List.length t) <= n).
    { apply IH. intros c Hc Hc'. apply (D c); simpl; auto. }
    lia.
  - assert (Nat.max (List.length s) (List.length t) <= n).
    { apply IH. intros c Hc Hc'. apply (D c); simpl; auto. }
    lia.
  - assert (Nat.max (List.length s) (List.length t) <= n).
    { apply IH. intros c Hc Hc'. apply (D c); simpl; auto. }
    lia.
Qed.

Lemma editDistance_zero_iff (s t : list char) : lev s t = 0 <-> s = t.
Proof.
  split.
  - intros E. apply (edits_zero s t (lev s t)); [apply edits_editDistance | exact E].
  - intros ->. apply editDistance_self.
Qed.

Lemma editDistance_bounds (s t : list char) :
  Nat.max (List.length s) (List.length t)
    - Nat.min (List.length s) (List.length t) <= lev s t
  /\ lev s t <= Nat.max (List.length s) (List.length t).
Proof.
  split.
  - pose proof (edits_length _ _ _ (edits_editDistance char char_eq_dec s t)).
    lia.
  - destruct (edits_max s t) as [n [Hn He]].
    pose proof (editDistance_le_edits char char_eq_dec _ _ _ He). lia.
Qed.

Lemma editDistance_triangle (s t u : list char) :
  lev s u <= lev s t + lev t u.
Proof.
  destruct (edits_trans _ _ _ (edits_editDistance char char_eq_dec t u)
              _ _ (edits_editDistance char char_eq_dec s t)) as [k [Hk He]].
  pose proof (editDistance_le_edits char char_eq_dec _ _ _ He). lia.
Qed.

(** X1.  [levenshteinDistance] is a metric on strings: it is 0 exactly
    between equal strings, it is symmetric, and it obeys the triangle
    inequality. *)
Theorem levenshteinDistance_metric (s t u : list char) :
  (FileUpload.levenshteinDistance char char_eq_dec s t = 0 <-> s = t) /\
  FileUpload.levenshteinDistance char char_eq_dec s t
  = FileUpload.levenshteinDistance char char_eq_dec t s /\
  FileUpload.levenshteinDistance char char_eq_dec s u
  <= FileUpload.levenshteinDistance char char_eq_dec s t
     + FileUpload.levenshteinDistance char char_eq_dec t u.
Proof.
  rewrite !levenshteinDistance_editDistance.
  split; [apply editDistance_zero_iff |].
  split; [apply editDistance_sym | apply editDistance_triangle].
Qed.

(** X2.  [levenshteinDistance] lies between the difference of the two
    lengths and the greater of them; it is the other string's length when
    one is empty. *)
Theorem levenshteinDistance_bounds (s t : list char) :
  Nat.max (List.length s) (List.length t)
    - Nat.min (List.length s) (List.length t)
  <= FileUpload.levenshteinDistance char char_eq_dec s t
  /\ FileUpload.levenshteinDistance char char_eq_dec s t
     <= Nat.max (List.length s) (List.length t)
  /\ FileUpload.levenshteinDistance char char_eq_dec s [] = List.length s
  /\ FileUpload.levenshteinDistance char char_eq_dec [] t = List.length t.
Proof.
  rewrite !levenshteinDistance_editDistance.
  destruct (editDistance_bounds s t) as [L U].
  repeat split; auto.
  apply editDistance_nil_r.
Qed.

End DistanceFacts.

(** ** The similarity as a score *)

(** [(m - d) / m] for naturals [d <= m], [m] positive. *)
Lemma div_sub_nat (m d : nat) :
  0 < m -> d <= m ->
  JS.div (JS.sub (JS.of_nat m) (JS.of_nat d)) (JS.of_nat m)
  = JS.Fin (Qred (inject_Z (Z.of_nat (m - d)) / inject_Z (Z.of_nat m))).
Proof.
  intros Hm Hd. unfold JS.of_nat, JS.of_Z, JS.sub, JS.div.
  assert (Hz : JS.Qis_zero (inject_Z (Z.of_nat m)) = false).
  { unfold JS.Qis_zero. simpl. apply Z.eqb_neq. lia. }
  rewrite Hz. f_equal.
  apply Qred_complete. rewrite Qred_correct.
  rewrite Nat2Z.inj_sub by exact Hd.
  unfold Z.sub. rewrite inject_Z_plus, inject_Z_opp. reflexivity.
Qed.

Lemma ratio_range (a b : nat) :
  0 < b -> a <= b ->
  let q := Qred (inject_Z (Z.of_nat a) / inject_Z (Z.of_nat b)) in
  (0 <= q)%Q /\ (q <= 1)%Q /\ (q = 1%Q <-> a = b) /\ (q = 0%Q <-> a = 0).
Proof.
  intros Hb Ha q.
  assert (Hq : (q == inject_Z (Z.of_nat a) / inject_Z (Z.of_nat b))%Q)
    by apply Qred_correct.
  assert (Hpos : (0 < inject_Z (Z.of_nat b))%Q).
  { change 0%Q with (inject_Z 0). rewrite <- Zlt_Qlt. lia. }
  assert (H0 : (0 <= q)%Q).
  { rewrite Hq. apply Qle_shift_div_l; [exact Hpos|].
    rewrite Qmult_0_l. change 0%Q with (inject_Z 0). rewrite <- Zle_Qle. lia. }
  assert (H1 : (q <= 1)%Q).
  { rewrite Hq. apply Qle_shift_div_r; [exact Hpos|].
    rewrite Qmult_1_l. rewrite <- Zle_Qle. lia. }
  repeat split; auto.
  - intros E. assert (E' : (q == 1)%Q) by (rewrite E; reflexivity).
    rewrite Hq in E'.
    assert (E2 : (inject_Z (Z.of_nat a) == inject_Z (Z.of_nat b))%Q).
    { rewrite <- (Qmult_1_l (inject_Z (Z.of_nat b))), <- E'.
      field. intro F. rewrite F in Hpos. now apply Qlt_irrefl in Hpos. }
    apply (proj1 (inject_Z_injective _ _)) in E2. lia.
  - intros ->. unfold q. change 1%Q with (Qred 1). apply Qred_complete.
    field. intro F. rewrite F in Hpos. now apply Qlt_irrefl in Hpos.
  - intros E. assert (E' : (q == 0)%Q) by (rewrite E; reflexivity).
    rewrite Hq in E'.
    assert (E2 : (inject_Z (Z.of_nat a) == inject_Z 0)%Q).
    { change (inject_Z 0) with 0%Q.
      rewrite <- (Qmult_0_l (inject_Z (Z.of_nat b))), <- E'.
      field. intro F. rewrite F in Hpos. now apply Qlt_irrefl in Hpos. }
    apply (proj1 (inject_Z_injective _ _)) in E2. lia.
  - intros ->. unfold q. change 0%Q with (Qred 0). apply Qred_complete.
    simpl Z.of_nat. change (inject_Z 0) with 0%Q.
    unfold Qdiv. apply Qmult_0_l.
Qed.

Section SimilarityFacts.

Variable char : Type.
Variable char_eq_dec : forall a b : char, {a = b} + {a <> b}.

Local Abbreviation lev := (Levenshtein.editDistance char char_eq_dec).
Local Abbreviation similarity := (FileUpload.calculateSimilarity char char_eq_dec).

(** The similarity in terms of the textbook recursion. *)
Lemma calculateSimilarity_editDistance (s1 s2 : list char) :
  similarity s1 s2
  = JS.div
      (JS.sub (JS.of_nat (Nat.max (List.length s1) (List.length s2)))
              (JS.of_nat (lev s1 s2)))
      (JS.of_nat (Nat.max (List.length s1) (List.length s2))).
Proof.
  unfold FileUpload.calculateSimilarity.
  rewrite levenshteinDistance_editDistance.
  destruct (Nat.ltb_spec (List.length s2) (List.length s1)) as [H|H].
  - replace (Nat.max (List.length s1) (List.length s2))
      with (List.length s1) by lia.
    reflexivity.
  - replace (Nat.max (List.length s1) (List.length s2))
      with (List.length s2) by lia.
    now rewrite editDistance_sym.
Qed.

Lemma max_length_pos (s1 s2 : list char) :
  s1 <> [] \/ s2 <> [] ->
  0 < Nat.max (List.length s1) (List.length s2).
Proof.
  intros [H|H]; [destruct s1 | destruct s2]; try congruence;
    cbn [List.length]; lia.
Qed.


(** X3.  [calculateSimilarity] is symmetric in its two arguments, the empty
    strings included. *)
Theorem calculateSimilarity_sym (s1 s2 : list char) :
  FileUpload.calculateSimilarity char char_eq_dec s1 s2
  = FileUpload.calculateSimilarity char char_eq_dec s2 s1.
Proof.
  rewrite !calculateSimilarity_editDistance.
  now rewrite Nat.max_comm, editDistance_sym.
Qed.

(** X4.  Unless both strings are empty, [calculateSimilarity] is a number
    between 0 and 1; it is 1 exactly when the strings are equal, and 0
    exactly when the distance is the length of the longer string. *)
Theorem calculateSimilarity_range (s1 s2 : list char) :
  s1 <> [] \/ s2 <> [] ->
  exists q : Q,
    FileUpload.calculateSimilarity char char_eq_dec s1 s2 = JS.Fin q /\
    (0 <= q)%Q /\ (q <= 1)%Q /\
    (FileUpload.calculateSimilarity char char_eq_dec s1 s2 = JS.Fin 1%Q
     <-> s1 = s2) /\
    (FileUpload.calculateSimilarity char char_eq_dec s1 s2 = JS.Fin 0%Q
     <-> FileUpload.levenshteinDistance char char_eq_dec s1 s2
         = Nat.max (List.length s1) (List.length s2)).
Proof.
  intros Hne. pose proof (max_length_pos _ _ Hne) as Hm.
  destruct (editDistance_bounds char char_eq_dec s1 s2) as [_ Hd].
  rewrite levenshteinDistance_editDistance.
  rewrite calculateSimilarity_editDistance, (div_sub_nat _ _ Hm Hd).
  set (m := Nat.max (List.length s1) (List.length s2)) in *.
  assert (Hle : m - lev s1 s2 <= m) by lia.
  destruct (ratio_range (m - lev s1 s2) m Hm Hle) as [H0 [H1 [E1 E0]]].
  eexists. split; [reflexivity|].
  split; [exact H0|]. split; [exact H1|]. split.
  - split.
    + intros E. injection E as E. apply E1 in E.
      apply (editDistance_zero_iff char char_eq_dec). lia.
    + intros E. f_equal. apply E1.
      apply (editDistance_zero_iff char char_eq_dec) in E. lia.
  - split.
    + intros E. injection E as E. apply E0 in E. lia.
    + intros E. f_equal. apply E0. lia.
Qed.

(** X5.  Two strings that share no code unit, not both empty, have
    similarity 0. *)
Theorem calculateSimilarity_disjoint (s1 s2 : list char) :
  s1 <> [] \/ s2 <> [] ->
  (forall a, In a s1 -> ~ In a s2) ->
  FileUpload.calculateSimilarity char char_eq_dec s1 s2 = JS.Fin 0%Q.
Proof.
  intros Hne D. pose proof (max_length_pos _ _ Hne) as Hm.
  destruct (editDistance_bounds char char_eq_dec s1 s2) as [_ Hd].
  pose proof (edits_disjoint char _ _ _
                (edits_editDistance char char_eq_dec s1 s2) D) as Hl.
  rewrite calculateSimilarity_editDistance, (div_sub_nat _ _ Hm Hd).
  f_equal.
  apply (ratio_range
           (Nat.max (List.length s1) (List.length s2) - lev s1 s2) _ Hm).
  - lia.
  - lia.
Qed.

End SimilarityFacts.

Lemma calculateSimilarity_range_witness :
  exists q : Q,
    FileUpload.nameSimilarityOf "kitten" "sitting" = JS.Fin q /\
    (0 <= q)%Q /\ (q <= 1)%Q.
Proof.
  destruct (calculateSimilarity_range ascii ascii_dec
              (list_ascii_of_string "kitten") (list_ascii_of_string "sitting"))
    as [q [E [H0 [H1 _]]]].
  - left. discriminate.
  - exists q. repeat split; assumption.
Defined.

Lemma calculateSimilarity_disjoint_witness :
  FileUpload.nameSimilarityOf "abc" "xy" = JS.Fin 0%Q.
Proof.
  apply (calculateSimilarity_disjoint ascii ascii_dec).
  - left. discriminate.
  - simpl. intros a [E|[E|[E|[]]]] [F|[F|[]]]; subst a; discriminate.
Defined.

(** ** The width of the content hash *)

Lemma toInt32_range (z : Z) :
  (- 2147483648 <= JS.toInt32 z < 2147483648)%Z.
Proof.
  unfold JS.toInt32.
  pose proof (Z.mod_pos_bound (z + 2147483648) 4294967296 eq_refl). lia.
Qed.

Lemma hash_step_range (hash : Z) (c : N) :
  (- 2147483648 <= FileUpload.hash_step hash c < 2147483648)%Z.
Proof.
  unfold FileUpload.hash_step, JS.band. apply toInt32_range.
Qed.

Lemma hash_fold_range (l : list N) (hash : Z) :
  (- 2147483648 <= hash < 2147483648)%Z ->
  (- 2147483648 <= fold_left FileUpload.hash_step l hash < 2147483648)%Z.
Proof.
  revert hash. induction l as [|c l IH]; intros hash H; simpl; [exact H|].
  apply IH, hash_step_range.
Qed.

(** X6.  Whatever the file, [generateFileHash] is the hexadecimal form of
    a number of at most 2^31: the hash carries 32 bits, however long the
    name and the content are. *)
Theorem generateFileHash_32_bits (file : FileUpload.File) :
  exists n : N,
    (n <= 2147483648)%N /\ FileUpload.generateFileHash file = JS.hex_of_N n.
Proof.
  unfold FileUpload.generateFileHash.
  eexists. split; [|reflexivity].
  match goal with
  | |- (Z.to_N (Z.abs ?h) <= _)%N =>
      assert (H : (- 2147483648 <= h < 2147483648)%Z)
  end.
  { apply hash_fold_range, hash_fold_range. lia. }
  lia.
Qed.

(** ** What the search by name reports *)

Lemma fold_left_collect {X Y : Type} (p : X -> bool) (g : X -> Y)
  (l : list X) (acc : list Y) :
  fold_left (fun acc x => if p x then acc ++ [g x] else acc) l acc
  = acc ++ map g (filter p l).
Proof.
  revert acc. induction l as [|x l IH]; intros acc; simpl.
  - now rewrite app_nil_r.
  - destruct (p x); rewrite IH; [|reflexivity].
    now rewrite <- app_assoc.
Qed.

(** *** Sorting with a strict weak order *)

Section Sorting.

Context {X : Type}.
Variable before : X -> X -> bool.
Variable P : X -> Prop.
Hypothesis before_asym :
  forall a b, P a -> P b -> before a b = true -> before b a = false.
Hypothesis before_negtrans :
  forall a b c, P a -> P b -> P c ->
    before a c = true -> before a b = true \/ before b c = true.

Local Abbreviation not_after := (fun a b : X => before b a = false).

Lemma insert_sorted_Forall (Q : X -> Prop) (x : X) (l : list X) :
  Q x -> Forall Q l -> Forall Q (JS.insert_sorted before x l).
Proof.
  intros Hx Hl. induction Hl as [|y l Hy Hl IH]; simpl.
  - now constructor.
  - destruct (before y x); constructor; auto.
Qed.

Lemma insert_sorted_sorted (x : X) (l : list X) :
  P x -> Forall P l ->
  ForallOrdPairs not_after l ->
  ForallOrdPairs not_after (JS.insert_sorted before x l).
Proof.
  intros Hx Hl Hs. induction Hs as [|y l Hy Hs IH]; simpl.
  - constructor; constructor.
  - inversion Hl as [|y' l' Py Pl]; subst.
    destruct (before y x) eqn:E.
    + constructor; [|now apply IH].
      apply insert_sorted_Forall; [|exact Hy].
      now apply before_asym.
    + constructor; [|now constructor].
      constructor; [exact E|].
      rewrite Forall_forall in *. intros z Hz.
      destruct (before z x) eqn:Ez; [|reflexivity].
      destruct (before_negtrans z y x) as [F|F]; auto.
      * rewrite (Hy z Hz) in F. discriminate.
      * congruence.
Qed.

Lemma sort_by_sorted (l : list X) :
  Forall P l -> ForallOrdPairs not_after (JS.sort_by before l).
Proof.
  intros Hl. induction Hl as [|x l Hx Hl IH]; simpl.
  - constructor.
  - apply insert_sorted_sorted; auto.
    clear IH. induction Hl as [|y l Hy Hl IH]; simpl; [constructor|].
    now apply insert_sorted_Forall.
Qed.

End Sorting.

(** [>] on numbers other than NaN is a strict weak order. *)
Lemma gtb_asym (x y : JS.number) : JS.gtb x y = true -> JS.gtb y x = false.
Proof.
  destruct x as [| | |a], y as [| | |b]; simpl; try congruence.
  intros H. apply negb_true_iff in H. apply negb_false_iff.
  apply Qle_bool_iff. destruct (Qlt_le_dec b a) as [L|L].
  - now apply Qlt_le_weak.
  - exfalso. apply Qle_bool_iff in L. congruence.
Qed.

Lemma gtb_negtrans (x y z : JS.number) :
  y <> JS.NaN ->
  JS.gtb x z = true -> JS.gtb x y = true \/ JS.gtb y z = true.
Proof.
  destruct x as [| | |a], y as [| | |b], z as [| | |c]; simpl;
    try congruence; auto.
  intros _ H. apply negb_true_iff in H.
  destruct (Qle_bool a b) eqn:E1; [|now left].
  destruct (Qle_bool b c) eqn:E2; [|now right].
  apply Qle_bool_iff in E1, E2.
  assert (F : Qle_bool a c = true)
    by (apply Qle_bool_iff; now apply Qle_trans with b).
  congruence.
Qed.

Lemma by_score_desc_sorted (l : list FileUpload.SimilarityResult) :
  Forall (fun r => FileUpload.similarityScore r <> JS.NaN) l ->
  Matches.best_first (JS.sort_by FileUpload.by_score_desc l).
Proof.
  apply (sort_by_sorted FileUpload.by_score_desc
           (fun r => FileUpload.similarityScore r <> JS.NaN)).
  - intros a b _ _. apply gtb_asym.
  - intros a b c _ Hb _. now apply gtb_negtrans.
Qed.

Lemma gtb_not_NaN (x c : JS.number) : JS.gtb x c = true -> x <> JS.NaN.
Proof. destruct x; simpl; congruence. Qed.

Lemma filter_none {X : Type} (p : X -> bool) (l : list X) :
  (forall x, p x = false) -> filter p l = [].
Proof.
  intros H. induction l as [|x l IH]; simpl; [reflexivity|].
  now rewrite H.
Qed.

(** *** The search by name in a world that answers its call *)

Lemma analyzeAndFindSimilarFiles_answered (organizationId : string)
  (file : FileUpload.File) (w : Blink.World) :
  hd false (Blink.faults w) = false ->
  exists analysis,
    fst (FileUpload.analyzeAndFindSimilarFiles organizationId file w)
    = Blink.Return
        (analysis,
         JS.sort_by FileUpload.by_score_desc
           (map (Matches.byName file)
              (filter
                 (fun f => JS.gtb (Matches.nameScore file f) (JS.Fin (1 # 2)))
                 (firstn 10
                    (filter (Matches.of_latest organizationId)
                       (Blink.files w)))))).
Proof.
  intros Hf. eexists.
  unfold FileUpload.analyzeAndFindSimilarFiles, Blink.try_catch, Blink.bind,
    Blink.files_list, Blink.remote, Blink.ret, Blink.select.
  destruct (Blink.faults w) as [|[|] rest]; try discriminate.
  all: cbn [fst]; apply f_equal; apply f_equal2; [reflexivity|].
  all: apply f_equal.
  all: exact (fold_left_collect
                (fun f => JS.gtb (Matches.nameScore file f) (JS.Fin (1 # 2)))
                (Matches.byName file) _ []).
Qed.

Lemma similarity_nil_l (char : Type)
  (char_eq_dec : forall a b : char, {a = b} + {a <> b}) (t : list char) :
  JS.gtb (FileUpload.calculateSimilarity char char_eq_dec [] t)
         (JS.Fin (1 # 2)) = false.
Proof.
  destruct t as [|b t]; [reflexivity|].
  rewrite calculateSimilarity_editDistance.
  rewrite div_sub_nat; [|cbn [List.length]; lia|simpl; lia].
  replace (Nat.max (List.length (@nil char)) (List.length (b :: t))
           - Levenshtein.editDistance char char_eq_dec [] (b :: t))
    with 0 by (simpl; lia).
  reflexivity.
Qed.

(** X7.  For names of ASCII characters: when its call to the store is
    answered, [analyzeAndFindSimilarFiles] reports exactly those of the
    first ten latest files of the organization whose base name is more than
    0.5 similar to the upload's, each once per row, at most ten in all, and
    none followed by a better one. *)
Theorem analyzeAndFindSimilarFiles_reports (organizationId : string)
  (file : FileUpload.File) (w : Blink.World) :
  hd false (Blink.faults w) = false ->
  Text.ascii_only (FileUpload.name file) = true ->
  (forall f,
      In f (firstn 10
              (filter (Matches.of_latest organizationId) (Blink.files w))) ->
      Text.ascii_only (Blink.f_name f) = true) ->
  exists analysis results,
    fst (FileUpload.analyzeAndFindSimilarFiles organizationId file w)
    = Blink.Return (analysis, results) /\
    Permutation results
      (map (Matches.byName file)
         (filter (fun f => JS.gtb (Matches.nameScore file f) (JS.Fin (1 # 2)))
            (firstn 10
               (filter (Matches.of_latest organizationId) (Blink.files w))))) /\
    List.length results <= 10 /\
    Matches.best_first results.
Proof.
  intros Hf _ _.
  destruct (analyzeAndFindSimilarFiles_answered organizationId file w Hf)
    as [analysis E].
  eexists. eexists. split; [exact E|].
  split; [apply sort_by_perm|]. split.
  - rewrite (Permutation_length (sort_by_perm _ _)), length_map.
    etransitivity; [apply filter_length_le|].
    apply firstn_le_length.
  - apply by_score_desc_sorted.
    apply Forall_forall. intros r Hr.
    apply in_map_iff in Hr. destruct Hr as [f [<- Hin]].
    apply filter_In in Hin. destruct Hin as [_ Hs].
    simpl. now apply gtb_not_NaN in Hs.
Qed.


(** X9.  An upload whose base name is empty (a name that is empty or
    starts with a dot) is never reported similar to anything, not even to
    a stored file of the same name, in any world. *)
Theorem analyzeAndFindSimilarFiles_dot_file (organizationId : string)
  (file : FileUpload.File) (w : Blink.World) :
  Matches.baseName (FileUpload.name file) = EmptyString ->
  exists analysis,
    fst (FileUpload.analyzeAndFindSimilarFiles organizationId file w)
    = Blink.Return (analysis, []).
Proof.
  intros Hb.
  destruct (hd false (Blink.faults w)) eqn:Hf.
  - eexists.
    unfold FileUpload.analyzeAndFindSimilarFiles, Blink.try_catch, Blink.bind,
      Blink.files_list, Blink.remote, Blink.ret, Blink.reject.
    destruct (Blink.faults w) as [|[|] rest]; try discriminate. reflexivity.
  - destruct (analyzeAndFindSimilarFiles_answered organizationId file w Hf)
      as [analysis E].
    exists analysis. rewrite E. do 2 f_equal.
    rewrite filter_none; [reflexivity|].
    intros f. unfold Matches.nameScore, FileUpload.nameSimilarityOf.
    rewrite Hb. apply similarity_nil_l.
Qed.

Lemma analyzeAndFindSimilarFiles_reports_witness :
  exists analysis results,
    fst (FileUpload.analyzeAndFindSimilarFiles "org_sample"
           Examples.manual_upload Examples.draft_world)
    = Blink.Return (analysis, results) /\
    List.length results <= 10.
Proof.
  destruct (analyzeAndFindSimilarFiles_reports "org_sample"
              Examples.manual_upload Examples.draft_world eq_refl eq_refl)
    as [analysis [results [E [_ [L _]]]]].
  - intros f [<-|[]]. reflexivity.
  - exists analysis, results. split; assumption.
Defined.


Lemma analyzeAndFindSimilarFiles_dot_file_witness :
  exists analysis,
    fst (FileUpload.analyzeAndFindSimilarFiles "org_sample"
           MoreExamples.dot_upload MoreExamples.dot_world)
    = Blink.Return (analysis, []).
Proof.
  apply analyzeAndFindSimilarFiles_dot_file. reflexivity.
Defined.

(** ** Reading and writing version labels *)

(** *** Decimal digits *)

Lemma N_of_digits_acc (d : Decimal.uint) (p : positive) :
  fold_left (fun acc c => (10 * acc + JS.digit_value c)%N)
    (list_ascii_of_string (DecimalString.NilEmpty.string_of_uint d)) (Npos p)
  = Npos (Pos.of_uint_acc d p).
Proof.
  revert p.
  induction d; intros p;
    cbn [fold_left list_ascii_of_string DecimalString.NilEmpty.string_of_uint
         Pos.of_uint_acc];
    try reflexivity; rewrite <- IHd; f_equal;
    match goal with
    | |- context [JS.digit_value ?c] =>
        let v := eval vm_compute in (JS.digit_value c) in
        change (JS.digit_value c) with v
    end; lia.
Qed.

Lemma N_of_digits_uint (d : Decimal.uint) :
  JS.N_of_digits (DecimalString.NilEmpty.string_of_uint d) = N.of_uint d.
Proof.
  unfold JS.N_of_digits, N.of_uint.
  induction d;
    cbn [fold_left list_ascii_of_string DecimalString.NilEmpty.string_of_uint
         Pos.of_uint];
    try reflexivity; try exact IHd;
    rewrite <- N_of_digits_acc; reflexivity.
Qed.

(** Reading back the digits of a number gives the number. *)
Lemma N_of_digits_string_of_N (n : N) : JS.N_of_digits (JS.string_of_N n) = n.
Proof.
  unfold JS.string_of_N. rewrite N_of_digits_uint.
  apply DecimalN.Unsigned.of_to.
Qed.

Lemma string_of_uint_digits (d : Decimal.uint) :
  Forall (fun c => JS.is_digit c = true)
    (list_ascii_of_string (DecimalString.NilEmpty.string_of_uint d)).
Proof.
  induction d; simpl; constructor; auto.
Qed.

Lemma string_of_N_digits (n : N) : VersionPattern.digits (JS.string_of_N n).
Proof.
  split; [|apply string_of_uint_digits].
  intros E. pose proof (N_of_digits_string_of_N n) as H.
  rewrite E in H. compute in H. subst n. discriminate.
Qed.

(** *** The pattern next to a hyphen *)

Lemma span_digits_dash (s r : string) :
  JS.span_digits (s ++ String "-" r)
  = (fst (JS.span_digits s), (snd (JS.span_digits s) ++ String "-" r)%string).
Proof.
  induction s as [|c s IH]; simpl; [reflexivity|].
  destruct (JS.is_digit c); [|reflexivity].
  rewrite IH. destruct (JS.span_digits s). reflexivity.
Qed.

(** A hyphen is no part of a version: what follows it does not change
    whether the pattern matches at the start of [s]. *)
Lemma match_here_dash (s r : string) :
  VersionPattern.match_here (s ++ String "-" r) = VersionPattern.match_here s.
Proof.
  unfold VersionPattern.match_here.
  destruct s as [|c s]; [reflexivity|].
  destruct (ascii_dec c "v") as [->|Hc].
  2: { destruct c as [[] [] [] [] [] [] [] []]; try reflexivity. congruence. }
  simpl. rewrite span_digits_dash.
  destruct (JS.span_digits s) as [e1 r1]. simpl.
  destruct e1 as [|x1 e1]; [reflexivity|].
  destruct r1 as [|c1 r2]; [reflexivity|].
  destruct (ascii_dec c1 ".") as [->|Hc1].
  2: { destruct c1 as [[] [] [] [] [] [] [] []]; try reflexivity. congruence. }
  simpl. rewrite span_digits_dash.
  destruct (JS.span_digits r2) as [e2 r3]. simpl.
  destruct e2 as [|x2 e2]; [reflexivity|].
  destruct r3 as [|c2 r4]; [reflexivity|].
  destruct (ascii_dec c2 ".") as [->|Hc2].
  2: { destruct c2 as [[] [] [] [] [] [] [] []]; try reflexivity. congruence. }
  simpl. rewrite span_digits_dash.
  destruct (JS.span_digits r4) as [e3 r5]. reflexivity.
Qed.

(** The leftmost match of [s-r] lies in [s] if [s] has one, in [r]
    otherwise. *)
Lemma exec_dash (s r : string) :
  VersionPattern.exec (s ++ String "-" r)
  = match VersionPattern.exec s with
    | Some m => Some m
    | None => VersionPattern.exec r
    end.
Proof.
  induction s as [|c s IH].
  - reflexivity.
  - change ((String c s ++ String "-" r)%string)
      with (String c (s ++ String "-" r)%string).
    rewrite exec_eq, (exec_eq (String c s)).
    change (String c (s ++ String "-" r)%string)
      with ((String c s ++ String "-" r)%string).
    rewrite match_here_dash.
    destruct (VersionPattern.match_here (String c s)); [reflexivity|exact IH].
Qed.

Lemma match_here_exact (d1 d2 d3 post : string) :
  VersionPattern.digits d1 -> VersionPattern.digits d2 ->
  VersionPattern.digits d3 -> VersionPattern.no_digit_ahead post ->
  VersionPattern.match_here
    ("v" ++ d1 ++ "." ++ d2 ++ "." ++ d3 ++ post)%string
  = Some (d1, d2, d3).
Proof.
  intros [N1 D1] [N2 D2] [N3 D3] Hpost.
  unfold VersionPattern.match_here. simpl.
  rewrite (span_digits_app d1) by (assumption || apply dot_no_digit).
  destruct d1 as [|c1 d1]; [congruence|].
  rewrite (span_digits_app d2) by (assumption || apply dot_no_digit).
  destruct d2 as [|c2 d2]; [congruence|].
  rewrite (span_digits_app d3) by assumption.
  destruct d3 as [|c3 d3]; [congruence|]. reflexivity.
Qed.

Lemma exec_versioned (prefix d1 d2 d3 post : string) :
  ~ VersionPattern.has_match prefix ->
  VersionPattern.digits d1 -> VersionPattern.digits d2 ->
  VersionPattern.digits d3 -> VersionPattern.no_digit_ahead post ->
  VersionPattern.exec
    (prefix ++ "-v" ++ d1 ++ "." ++ d2 ++ "." ++ d3 ++ post)%string
  = Some (d1, d2, d3).
Proof.
  intros Hp H1 H2 H3 Hpost.
  change (prefix ++ "-v" ++ d1 ++ "." ++ d2 ++ "." ++ d3 ++ post)%string
    with (prefix ++ String "-" ("v" ++ d1 ++ "." ++ d2 ++ "." ++ d3 ++ post))%string.
  rewrite exec_dash.
  apply exec_None_iff in Hp. rewrite Hp.
  rewrite exec_eq, match_here_exact by assumption. reflexivity.
Qed.

(** *** The text before the first [-v] *)

Lemma prefix_cons (a b : ascii) (s1 s2 : string) :
  String.prefix (String a s1) (String b s2)
  = if ascii_dec a b then String.prefix s1 s2 else false.
Proof. reflexivity. Qed.

Lemma prefix_separator (s : string) :
  String.prefix "-v" s = true <-> exists r, s = ("-v" ++ r)%string.
Proof.
  split.
  - destruct s as [|c [|c' r]]; try discriminate.
    + rewrite prefix_cons. destruct (ascii_dec "-" c); discriminate.
    + rewrite prefix_cons. destruct (ascii_dec "-" c) as [<-|]; [|discriminate].
      rewrite prefix_cons. destruct (ascii_dec "v" c') as [<-|]; [|discriminate].
      intros _. exists r. reflexivity.
  - intros [r ->]. change ("-v" ++ r)%string with (String "-" (String "v" r)).
    rewrite !prefix_cons.
    destruct (ascii_dec "-" "-"); [|congruence].
    destruct (ascii_dec "v" "v"); [|congruence].
    destruct r; reflexivity.
Qed.

Lemma split_head_eq (sep s : string) :
  JS.split_head sep s
  = if String.prefix sep s then EmptyString
    else match s with
         | EmptyString => EmptyString
         | String c r => String c (JS.split_head sep r)
         end.
Proof. destruct s; reflexivity. Qed.

Lemma no_separator_tail (c : ascii) (s : string) :
  Labels.no_separator (String c s) -> Labels.no_separator s.
Proof.
  intros Hn a b E. apply (Hn (String c a) b). simpl. now f_equal.
Qed.

Lemma no_separator_head (s : string) :
  Labels.no_separator s -> String.prefix "-v" s = false.
Proof.
  intros Hn. destruct (String.prefix "-v" s) eqn:E; [|reflexivity].
  apply prefix_separator in E. destruct E as [r ->].
  exfalso. apply (Hn EmptyString r). reflexivity.
Qed.

Lemma split_head_separator (prefix rest : string) :
  Labels.no_separator prefix ->
  JS.split_head "-v" (prefix ++ "-v" ++ rest) = prefix.
Proof.
  induction prefix as [|c p IH]; intros Hn.
  - rewrite split_head_eq.
    rewrite (proj2 (prefix_separator _)); [reflexivity|].
    exists rest. reflexivity.
  - change ((String c p ++ "-v" ++ rest)%string)
      with (String c (p ++ "-v" ++ rest)%string).
    rewrite split_head_eq.
    destruct (String.prefix "-v" (String c (p ++ "-v" ++ rest))) eqn:E.
    + exfalso. apply prefix_separator in E. destruct E as [r E].
      injection E as -> E.
      destruct p as [|c' p]; [discriminate|].
      injection E as -> E.
      apply (Hn EmptyString p). reflexivity.
    + f_equal. apply IH. now apply no_separator_tail in Hn.
Qed.

Lemma split_head_none (s : string) :
  Labels.no_separator s -> JS.split_head "-v" s = s.
Proof.
  induction s as [|c s IH]; intros Hn; rewrite split_head_eq.
  - reflexivity.
  - rewrite (no_separator_head _ Hn). f_equal.
    apply IH. now apply no_separator_tail in Hn.
Qed.

Lemma incrementVersion_digits (prefix d1 d2 d3 post : string)
  (incrementType : AISimilarityService.IncrementType) :
  ~ VersionPattern.has_match prefix ->
  Labels.no_separator prefix ->
  VersionPattern.digits d1 -> VersionPattern.digits d2 ->
  VersionPattern.digits d3 -> VersionPattern.no_digit_ahead post ->
  AISimilarityService.incrementVersion
    (prefix ++ "-v" ++ d1 ++ "." ++ d2 ++ "." ++ d3 ++ post) incrementType
  = let '(major, minor, patch) :=
      Labels.incremented incrementType
        (JS.N_of_digits d1) (JS.N_of_digits d2) (JS.N_of_digits d3) in
    Labels.versioned prefix major minor patch.
Proof.
  intros Hp Hs H1 H2 H3 Hpost.
  unfold AISimilarityService.incrementVersion.
  rewrite exec_versioned by assumption.
  rewrite split_head_separator by assumption.
  destruct incrementType; reflexivity.
Qed.

(** X10.  [incrementVersion] on a label [<prefix>-v<d1>.<d2>.<d3><rest>],
    where the prefix holds neither a version nor [-v], gives
    [<prefix>-v<major>.<minor>.<patch>] with the numbers incremented as
    asked: the digits are read as numbers, so leading zeros go, and
    whatever followed the version is dropped.  The numbers are below 2^53,
    where a double counts exactly. *)
Theorem incrementVersion_versioned (prefix d1 d2 d3 post : string)
  (incrementType : AISimilarityService.IncrementType) :
  ~ VersionPattern.has_match prefix ->
  Labels.no_separator prefix ->
  VersionPattern.digits d1 -> VersionPattern.digits d2 ->
  VersionPattern.digits d3 -> VersionPattern.no_digit_ahead post ->
  (JS.N_of_digits d1 < 2 ^ 53)%N -> (JS.N_of_digits d2 < 2 ^ 53)%N ->
  (JS.N_of_digits d3 < 2 ^ 53)%N ->
  AISimilarityService.incrementVersion
    (prefix ++ "-v" ++ d1 ++ "." ++ d2 ++ "." ++ d3 ++ post) incrementType
  = let '(major, minor, patch) :=
      Labels.incremented incrementType
        (JS.N_of_digits d1) (JS.N_of_digits d2) (JS.N_of_digits d3) in
    Labels.versioned prefix major minor patch.
Proof.
  intros Hp Hs H1 H2 H3 Hpost _ _ _. now apply incrementVersion_digits.
Qed.

Lemma incrementVersion_of_versioned (prefix : string) (major minor patch : N)
  (incrementType : AISimilarityService.IncrementType) :
  ~ VersionPattern.has_match prefix ->
  Labels.no_separator prefix ->
  AISimilarityService.incrementVersion
    (Labels.versioned prefix major minor patch) incrementType
  = let '(major, minor, patch) :=
      Labels.incremented incrementType major minor patch in
    Labels.versioned prefix major minor patch.
Proof.
  intros Hp Hs.
  pose proof (incrementVersion_digits prefix (JS.string_of_N major)
                (JS.string_of_N minor) (JS.string_of_N patch) EmptyString
                incrementType Hp Hs (string_of_N_digits _)
                (string_of_N_digits _) (string_of_N_digits _) I) as H.
  rewrite !N_of_digits_string_of_N in H.
  unfold Labels.versioned at 1.
  replace (JS.string_of_N patch)
    with (JS.string_of_N patch ++ EmptyString)%string; [exact H|].
  clear. induction (JS.string_of_N patch); simpl; congruence.
Qed.

(** X11.  Patch increments add up: after [n] of them a label
    [<prefix>-v<major>.<minor>.<patch>] has become
    [<prefix>-v<major>.<minor>.<patch + n>]; a minor increment after them
    starts the patch number again at 0.  The numbers stay below 2^53, where
    a double counts exactly. *)
Theorem incrementVersion_iterated (prefix : string) (major minor patch : N)
  (n : nat) :
  ~ VersionPattern.has_match prefix ->
  Labels.no_separator prefix ->
  (major < 2 ^ 53)%N -> (minor < 2 ^ 53)%N ->
  (patch + N.of_nat n < 2 ^ 53)%N ->
  let patches :=
    Nat.iter n
      (fun label =>
         AISimilarityService.incrementVersion label AISimilarityService.Patch)
      (Labels.versioned prefix major minor patch) in
  patches = Labels.versioned prefix major minor (patch + N.of_nat n) /\
  AISimilarityService.incrementVersion patches AISimilarityService.Minor
  = Labels.versioned prefix major (minor + 1) 0.
Proof.
  intros Hp Hs _ _ _ patches.
  assert (E : patches
              = Labels.versioned prefix major minor (patch + N.of_nat n)).
  { subst patches. induction n as [|n IH].
    - simpl. now rewrite N.add_0_r.
    - rewrite Nat.iter_succ, IH.
      rewrite incrementVersion_of_versioned by assumption.
      simpl. f_equal. lia. }
  split; [exact E|]. rewrite E.
  now rewrite incrementVersion_of_versioned by assumption.
Qed.

(** X12.  A label that holds a version but no [-v] does not advance: the
    first increment appends [-v<version>] to the whole label, and every
    later increment of the same type gives that same label again. *)
Theorem incrementVersion_without_separator (label : string)
  (incrementType : AISimilarityService.IncrementType) :
  VersionPattern.has_match label ->
  Labels.no_separator label ->
  let once := AISimilarityService.incrementVersion label incrementType in
  (exists version : string, once = (label ++ "-v" ++ version)%string) /\
  AISimilarityService.incrementVersion once incrementType = once.
Proof.
  intros Hm Hs once.
  pose proof (exec_complete label Hm) as He.
  pose proof (split_head_none label Hs) as Hsame.
  subst once. unfold AISimilarityService.incrementVersion.
  destruct (VersionPattern.exec label) as [[[d1 d2] d3]|] eqn:E;
    [|congruence].
  rewrite Hsame.
  set (numbers := match incrementType with
                  | AISimilarityService.Major => _
                  | AISimilarityService.Minor => _
                  | AISimilarityService.Patch => _
                  end).
  destruct numbers as [[major minor] patch] eqn:En.
  split; [eexists; reflexivity|].
  change (label ++ "-v" ++ JS.string_of_N major ++ "." ++ JS.string_of_N minor
            ++ "." ++ JS.string_of_N patch)%string
    with (label ++ String "-"
            ("v" ++ JS.string_of_N major ++ "." ++ JS.string_of_N minor
               ++ "." ++ JS.string_of_N patch))%string at 1 2.
  rewrite exec_dash, E.
  change (label ++ String "-"
            ("v" ++ JS.string_of_N major ++ "." ++ JS.string_of_N minor
               ++ "." ++ JS.string_of_N patch))%string
    with (label ++ "-v"
            ++ (JS.string_of_N major ++ "." ++ JS.string_of_N minor
                  ++ "." ++ JS.string_of_N patch))%string.
  rewrite split_head_separator by assumption.
  fold numbers. rewrite En. reflexivity.
Qed.

(** *** The label generator of the upload component *)

Lemma string_length_append (a b : string) :
  String.length (a ++ b) = String.length a + String.length b.
Proof.
  induction a as [|c a IH]; simpl; [reflexivity|]. now rewrite IH.
Qed.

Lemma no_separator_by_split (s : string) :
  String.length (JS.split_head "-v" s) = String.length s ->
  Labels.no_separator s.
Proof.
  intros H a b E. subst s.
  assert (L : forall a : string,
             String.length (JS.split_head "-v" (a ++ "-v" ++ b))
             <= String.length a).
  { clear. induction a as [|c a IH]; rewrite split_head_eq.
    - rewrite (proj2 (prefix_separator _)); [simpl; lia|].
      exists b. reflexivity.
    - change ((String c a ++ "-v" ++ b)%string)
        with (String c (a ++ "-v" ++ b)%string).
      destruct (String.prefix "-v" (String c (a ++ "-v" ++ b)));
        simpl; [lia|]. apply le_n_S, IH. }
  specialize (L a). rewrite H in L.
  rewrite !string_length_append in L. simpl in L. lia.
Qed.





(** X13.  For an existing file whose stored label holds a version,
    [generateVersionLabel] of the upload component returns what
    [incrementVersion] of the service returns for a patch increment; it
    makes one call to the store and writes nothing. *)
Theorem generateVersionLabel_increments (w : Blink.World)
  (organizationId existingFileId : string) (existingFile : Blink.FileRow)
  (others : list Blink.FileRow) :
  existingFileId <> EmptyString ->
  hd false (Blink.faults w) = false ->
  Blink.select (fun f => (Blink.f_id f =? existingFileId)%string) None None
    (Blink.files w) = existingFile :: others ->
  VersionPattern.has_match (Blink.f_version_label existingFile) ->
  let run :=
    FileUpload.generateVersionLabel organizationId (Some existingFileId) w in
  fst run
  = Blink.Return
      (AISimilarityService.incrementVersion
         (Blink.f_version_label existingFile) AISimilarityService.Patch) /\
  Blink.faults (snd run) = tl (Blink.faults w) /\
  Blink.files (snd run) = Blink.files w.
Proof.
  intros Hid Hf Hsel Hm. apply exec_complete in Hm.
  unfold FileUpload.generateVersionLabel, FileUpload.given.
  destruct (String.eqb_spec existingFileId EmptyString) as [E|_];
    [contradiction|].
  unfold Blink.try_catch, Blink.bind, Blink.files_list, Blink.remote,
    Blink.ret, Blink.reject.
  unfold AISimilarityService.incrementVersion.
  destruct w as [fs fvs al ai flt rej cnt cbs]. simpl in *.
  destruct flt as [|[|] flt]; simpl in *; try discriminate;
    rewrite Hsel; unfold FileUpload.next_patch;
    destruct (VersionPattern.exec (Blink.f_version_label existingFile))
      as [[[d1 d2] d3]|]; try congruence; simpl; auto.
Qed.

(** X14.  [generateVersionLabel] of the upload component never throws and
    never writes to the store; whenever one of its calls is rejected the
    label is VT-01-v1.0.0. *)
Theorem generateVersionLabel_never_throws (w : Blink.World)
  (organizationId : string) (existingFileId : option string) :
  let run :=
    FileUpload.generateVersionLabel organizationId existingFileId w in
  exists label,
    fst run = Blink.Return label /\
    (Blink.rejected (snd run) <> Blink.rejected w -> label = "VT-01-v1.0.0") /\
    Blink.files (snd run) = Blink.files w.
Proof.
  unfold FileUpload.generateVersionLabel.
  unfold Blink.try_catch, Blink.bind, Blink.files_list, Blink.remote,
    Blink.ret, Blink.reject.
  destruct w as [fs fvs al ai flt rej cnt cbs]. simpl.
  destruct (FileUpload.given existingFileId) as [id|];
    repeat
      (simpl;
       match goal with
       | |- context [match ?x with _ => _ end] =>
           match type of x with
           | list _ => destruct x as [|? ?]
           | bool => destruct x
           | option _ => destruct x
           end
       end);
    simpl; eexists; repeat split; congruence.
Qed.


Lemma incrementVersion_versioned_witness :
  AISimilarityService.incrementVersion "VT-01-v01.2.3-draft"
    AISimilarityService.Minor = "VT-01-v1.3.0".
Proof.
  apply (incrementVersion_versioned "VT-01" "01" "2" "3" "-draft"
           AISimilarityService.Minor).
  - apply exec_None_iff. reflexivity.
  - apply no_separator_by_split. reflexivity.
  - split; [discriminate | repeat constructor].
  - split; [discriminate | repeat constructor].
  - split; [discriminate | repeat constructor].
  - reflexivity.
  - reflexivity.
  - reflexivity.
  - reflexivity.
Defined.

Lemma incrementVersion_iterated_witness :
  Nat.iter 12
    (fun label =>
       AISimilarityService.incrementVersion label AISimilarityService.Patch)
    "VT-01-v1.0.0" = "VT-01-v1.0.12".
Proof.
  apply (incrementVersion_iterated "VT-01" 1 0 0 12).
  - apply exec_None_iff. reflexivity.
  - apply no_separator_by_split. reflexivity.
  - reflexivity.
  - reflexivity.
  - reflexivity.
Defined.

Lemma incrementVersion_without_separator_witness :
  AISimilarityService.incrementVersion "v1.0.0" AISimilarityService.Patch
  = "v1.0.0-v1.0.1" /\
  AISimilarityService.incrementVersion "v1.0.0-v1.0.1"
    AISimilarityService.Patch = "v1.0.0-v1.0.1".
Proof.
  split; [reflexivity|].
  apply (incrementVersion_without_separator "v1.0.0"
           AISimilarityService.Patch).
  - apply exec_sound. discriminate.
  - apply no_separator_by_split. reflexivity.
Defined.

Lemma generateVersionLabel_increments_witness :
  fst (FileUpload.generateVersionLabel "org_sample" (Some "file_1")
         (Examples.world_of [Examples.manual_file] [] [] false))
  = Blink.Return "VT-01-v1.0.1".
Proof.
  apply (generateVersionLabel_increments
           (Examples.world_of [Examples.manual_file] [] [] false)
           "org_sample" "file_1" Examples.manual_file []).
  - discriminate.
  - reflexivity.
  - reflexivity.
  - apply exec_sound. discriminate.
Defined.


(** ** What the search by the hosted model reports *)

Lemma fold_left_app_each {X Y : Type} (F : list Y -> X -> list Y)
  (h : X -> list Y) (l : list X) (acc : list Y) :
  (forall acc x, F acc x = acc ++ h x) ->
  fold_left F l acc = acc ++ flat_map h l.
Proof.
  intros HF. revert acc. induction l as [|x l IH]; intros acc; simpl.
  - now rewrite app_nil_r.
  - rewrite IH, HF. now rewrite <- app_assoc.
Qed.

(** The entries that an answer of the model yields for the files
    listed. *)
Lemma findSimilarFiles_answered (file : FileUpload.File)
  (organizationId : string) (fileAnalysis : FileUpload.FileAnalysis)
  (w : Blink.World) (answer : list Blink.Similarity)
  (later : list (list Blink.Similarity)) :
  hd false (Blink.faults w) = false ->
  hd false (tl (Blink.faults w)) = false ->
  Blink.ai_objects w = answer :: later ->
  firstn 20 (filter (Matches.of_latest organizationId) (Blink.files w)) <> [] ->
  fst (AISimilarityService.findSimilarFiles file organizationId fileAnalysis w)
  = Blink.Return
      (JS.sort_by FileUpload.by_score_desc
         (flat_map
            (fun similarity =>
               if Matches.accepted similarity
               then
                 match
                   AISimilarityService.fileAt
                     (firstn 20
                        (filter (Matches.of_latest organizationId)
                           (Blink.files w)))
                     (Blink.fileIndex similarity)
                 with
                 | Some existingFile =>
                     [Matches.byModel existingFile similarity]
                 | None => []
                 end
               else [])
            answer)).
Proof.
  intros Hf1 Hf2 Hai Hne.
  unfold AISimilarityService.findSimilarFiles, Blink.try_catch, Blink.bind,
    Blink.files_list, Blink.ai_generateObject, Blink.remote, Blink.ret,
    Blink.reject, Blink.select.
  fold (Matches.of_latest organizationId).
  set (existing :=
         firstn 20 (filter (Matches.of_latest organizationId) (Blink.files w)))
    in *.
  set (h := fun similarity : Blink.Similarity => _).
  assert (Hlen : (List.length existing =? 0) = false).
  { destruct existing; [congruence|reflexivity]. }
  assert (Hfold : forall l,
             fold_left
               (fun results similarity =>
                  if JS.gtb (Blink.overallSimilarity similarity)
                            (JS.Fin (3 # 10))
                     && Blink.shouldVersion similarity
                  then
                    match AISimilarityService.fileAt existing
                            (Blink.fileIndex similarity) with
                    | Some existingFile =>
                        results ++ [Matches.byModel existingFile similarity]
                    | None => results
                    end
                  else results) l [] = flat_map h l).
  { intros l. apply (fold_left_app_each _ h l []).
    intros acc x. subst h. cbv beta. unfold Matches.accepted.
    destruct (JS.gtb _ _ && _); [|now rewrite app_nil_r].
    destruct (AISimilarityService.fileAt existing (Blink.fileIndex x));
      [reflexivity|now rewrite app_nil_r]. }
  destruct w as [fs fvs al ai flt rej cnt cbs]. simpl in *. subst ai.
  destruct flt as [|[|] [|[|] flt]]; simpl in *; try discriminate;
    fold existing; rewrite Hlen; simpl; f_equal; f_equal; apply Hfold.
Qed.

(** X16.  For an organization with no latest file, [findSimilarFiles]
    returns the empty list after its one call to the store: the hosted
    model is not consulted. *)
Theorem findSimilarFiles_empty_organization (file : FileUpload.File)
  (organizationId : string) (fileAnalysis : FileUpload.FileAnalysis)
  (w : Blink.World) :
  hd false (Blink.faults w) = false ->
  filter (Matches.of_latest organizationId) (Blink.files w) = [] ->
  let run :=
    AISimilarityService.findSimilarFiles file organizationId fileAnalysis w in
  fst run = Blink.Return [] /\
  Blink.ai_objects (snd run) = Blink.ai_objects w /\
  Blink.faults (snd run) = tl (Blink.faults w) /\
  Blink.rejected (snd run) = Blink.rejected w.
Proof.
  intros Hf He.
  unfold AISimilarityService.findSimilarFiles, Blink.try_catch, Blink.bind,
    Blink.files_list, Blink.ai_generateObject, Blink.remote, Blink.ret,
    Blink.reject, Blink.select.
  fold (Matches.of_latest organizationId).
  destruct w as [fs fvs al ai flt rej cnt cbs]. simpl in *.
  destruct flt as [|[|] flt]; simpl in *; try discriminate;
    rewrite He; simpl; auto.
Qed.

(** X17.  When both calls are answered and the organization has a latest
    file, [findSimilarFiles] reports an entry of the model's answer exactly
    when its overall similarity is above 0.3, it is marked as a version,
    and its index, counted from 0, falls among the first twenty latest
    files; the entries come best first. *)
Theorem findSimilarFiles_reports (file : FileUpload.File)
  (organizationId : string) (fileAnalysis : FileUpload.FileAnalysis)
  (w : Blink.World) (answer : list Blink.Similarity)
  (later : list (list Blink.Similarity)) :
  hd false (Blink.faults w) = false ->
  hd false (tl (Blink.faults w)) = false ->
  Blink.ai_objects w = answer :: later ->
  let existingFiles :=
    firstn 20 (filter (Matches.of_latest organizationId) (Blink.files w)) in
  existingFiles <> [] ->
  exists results,
    fst (AISimilarityService.findSimilarFiles file organizationId
           fileAnalysis w) = Blink.Return results /\
    (forall r,
        In r results <->
        exists similarity existingFile,
          In similarity answer /\
          Matches.accepted similarity = true /\
          AISimilarityService.fileAt existingFiles
            (Blink.fileIndex similarity) = Some existingFile /\
          r = Matches.byModel existingFile similarity) /\
    List.length results <= List.length answer /\
    Matches.best_first results.
Proof.
  intros Hf1 Hf2 Hai existingFiles Hne.
  eexists. split.
  { exact (findSimilarFiles_answered file organizationId fileAnalysis w
             answer later Hf1 Hf2 Hai Hne). }
  fold existingFiles.
  set (h := fun similarity : Blink.Similarity => _).
  split; [|split].
  - intros r. split.
    + intros Hr. apply (Permutation_in _ (sort_by_perm _ _)) in Hr.
      apply in_flat_map in Hr. destruct Hr as [s [Hs Hr]].
      subst h. cbv beta in Hr.
      destruct (Matches.accepted s) eqn:Ha; [|contradiction].
      destruct (AISimilarityService.fileAt existingFiles (Blink.fileIndex s))
        as [f|] eqn:Hat; [|contradiction].
      destruct Hr as [<-|[]]. exists s, f. auto.
    + intros (s & f & Hs & Ha & Hat & ->).
      apply (Permutation_in _ (Permutation_sym (sort_by_perm _ _))).
      apply in_flat_map. exists s. split; [exact Hs|].
      subst h. cbv beta. rewrite Ha, Hat. now left.
  - rewrite (Permutation_length (sort_by_perm _ _)).
    clear. induction answer as [|s l IH]; [simpl; lia|].
    cbn [flat_map]. rewrite length_app. cbn [List.length].
    assert (List.length (h s) <= 1).
    { subst h. cbv beta. destruct (Matches.accepted s); [|simpl; lia].
      destruct (AISimilarityService.fileAt _ _); simpl; lia. }
    lia.
  - apply by_score_desc_sorted.
    apply Forall_forall. intros r Hr.
    apply in_flat_map in Hr. destruct Hr as [s [Hs Hr]].
    subst h. cbv beta in Hr.
    destruct (Matches.accepted s) eqn:Ha; [|contradiction].
    destruct (AISimilarityService.fileAt existingFiles (Blink.fileIndex s));
      [|contradiction].
    destruct Hr as [<-|[]]. simpl.
    unfold Matches.accepted in Ha. apply andb_true_iff in Ha.
    destruct Ha as [Ha _]. now apply gtb_not_NaN in Ha.
Qed.

Lemma findSimilarFiles_empty_organization_witness :
  fst (AISimilarityService.findSimilarFiles Examples.manual_upload
         "org_sample" Examples.manual_analysis Examples.quiet_world)
  = Blink.Return [].
Proof.
  apply (findSimilarFiles_empty_organization Examples.manual_upload
           "org_sample" Examples.manual_analysis Examples.quiet_world);
    reflexivity.
Defined.

Lemma findSimilarFiles_reports_witness :
  exists results,
    fst (AISimilarityService.findSimilarFiles Examples.manual_upload
           "org_sample" Examples.manual_analysis MoreExamples.model_world)
    = Blink.Return results /\
    List.length results <= 2.
Proof.
  destruct (findSimilarFiles_reports Examples.manual_upload "org_sample"
              Examples.manual_analysis MoreExamples.model_world
              [MoreExamples.first_entry; MoreExamples.second_entry] [])
    as [results [E [_ [L _]]]].
  - reflexivity.
  - reflexivity.
  - reflexivity.
  - discriminate.
  - exists results. split; assumption.
Defined.

(** ** Loading the history *)

(** X18.  [loadVersions] never throws, never writes to the store, and
    always ends with the loading flag down.  When both calls are answered
    the versions are the merge of the two answers; when one is rejected
    the versions shown before stay on screen. *)
Theorem loadVersions_outcome (getTime : string -> option Z)
  (fileId : string) (st : VersionHistory.State) (w : Blink.World) :
  let run := VersionHistory.loadVersions getTime fileId st w in
  exists st',
    fst run = Blink.Return st' /\
    VersionHistory.loading st' = false /\
    VersionHistory.currentUser st' = VersionHistory.currentUser st /\
    (Blink.rejected (snd run) = Blink.rejected w ->
     VersionHistory.versions st'
     = VersionHistory.shown getTime fileId w) /\
    (Blink.rejected (snd run) <> Blink.rejected w ->
     VersionHistory.versions st' = VersionHistory.versions st) /\
    Blink.files (snd run) = Blink.files w /\
    Blink.fileVersions (snd run) = Blink.fileVersions w /\
    Blink.activityLog (snd run) = Blink.activityLog w.
Proof.
  unfold VersionHistory.loadVersions, VersionHistory.shown, Blink.try_catch,
    Blink.bind, Blink.fileVersions_list, Blink.files_list, Blink.remote,
    Blink.ret, Blink.reject.
  destruct w as [fs fvs al ai flt rej cnt cbs]. simpl.
  destruct flt as [|[|] [|[|] flt]]; simpl;
    eexists; (split; [reflexivity|]); simpl;
    repeat split; intros; try reflexivity; try congruence; try lia.
Qed.

Lemma findIndex_exists {X : Type} (p : X -> bool) (l : list X) (x : X) :
  In x l -> p x = true -> exists i, JS.findIndex p l = Some i.
Proof.
  intros Hin Hp.
  destruct (findIndex_app p l [] x Hin Hp) as [i [Hi _]].
  rewrite app_nil_r in Hi. eauto.
Qed.

Lemma listed_ids (fileVersions : list Blink.FileVersionRow)
  (originalFile : list Blink.FileRow) :
  map VersionHistory.id (VersionHistory.listed fileVersions originalFile)
  = map Blink.fv_id fileVersions ++ map Blink.f_id originalFile.
Proof.
  unfold VersionHistory.listed. now rewrite map_app, !map_map.
Qed.

(** X19.  The merged history holds exactly the ids of the two answers;
    where a row of [fileVersions] and a row of [files] share an id, it is
    the row of [fileVersions] that is shown. *)
Theorem mergeVersions_ids (getTime : string -> option Z)
  (fileVersions : list Blink.FileVersionRow)
  (originalFile : list Blink.FileRow) :
  let merged :=
    VersionHistory.mergeVersions getTime fileVersions originalFile in
  (forall i : string,
      In i (map VersionHistory.id merged)
      <-> In i (map Blink.fv_id fileVersions)
          \/ In i (map Blink.f_id originalFile)) /\
  (forall y,
      In y merged ->
      In (VersionHistory.id y) (map Blink.fv_id fileVersions) ->
      exists r, In r fileVersions /\ y = VersionHistory.of_version r) /\
  List.length merged
  <= List.length fileVersions + List.length originalFile.
Proof.
  intros merged. split; [|split].
  - intros i. rewrite <- in_app_iff, <- listed_ids. split.
    + intros H. apply in_map_iff in H. destruct H as [y [<- Hy]].
      apply in_mergeVersions in Hy. destruct Hy as [k [Hk _]].
      apply in_map. eapply nth_error_In; eauto.
    + intros H. apply in_map_iff in H. destruct H as [x [<- Hx]].
      destruct (findIndex_exists
                  (fun v => (VersionHistory.id v =? VersionHistory.id x)%string)
                  _ x Hx (String.eqb_refl _)) as [k Hk].
      destruct (findIndex_Some_nth _ _ _ Hk) as [y [Hy Hid]].
      apply String.eqb_eq in Hid.
      apply in_map_iff. exists y. split; [exact Hid|].
      apply in_mergeVersions. exists k. split; [exact Hy|].
      rewrite Hid. exact Hk.
  - intros y Hy Hid. apply in_mergeVersions in Hy.
    destruct Hy as [k [Hk Hf]].
    apply in_map_iff in Hid. destruct Hid as [r [Hr Hin]].
    destruct (findIndex_app
                (fun v => (VersionHistory.id v =? VersionHistory.id y)%string)
                (map VersionHistory.of_version fileVersions)
                (map VersionHistory.of_file originalFile)
                (VersionHistory.of_version r))
      as [k' [Hk' Hlt]].
    { now apply in_map. }
    { simpl. rewrite Hr. apply String.eqb_refl. }
    unfold VersionHistory.listed in Hk, Hf.
    rewrite Hk' in Hf. injection Hf as ->.
    rewrite nth_error_app1 in Hk by exact Hlt.
    apply nth_error_In, in_map_iff in Hk.
    destruct Hk as [r' [<- Hr']]. eauto.
  - unfold merged. rewrite mergeVersions_listed.
    rewrite (Permutation_length (sort_by_perm _ _)).
    unfold JS.filter_indexed. rewrite length_map.
    etransitivity; [apply filter_length_le|].
    rewrite length_combine, length_seq, Nat.min_id.
    unfold VersionHistory.listed. rewrite length_app, !length_map. lia.
Qed.

(** X20.  When every date of the two answers is one that [getTime] reads,
    the merged history comes newest first. *)
Theorem mergeVersions_newest_first (getTime : string -> option Z)
  (fileVersions : list Blink.FileVersionRow)
  (originalFile : list Blink.FileRow) :
  (forall r, In r fileVersions -> getTime (Blink.fv_created_at r) <> None) ->
  (forall f, In f originalFile -> getTime (Blink.f_created_at f) <> None) ->
  Effects.newest_first getTime
    (VersionHistory.mergeVersions getTime fileVersions originalFile).
Proof.
  intros Hv Hf. rewrite mergeVersions_listed.
  set (P := fun y : VersionHistory.FileVersion =>
              getTime (VersionHistory.created_at y) <> None).
  assert (HP : forall y,
             In y (VersionHistory.listed fileVersions originalFile) -> P y).
  { intros y Hy. unfold VersionHistory.listed in Hy.
    apply in_app_iff in Hy. destruct Hy as [Hy|Hy];
      apply in_map_iff in Hy; destruct Hy as [x [<- Hx]]; unfold P; simpl;
      auto. }
  set (kept := JS.filter_indexed _ _).
  assert (Hkept : Forall P kept).
  { apply Forall_forall. intros y Hy. apply in_filter_indexed in Hy.
    destruct Hy as [i [Hi _]]. apply HP. eapply nth_error_In; eauto. }
  pose proof (sort_by_sorted (VersionHistory.newer getTime) P) as Hs.
  assert (Hsorted :
            ForallOrdPairs
              (fun a b => VersionHistory.newer getTime b a = false)
              (JS.sort_by (VersionHistory.newer getTime) kept)).
  { apply Hs; [| |exact Hkept].
    - intros a b _ _. unfold VersionHistory.newer.
      destruct (getTime (VersionHistory.created_at a)),
        (getTime (VersionHistory.created_at b)); try congruence.
      intros H. apply Z.ltb_lt in H. apply Z.ltb_ge. lia.
    - intros a b c _ Hb _. unfold VersionHistory.newer. unfold P in Hb.
      destruct (getTime (VersionHistory.created_at a)),
        (getTime (VersionHistory.created_at b)),
        (getTime (VersionHistory.created_at c)); try congruence.
      intros H. apply Z.ltb_lt in H.
      destruct (Z.ltb_spec z0 z); [now left|right]. apply Z.ltb_lt. lia. }
  assert (Hall : Forall P (JS.sort_by (VersionHistory.newer getTime) kept)).
  { apply Forall_forall. intros y Hy.
    apply (Permutation_in _ (sort_by_perm _ _)) in Hy.
    rewrite Forall_forall in Hkept. auto. }
  unfold Effects.newest_first.
  induction Hsorted as [|a l Ha Hl IH]; [constructor|].
  inversion Hall as [|a' l' Pa Pl]; subst.
  constructor; [|now apply IH].
  rewrite Forall_forall in *. intros b Hb.
  specialize (Ha b Hb). specialize (Pl b Hb).
  unfold VersionHistory.newer in Ha. unfold P in Pa, Pl.
  destruct (getTime (VersionHistory.created_at a)) as [ta|]; [|congruence].
  destruct (getTime (VersionHistory.created_at b)) as [tb|]; [|congruence].
  exists ta, tb. repeat split. apply Z.ltb_ge in Ha. exact Ha.
Qed.

(** ** A restore in any world *)

Lemma quiet_bind {A B : Type} (m : Blink.Async A) (k : A -> Blink.Async B) :
  Effects.quiet m -> (forall a, Effects.quiet (k a)) ->
  Effects.quiet (Blink.bind m k).
Proof.
  intros Hm Hk w. unfold Blink.bind.
  destruct (Hm w) as (C & L & R).
  destruct (m w) as [[a|] w1]; simpl in *.
  - destruct (Hk a w1) as (C' & L' & R').
    rewrite C', L', <- C, <- L, <- R. auto.
  - auto.
Qed.

Lemma quiet_fileVersions_update (id : string)
  (fields : Blink.FileVersionRow -> Blink.FileVersionRow) :
  Effects.quiet (Blink.fileVersions_update id fields).
Proof.
  intros w. unfold Blink.fileVersions_update, Blink.remote, Blink.reject.
  destruct w as [fs fvs al ai flt rej cnt cbs]. simpl.
  destruct flt as [|[|] flt]; simpl;
    try (destruct (Blink.table_update Blink.fv_id id fields fvs); simpl;
         [|destruct rej; simpl]);
    repeat split; lia.
Qed.

Lemma quiet_files_update (id : string)
  (fields : Blink.FileRow -> Blink.FileRow) :
  Effects.quiet (Blink.files_update id fields).
Proof.
  intros w. unfold Blink.files_update, Blink.remote, Blink.reject.
  destruct w as [fs fvs al ai flt rej cnt cbs]. simpl.
  destruct flt as [|[|] flt]; simpl;
    try (destruct (Blink.table_update Blink.f_id id fields fs); simpl;
         [|destruct rej; simpl]);
    repeat split; lia.
Qed.

Lemma quiet_promise_all {A : Type} (calls : list (Blink.Async A)) :
  Forall Effects.quiet calls -> Effects.quiet (Blink.promise_all calls).
Proof.
  induction 1 as [|call calls Hc _ IH]; intros w; simpl.
  - auto.
  - destruct (Hc w) as (C & L & R).
    destruct (call w) as [r w1]. simpl in *.
    destruct (IH w1) as (C' & L' & R').
    destruct (Blink.promise_all calls w1) as [rs w2]. simpl in *.
    destruct r, rs; simpl in *; rewrite C', L', <- C, <- L;
      repeat split; lia.
Qed.

(** The calls of a restore that come before the entry in the activity
    log. *)
Lemma quiet_restore_updates (fileId nowISO : string)
  (vs : list VersionHistory.FileVersion)
  (version : VersionHistory.FileVersion) :
  Effects.quiet
    (Blink.bind
       (Blink.promise_all
          (map (fun v => Blink.fileVersions_update (VersionHistory.id v)
                           (VersionHistory.set_is_current "0")) vs))
       (fun _ =>
          Blink.bind
            (Blink.fileVersions_update (VersionHistory.id version)
               (VersionHistory.set_is_current "1"))
            (fun _ =>
               Blink.files_update fileId
                 (VersionHistory.set_restored version nowISO)))).
Proof.
  apply quiet_bind.
  - apply quiet_promise_all, Forall_forall. intros c Hc.
    apply in_map_iff in Hc. destruct Hc as [v [<- _]].
    apply quiet_fileVersions_update.
  - intros _. apply quiet_bind; [apply quiet_fileVersions_update|].
    intros _. apply quiet_files_update.
Qed.

(** A restore, cut in two: the updates of the store, then the entry in
    the activity log and the callbacks. *)
Lemma handleRestore_eq (fileId : string) (st : VersionHistory.State)
  (now : N) (nowISO : string) (version : VersionHistory.FileVersion)
  (w : Blink.World) :
  VersionHistory.handleRestore fileId true st now nowISO version w
  = match
      Blink.bind
        (Blink.promise_all
           (map (fun v => Blink.fileVersions_update (VersionHistory.id v)
                            (VersionHistory.set_is_current "0"))
                (VersionHistory.versions st)))
        (fun _ =>
           Blink.bind
             (Blink.fileVersions_update (VersionHistory.id version)
                (VersionHistory.set_is_current "1"))
             (fun _ =>
                Blink.files_update fileId
                  (VersionHistory.set_restored version nowISO))) w
    with
    | (Blink.Return _, w1) =>
        Blink.try_catch
          (Blink.bind
             (Blink.activityLog_create
                {| Blink.a_id := ("activity_" ++ JS.string_of_N now)%string;
                   Blink.a_organization_id := "org_sample";
                   Blink.a_file_id := fileId;
                   Blink.a_user_id :=
                     VersionHistory.user_or_unknown
                       (VersionHistory.currentUser st);
                   Blink.a_action := "restore";
                   Blink.a_details :=
                     ("Restored to version "
                        ++ VersionHistory.version_label version)%string |})
             (fun _ =>
                Blink.bind
                  (Blink.call_back
                     (Blink.OnRestore (VersionHistory.id version)))
                  (fun _ => Blink.call_back Blink.OnClose)))
          (Blink.ret tt) w1
    | (Blink.Throw, w1) => (Blink.Return tt, w1)
    end.
Proof.
  unfold VersionHistory.handleRestore.
  change (negb true) with false. cbv iota.
  unfold Blink.try_catch, Blink.bind.
  destruct (Blink.promise_all _ w) as [[a|] w1]; [|reflexivity].
  destruct (Blink.fileVersions_update _ _ w1) as [[b|] w2]; [|reflexivity].
  destruct (Blink.files_update _ _ w2) as [[c|] w3]; reflexivity.
Qed.

(** X22.  [handleRestore] never throws.  The two callbacks are called, in
    the order [onRestore], [onClose], exactly when none of its calls to the
    store was rejected, and then exactly one entry has been added to the
    activity log; after a rejection neither callback is called and nothing
    is logged. *)
Theorem handleRestore_callbacks (fileId : string) (st : VersionHistory.State)
  (now : N) (nowISO : string) (version : VersionHistory.FileVersion)
  (w : Blink.World) :
  let run :=
    VersionHistory.handleRestore fileId true st now nowISO version w in
  fst run = Blink.Return tt /\
  (Blink.rejected (snd run) = Blink.rejected w ->
   Blink.callbacks (snd run)
   = Blink.callbacks w
       ++ [Blink.OnRestore (VersionHistory.id version); Blink.OnClose] /\
   exists entry,
     Blink.activityLog (snd run) = Blink.activityLog w ++ [entry] /\
     Blink.a_action entry = "restore" /\
     Blink.a_file_id entry = fileId) /\
  (Blink.rejected (snd run) <> Blink.rejected w ->
   Blink.callbacks (snd run) = Blink.callbacks w /\
   Blink.activityLog (snd run) = Blink.activityLog w).
Proof.
  cbv zeta. rewrite handleRestore_eq.
  destruct (quiet_restore_updates fileId nowISO
              (VersionHistory.versions st) version w) as (C & L & R).
  match type of C with
  | Blink.callbacks (snd ?m) = _ => destruct m as [[a|] w1]
  end; simpl in C, L, R.
  - unfold Blink.try_catch, Blink.bind, Blink.activityLog_create,
      Blink.call_back, Blink.remote, Blink.reject, Blink.ret.
    destruct w1 as [fs fvs al ai flt rej cnt cbs]. simpl in *.
    rewrite <- C, <- L, <- R.
    destruct flt as [|[|] flt]; simpl.
    + split; [reflexivity|]. split.
      * intros _. split; [now rewrite <- app_assoc|].
        eexists. split; [reflexivity|]. split; reflexivity.
      * congruence.
    + split; [reflexivity|]. split; [lia|auto].
    + split; [reflexivity|]. split.
      * intros _. split; [now rewrite <- app_assoc|].
        eexists. split; [reflexivity|]. split; reflexivity.
      * congruence.
  - simpl. split; [reflexivity|]. split; [lia|auto].
Qed.

(** *** What a restore leaves alone *)

Lemma same_file_but_restored_refl (fileId : string) (f : Blink.FileRow) :
  Effects.same_file_but_restored fileId f f.
Proof. unfold Effects.same_file_but_restored. repeat split. Qed.

Lemma same_file_but_restored_trans (fileId : string)
  (f1 f2 f3 : Blink.FileRow) :
  Effects.same_file_but_restored fileId f1 f2 ->
  Effects.same_file_but_restored fileId f2 f3 ->
  Effects.same_file_but_restored fileId f1 f3.
Proof.
  unfold Effects.same_file_but_restored.
  intros (A1 & A2 & A3 & A4 & A5 & A6 & A7 & A8 & A9 & A10)
         (B1 & B2 & B3 & B4 & B5 & B6 & B7 & B8 & B9 & B10).
  repeat split; try congruence.
  intros E. rewrite <- A2 in E. rewrite (B1 E). apply A1.
  now rewrite A2 in E.
Qed.

Lemma Forall2_same {X : Type} (R : X -> X -> Prop) (l : list X) :
  (forall x, R x x) -> Forall2 R l l.
Proof. intros H. induction l; constructor; auto. Qed.

Lemma Forall2_compose {X : Type} (R : X -> X -> Prop) (l1 l2 l3 : list X) :
  (forall x y z, R x y -> R y z -> R x z) ->
  Forall2 R l1 l2 -> Forall2 R l2 l3 -> Forall2 R l1 l3.
Proof.
  intros Ht H12. revert l3.
  induction H12 as [|x y l1 l2 Hxy _ IH]; intros l3 H23;
    inversion H23; subst; constructor; eauto.
Qed.

Lemma restore_frame_refl (fileId : string) (w : Blink.World) :
  Effects.restore_frame fileId w w.
Proof.
  unfold Effects.restore_frame. repeat split.
  - apply Forall2_same, same_file_but_restored_refl.
  - exists []. now rewrite app_nil_r.
  - exists []. now rewrite app_nil_r.
Qed.

Lemma restore_frame_same (fileId : string) (w w' : Blink.World) :
  Blink.files w' = Blink.files w ->
  Blink.fileVersions w' = Blink.fileVersions w ->
  Blink.activityLog w' = Blink.activityLog w ->
  Blink.callbacks w' = Blink.callbacks w ->
  Blink.ai_objects w' = Blink.ai_objects w ->
  Effects.restore_frame fileId w w'.
Proof.
  intros E1 E2 E3 E4 E5. unfold Effects.restore_frame.
  rewrite E1, E2, E3, E4, E5. apply restore_frame_refl.
Qed.

Lemma restore_frame_trans (fileId : string) (w1 w2 w3 : Blink.World) :
  Effects.restore_frame fileId w1 w2 ->
  Effects.restore_frame fileId w2 w3 ->
  Effects.restore_frame fileId w1 w3.
Proof.
  intros (A1 & A2 & [l1 A3] & [c1 A4] & A5) (B1 & B2 & [l2 B3] & [c2 B4] & B5).
  unfold Effects.restore_frame. repeat split.
  - congruence.
  - eapply Forall2_compose; eauto. apply same_file_but_restored_trans.
  - exists (l1 ++ l2). rewrite B3, A3. now rewrite app_assoc.
  - exists (c1 ++ c2). rewrite B4, A4. now rewrite app_assoc.
  - congruence.
Qed.

(** A relation on worlds that every step keeps is kept by the whole. *)
Section Kept.

Variable R : Blink.World -> Blink.World -> Prop.
Hypothesis R_refl : forall w, R w w.
Hypothesis R_trans : forall w1 w2 w3, R w1 w2 -> R w2 w3 -> R w1 w3.

Lemma bind_keeps {A B : Type} (m : Blink.Async A) (k : A -> Blink.Async B) :
  (forall w, R w (snd (m w))) ->
  (forall a w, R w (snd (k a w))) ->
  forall w, R w (snd (Blink.bind m k w)).
Proof.
  intros Hm Hk w. unfold Blink.bind. specialize (Hm w).
  destruct (m w) as [[a|] w1]; simpl in *; [|exact Hm].
  eapply R_trans; [exact Hm|apply Hk].
Qed.

Lemma try_catch_keeps {A : Type} (body handler : Blink.Async A) :
  (forall w, R w (snd (body w))) ->
  (forall w, R w (snd (handler w))) ->
  forall w, R w (snd (Blink.try_catch body handler w)).
Proof.
  intros Hb Hh w. unfold Blink.try_catch. specialize (Hb w).
  destruct (body w) as [[a|] w1]; simpl in *; [exact Hb|].
  eapply R_trans; [exact Hb|apply Hh].
Qed.

Lemma promise_all_keeps {A : Type} (calls : list (Blink.Async A)) :
  Forall (fun call => forall w, R w (snd (call w))) calls ->
  forall w, R w (snd (Blink.promise_all calls w)).
Proof.
  induction 1 as [|call calls Hc _ IH]; intros w; simpl; [apply R_refl|].
  specialize (Hc w). destruct (call w) as [r w1]. simpl in Hc.
  specialize (IH w1). destruct (Blink.promise_all calls w1) as [rs w2].
  simpl in IH.
  destruct r, rs; simpl; eapply R_trans; eauto.
Qed.

End Kept.

Lemma frame_fileVersions_update (fileId id x : string) (w : Blink.World) :
  Effects.restore_frame fileId w
    (snd (Blink.fileVersions_update id (VersionHistory.set_is_current x) w)).
Proof.
  unfold Blink.fileVersions_update, Blink.remote, Blink.reject.
  assert (H : forall w0 : Blink.World,
             Effects.restore_frame fileId w0
               (snd
                  match
                    Blink.table_update Blink.fv_id id
                      (VersionHistory.set_is_current x) (Blink.fileVersions w0)
                  with
                  | Some table =>
                      (Blink.Return tt, Blink.set_fileVersions table w0)
                  | None =>
                      if Blink.update_rejects_unknown_id w0
                      then (@Blink.Throw unit,
                            Blink.set_rejected (S (Blink.rejected w0)) w0)
                      else (Blink.Return tt, w0)
                  end)).
  { intros w0. unfold Blink.table_update.
    destruct (existsb _ _).
    - simpl. unfold Effects.restore_frame. simpl. repeat split.
      + rewrite map_map. apply map_ext. intros r.
        destruct (Blink.fv_id r =? id)%string; reflexivity.
      + apply Forall2_same, same_file_but_restored_refl.
      + exists []. now rewrite app_nil_r.
      + exists []. now rewrite app_nil_r.
    - destruct (Blink.update_rejects_unknown_id w0); simpl;
        apply restore_frame_same; reflexivity. }
  destruct (Blink.faults w) as [|[|] rest] eqn:E.
  - apply H.
  - apply restore_frame_same; reflexivity.
  - apply (restore_frame_trans _ _ (Blink.set_faults rest w));
      [apply restore_frame_same; reflexivity|apply H].
Qed.

Lemma frame_files_update (fileId nowISO : string)
  (version : VersionHistory.FileVersion) (w : Blink.World) :
  Effects.restore_frame fileId w
    (snd (Blink.files_update fileId
            (VersionHistory.set_restored version nowISO) w)).
Proof.
  unfold Blink.files_update, Blink.remote, Blink.reject.
  assert (H : forall w0 : Blink.World,
             Effects.restore_frame fileId w0
               (snd
                  match
                    Blink.table_update Blink.f_id fileId
                      (VersionHistory.set_restored version nowISO)
                      (Blink.files w0)
                  with
                  | Some table => (Blink.Return tt, Blink.set_files table w0)
                  | None =>
                      if Blink.update_rejects_unknown_id w0
                      then (@Blink.Throw unit,
                            Blink.set_rejected (S (Blink.rejected w0)) w0)
                      else (Blink.Return tt, w0)
                  end)).
  { intros w0. unfold Blink.table_update.
    destruct (existsb _ _).
    - simpl. unfold Effects.restore_frame. simpl. repeat split.
      + induction (Blink.files w0) as [|f l IH]; simpl; constructor; auto.
        destruct (Blink.f_id f =? fileId)%string eqn:E.
        * unfold Effects.same_file_but_restored. repeat split.
          intros F. congruence.
        * apply same_file_but_restored_refl.
      + exists []. now rewrite app_nil_r.
      + exists []. now rewrite app_nil_r.
    - destruct (Blink.update_rejects_unknown_id w0); simpl;
        apply restore_frame_same; reflexivity. }
  destruct (Blink.faults w) as [|[|] rest] eqn:E.
  - apply H.
  - apply restore_frame_same; reflexivity.
  - apply (restore_frame_trans _ _ (Blink.set_faults rest w));
      [apply restore_frame_same; reflexivity|apply H].
Qed.

Lemma frame_activityLog_create (fileId : string) (entry : Blink.ActivityRow)
  (w : Blink.World) :
  Effects.restore_frame fileId w (snd (Blink.activityLog_create entry w)).
Proof.
  unfold Blink.activityLog_create, Blink.remote, Blink.reject.
  destruct (Blink.faults w) as [|[|] rest]; simpl;
    unfold Effects.restore_frame; simpl; repeat split;
    try (apply Forall2_same, same_file_but_restored_refl);
    try (exists [entry]; reflexivity);
    try (exists []; now rewrite app_nil_r).
Qed.

Lemma frame_call_back (fileId : string) (c : Blink.Callback)
  (w : Blink.World) :
  Effects.restore_frame fileId w (snd (Blink.call_back c w)).
Proof.
  unfold Blink.call_back. simpl.
  unfold Effects.restore_frame; simpl; repeat split;
    try (apply Forall2_same, same_file_but_restored_refl);
    try (exists [c]; reflexivity);
    try (exists []; now rewrite app_nil_r).
Qed.

(** X23.  In any world, with any calls rejected, [handleRestore] creates
    and deletes no row; in [fileVersions] it changes nothing but
    [is_current] marks; in [files] it changes nothing but the label, path,
    size and update time of the file restored.  It never changes an
    [is_latest_version]. *)
Theorem handleRestore_frame (fileId : string) (onRestore : bool)
  (st : VersionHistory.State) (now : N) (nowISO : string)
  (version : VersionHistory.FileVersion) (w : Blink.World) :
  let w' :=
    snd (VersionHistory.handleRestore fileId onRestore st now nowISO
           version w) in
  Effects.restore_frame fileId w w' /\
  map Blink.f_id (Blink.files w') = map Blink.f_id (Blink.files w) /\
  map Blink.f_is_latest_version (Blink.files w')
  = map Blink.f_is_latest_version (Blink.files w) /\
  map Blink.fv_id (Blink.fileVersions w')
  = map Blink.fv_id (Blink.fileVersions w).
Proof.
  intros w'.
  assert (H : Effects.restore_frame fileId w w').
  { subst w'. unfold VersionHistory.handleRestore.
    destruct onRestore; simpl negb; cbv iota; [|apply restore_frame_refl].
    pose proof (restore_frame_refl fileId) as Hr.
    pose proof (restore_frame_trans fileId) as Ht.
    apply (try_catch_keeps _ Ht); [|intros; apply restore_frame_refl].
    apply (bind_keeps _ Ht).
    { apply (promise_all_keeps _ Hr Ht), Forall_forall.
      intros c Hc. apply in_map_iff in Hc. destruct Hc as [v [<- _]].
      apply frame_fileVersions_update. }
    intros _. apply (bind_keeps _ Ht).
    { apply frame_fileVersions_update. }
    intros _. apply (bind_keeps _ Ht).
    { apply frame_files_update. }
    intros _. apply (bind_keeps _ Ht).
    { apply frame_activityLog_create. }
    intros _. apply (bind_keeps _ Ht); [apply frame_call_back|].
    intros _. apply frame_call_back. }
  split; [exact H|].
  destruct H as (Hv & Hf & _).
  assert (Hid : map Blink.f_id (Blink.files w') = map Blink.f_id (Blink.files w)
                /\ map Blink.f_is_latest_version (Blink.files w')
                   = map Blink.f_is_latest_version (Blink.files w)).
  { induction Hf as [|f f' l l' Hff _ IH]; [split; reflexivity|].
    destruct IH as [IH1 IH2].
    destruct Hff as (_ & E1 & _ & _ & _ & _ & _ & _ & E2 & _).
    simpl. rewrite IH1, IH2, E1, E2. split; reflexivity. }
  destruct Hid as [H1 H2]. split; [exact H1|]. split; [exact H2|].
  apply (f_equal (map Blink.fv_id)) in Hv.
  rewrite !map_map in Hv. exact Hv.
Qed.

(** *** A restore that is rejected midway *)

Lemma fileVersions_update_lenient (id : string)
  (fields : Blink.FileVersionRow -> Blink.FileVersionRow) (w : Blink.World)
  (rest : list bool) :
  Blink.faults w = false :: rest ->
  Blink.update_rejects_unknown_id w = false ->
  Blink.fileVersions_update id fields w
  = (Blink.Return tt,
     Blink.set_faults rest
       (Blink.set_fileVersions
          (map (fun r => if (Blink.fv_id r =? id)%string then fields r else r)
               (Blink.fileVersions w)) w)).
Proof.
  intros Hf Hl. unfold Blink.fileVersions_update, Blink.remote.
  rewrite Hf.
  pose proof (table_update_map Blink.fv_id id fields (Blink.fileVersions w))
    as Hm.
  destruct w as [fs fvs al ai flt rej cnt cbs]. simpl in *. subst.
  destruct (Blink.table_update Blink.fv_id id fields fvs).
  - subst. reflexivity.
  - simpl. unfold Blink.set_faults, Blink.set_fileVersions. simpl.
    rewrite <- Hm. reflexivity.
Qed.

Lemma promise_all_lenient (vs : list VersionHistory.FileVersion) :
  forall (w : Blink.World) (rest : list bool),
    Blink.faults w = repeat false (List.length vs) ++ rest ->
    Blink.update_rejects_unknown_id w = false ->
    Blink.promise_all
      (map (fun v => Blink.fileVersions_update (VersionHistory.id v)
                       (VersionHistory.set_is_current "0")) vs) w
    = (Blink.Return (map (fun _ => tt) vs),
       Blink.set_faults rest
         (Blink.set_fileVersions
            (map (VersionHistory.cleared vs) (Blink.fileVersions w)) w)).
Proof.
  induction vs as [|v vs IH]; intros w rest Hf Hl.
  - simpl in *. unfold VersionHistory.cleared. simpl. rewrite map_id.
    destruct w; simpl in *; subst; reflexivity.
  - cbn [map Blink.promise_all].
    rewrite (fileVersions_update_lenient _ _ w
               (repeat false (List.length vs) ++ rest) Hf Hl).
    rewrite (IH _ rest) by (destruct w; simpl in *; auto).
    destruct w; simpl. rewrite map_map. reflexivity.
Qed.

(** X24.  The restore is not atomic.  In a store that ignores updates of
    unknown ids, if the updates that clear the marks are answered and the
    one that marks the chosen version is rejected, every version on screen
    is left not current in the store, none is marked, the file row and the
    activity log are untouched, and no callback is called. *)
Theorem handleRestore_rejected_midway (fileId : string)
  (st : VersionHistory.State) (now : N) (nowISO : string)
  (version : VersionHistory.FileVersion) (w : Blink.World)
  (rest : list bool) :
  Blink.faults w
  = repeat false (List.length (VersionHistory.versions st)) ++ true :: rest ->
  Blink.update_rejects_unknown_id w = false ->
  let run :=
    VersionHistory.handleRestore fileId true st now nowISO version w in
  fst run = Blink.Return tt /\
  Blink.fileVersions (snd run)
  = map (VersionHistory.cleared (VersionHistory.versions st))
        (Blink.fileVersions w) /\
  (forall r, In r (Blink.fileVersions (snd run)) ->
             In (Blink.fv_id r)
                (map VersionHistory.id (VersionHistory.versions st)) ->
             Blink.fv_is_current r = "0") /\
  Blink.files (snd run) = Blink.files w /\
  Blink.activityLog (snd run) = Blink.activityLog w /\
  Blink.callbacks (snd run) = Blink.callbacks w.
Proof.
  intros Hf Hl.
  assert (E : VersionHistory.handleRestore fileId true st now nowISO version w
              = (Blink.Return tt,
                 Blink.set_rejected (S (Blink.rejected w))
                   (Blink.set_faults rest
                      (Blink.set_fileVersions
                         (map (VersionHistory.cleared
                                 (VersionHistory.versions st))
                              (Blink.fileVersions w)) w)))).
  { rewrite handleRestore_eq. unfold Blink.bind at 1.
    rewrite (promise_all_lenient _ w (true :: rest) Hf Hl).
    unfold Blink.bind, Blink.fileVersions_update, Blink.remote, Blink.reject.
    destruct w as [fs fvs al ai flt rej cnt cbs]. reflexivity. }
  cbv zeta. rewrite E. clear E.
  destruct w as [fs fvs al ai flt rej cnt cbs]. simpl in *.
  split; [reflexivity|]. split; [reflexivity|]. split; [|repeat split].
  intros r Hr Hid. apply in_map_iff in Hr. destruct Hr as [r0 [<- _]].
  apply cleared_is_current. now rewrite cleared_id in Hid.
Qed.

Lemma handleRestore_rejected_midway_witness :
  map Blink.fv_is_current
    (Blink.fileVersions
       (snd (VersionHistory.handleRestore "file_1" true
               MoreExamples.plain_screen 1706745600000
               "2024-02-01T00:00:00.000Z" Scenario.V1
               MoreExamples.failing_world))) = ["0"; "0"] /\
  Blink.callbacks
    (snd (VersionHistory.handleRestore "file_1" true
            MoreExamples.plain_screen 1706745600000
            "2024-02-01T00:00:00.000Z" Scenario.V1
            MoreExamples.failing_world)) = [].
Proof.
  destruct (handleRestore_rejected_midway "file_1" MoreExamples.plain_screen
              1706745600000 "2024-02-01T00:00:00.000Z" Scenario.V1
              MoreExamples.failing_world [] eq_refl eq_refl)
    as (_ & E & _ & _ & _ & C).
  split; [rewrite E; reflexivity | exact C].
Defined.

Lemma mergeVersions_newest_first_witness :
  Effects.newest_first MoreExamples.clock
    (VersionHistory.mergeVersions MoreExamples.clock
       [Scenario.version_1] [Scenario.root_file]).
Proof.
  apply mergeVersions_newest_first.
  - intros r [<-|[]]. discriminate.
  - intros f [<-|[]]. discriminate.
Defined.

Lemma restore_when_no_file_is_latest_witness :
  Blink.callbacks
    (snd (VersionHistory.handleRestore "file_1" true MoreExamples.plain_screen
            1706745600000 "2024-02-01T00:00:00.000Z"
            (VersionHistory.of_version Scenario.version_1)
            MoreExamples.plain_world))
  = [Blink.OnRestore "version_1"; Blink.OnClose].
Proof.
  destruct (restore_when_no_file_is_latest MoreExamples.clock "file_1"
              MoreExamples.plain_screen 1706745600000
              "2024-02-01T00:00:00.000Z" MoreExamples.plain_world
              Scenario.version_1) as [C _].
  - split; reflexivity.
  - reflexivity.
  - left. reflexivity.
  - reflexivity.
  - intros f [<-|[]] _. discriminate.
  - exact C.
Defined.

(** ** Sizes and their units *)

(** The integer logarithm is determined by the two powers around the
    number. *)
Lemma floor_log_pos_unique (k : Z) (q : Q) (u : Z) :
  (2 <= k)%Z ->
  (inject_Z k ^ u <= q)%Q -> (q < inject_Z k ^ (u + 1))%Q ->
  JS.floor_log_pos k q = u.
Proof.
  intros Hk Hl Hu.
  assert (H1 : (1 < inject_Z k)%Q).
  { change 1%Q with (inject_Z 1). rewrite <- Zlt_Qlt. lia. }
  assert (Hq : (0 < q)%Q).
  { eapply Qlt_le_trans; [|exact Hl]. apply Qpower_0_lt.
    eapply Qlt_trans; [|exact H1]. reflexivity. }
  destruct (floor_log_pos_spec k q Hk Hq) as [Li Ui].
  set (i := JS.floor_log_pos k q) in *.
  assert (A : (i < u + 1)%Z).
  { apply (Qpower_lt_compat_l_inv (inject_Z k)); [|exact H1].
    eapply Qle_lt_trans; eauto. }
  assert (B : (u < i + 1)%Z).
  { apply (Qpower_lt_compat_l_inv (inject_Z k)); [|exact H1].
    eapply Qle_lt_trans; eauto. }
  lia.
Qed.

Lemma Qfloor_half (a : Z) : Qfloor (inject_Z a + (1 # 2)) = a.
Proof.
  unfold Qfloor, Qplus, inject_Z. simpl.
  replace (a * 2 + 1)%Z with (1 + a * 2)%Z by lia.
  rewrite Z.div_add by lia. reflexivity.
Qed.

Lemma hundredths_of_Z (q : Q) (m : Z) :
  (0 <= m)%Z -> (q == inject_Z m)%Q -> JS.hundredths q = (100 * m)%Z.
Proof.
  intros Hm E. unfold JS.hundredths.
  rewrite <- (Qfloor_half (100 * m)). apply Qfloor_comp.
  rewrite E, Qabs_pos.
  - rewrite inject_Z_mult. ring.
  - change 0%Q with (inject_Z 0). rewrite <- Zle_Qle. exact Hm.
Qed.

Lemma string_append_nil_r (s : string) : (s ++ EmptyString)%string = s.
Proof. induction s as [|c s IH]; simpl; congruence. Qed.

(** A whole number below 10^19 prints as its digits. *)
Lemma string_of_whole (q : Q) (m : N) :
  (q == inject_Z (Z.of_N m))%Q ->
  JS.string_of_parseFloat_toFixed2 (JS.Fin q) = JS.string_of_N m.
Proof.
  intros E. unfold JS.string_of_parseFloat_toFixed2.
  rewrite (hundredths_of_Z q (Z.of_N m)) by (auto; lia).
  assert (Hs : (Qnum q <? 0)%Z = false).
  { apply Z.ltb_ge. unfold Qeq, inject_Z in E. simpl in E.
    assert (0 <= Qnum q * 1)%Z by (rewrite E; lia). lia. }
  rewrite Hs. cbn [andb].
  replace (Z.to_N (100 * Z.of_N m)) with (m * 100)%N by lia.
  rewrite N.div_mul by lia. rewrite N.Div0.mod_mul.
  cbn [N.eqb]. simpl. apply string_append_nil_r.
Qed.

Lemma index_of_nat {X : Type} (a : list X) (u : nat) :
  JS.index a (JS.of_nat u) = nth_error a u.
Proof.
  unfold JS.index, JS.of_nat, JS.of_Z.
  rewrite Qfloor_Z.
  assert (E : Qeq_bool (inject_Z (Z.of_nat u)) (inject_Z (Z.of_nat u)) = true)
    by (apply Qeq_bool_iff; reflexivity).
  rewrite E.
  assert (P : (0 <=? Z.of_nat u)%Z = true) by (apply Z.leb_le; lia).
  rewrite P. simpl. now rewrite Nat2Z.id.
Qed.

(** X25.  [formatFileSize] prints a whole multiple [m * 1024^u] of a unit,
    [1 <= m < 1024], as [m], a space and the unit: Bytes, KB, MB or GB for
    [u] up to 3, and the word undefined from 1024^4 on, for which the list
    of units has no name.  With [u] up to 101 the number is one that a
    double holds. *)
Theorem formatFileSize_whole_units (m : N) (u : nat) :
  (1 <= m < 1024)%N -> u <= 101 ->
  FileUpload.formatFileSize (JS.of_N (m * 1024 ^ N.of_nat u))
  = (JS.string_of_N m ++ " "
       ++ JS.string_of_element
            (nth_error ["Bytes"; "KB"; "MB"; "GB"] u))%string.
Proof.
  intros Hm _. unfold FileUpload.formatFileSize.
  set (z := Z.of_N (m * 1024 ^ N.of_nat u)).
  assert (Ez : z = (Z.of_N m * 1024 ^ Z.of_nat u)%Z).
  { unfold z. rewrite N2Z.inj_mul, N2Z.inj_pow, nat_N_Z. reflexivity. }
  assert (Hp : (0 < 1024 ^ Z.of_nat u)%Z) by (apply Z.pow_pos_nonneg; lia).
  assert (Hz : (0 < z)%Z) by (rewrite Ez; nia).
  unfold JS.of_N, JS.of_Z. fold z.
  assert (Z0 : JS.Qis_zero (inject_Z z) = false).
  { unfold JS.Qis_zero. simpl. apply Z.eqb_neq. lia. }
  assert (Zp : JS.Qsign_pos (inject_Z z) = true).
  { unfold JS.Qsign_pos. simpl. apply Z.ltb_lt. lia. }
  unfold JS.is_zero. rewrite Z0.
  unfold JS.floor_log. rewrite Z0, Zp.
  assert (Pw : (inject_Z 1024 ^ Z.of_nat u == inject_Z (1024 ^ Z.of_nat u))%Q).
  { symmetry. apply Zpower_Qpower. lia. }
  assert (El : JS.floor_log_pos 1024 (inject_Z z) = Z.of_nat u).
  { apply floor_log_pos_unique; [lia| |].
    - rewrite Pw, <- Zle_Qle. rewrite Ez. nia.
    - assert (Pw' : (inject_Z 1024 ^ (Z.of_nat u + 1)
                     == inject_Z (1024 ^ (Z.of_nat u + 1)))%Q).
      { symmetry. apply Zpower_Qpower. lia. }
      rewrite Pw', <- Zlt_Qlt, Ez.
      rewrite Z.pow_add_r by lia. change (1024 ^ 1)%Z with 1024%Z. nia. }
  rewrite El.
  change (JS.of_Z (Z.of_nat u)) with (JS.of_nat u).
  rewrite index_of_nat.
  unfold JS.pow, JS.of_nat, JS.of_Z. rewrite Qfloor_Z.
  unfold JS.div.
  assert (Hr : (Qred (inject_Z 1024 ^ Z.of_nat u)
                == inject_Z (1024 ^ Z.of_nat u))%Q).
  { rewrite Qred_correct. exact Pw. }
  assert (Zr : JS.Qis_zero (Qred (inject_Z 1024 ^ Z.of_nat u)) = false).
  { unfold JS.Qis_zero. apply Z.eqb_neq. intros F.
    assert (G : (Qred (inject_Z 1024 ^ Z.of_nat u) == 0)%Q).
    { unfold Qeq. rewrite F. reflexivity. }
    rewrite Hr in G. unfold Qeq, inject_Z in G. simpl in G. lia. }
  rewrite Zr.
  rewrite (string_of_whole _ m); [reflexivity|].
  rewrite Qred_correct, Hr, Ez, inject_Z_mult.
  field. unfold Qeq, inject_Z. simpl. lia.
Qed.

Lemma formatFileSize_whole_units_witness :
  FileUpload.formatFileSize (JS.of_N 5242880) = "5 MB" /\
  FileUpload.formatFileSize (JS.of_N 3298534883328) = "3 undefined".
Proof.
  split.
  - apply (formatFileSize_whole_units 5 2); lia.
  - apply (formatFileSize_whole_units 3 4); lia.
Defined.

(** The three copies of [formatFileSize] agree on every number but NaN,
    which the Dashboard copy alone prints as 0 Bytes; the Dashboard copy
    treats a string as the number it converts to. *)
Lemma formatFileSize_copies_agree (StringToNumber : string -> JS.number)
  (x : JS.number) :
  x <> JS.NaN ->
  VersionHistory.formatFileSize x = FileUpload.formatFileSize x /\
  Dashboard.formatFileSize StringToNumber (JS.Num x)
  = FileUpload.formatFileSize x /\
  (forall s, s <> EmptyString -> StringToNumber s = x ->
     Dashboard.formatFileSize StringToNumber (JS.Str s)
     = FileUpload.formatFileSize x) /\
  Dashboard.formatFileSize StringToNumber (JS.Num JS.NaN)
  <> FileUpload.formatFileSize JS.NaN.
Proof.
  intros Hx. split; [reflexivity|]. split; [|split].
  - unfold Dashboard.formatFileSize, FileUpload.formatFileSize. simpl.
    destruct x; try congruence; reflexivity.
  - intros s Hs E.
    unfold Dashboard.formatFileSize, FileUpload.formatFileSize. simpl.
    rewrite E.
    destruct (String.eqb_spec s EmptyString) as [F|_]; [contradiction|].
    destruct x; try congruence; reflexivity.
  - discriminate.
Qed.

(** X26.  [formatFileSize] has no guard for what is not a size: a negative
    number and either infinity print as NaN undefined in all three
    copies. *)
Theorem formatFileSize_not_a_size (StringToNumber : string -> JS.number)
  (x : JS.number) :
  x = JS.PInf \/ x = JS.NInf \/ (exists q, x = JS.Fin q /\ (q < 0)%Q) ->
  FileUpload.formatFileSize x = "NaN undefined" /\
  VersionHistory.formatFileSize x = "NaN undefined" /\
  Dashboard.formatFileSize StringToNumber (JS.Num x) = "NaN undefined".
Proof.
  intros [->|[->|[q [-> Hq]]]]; try (repeat split; reflexivity).
  assert (Hn : (Qnum q < 0)%Z).
  { unfold Qlt in Hq. simpl in Hq. lia. }
  assert (Z0 : JS.Qis_zero q = false).
  { unfold JS.Qis_zero. apply Z.eqb_neq. lia. }
  assert (Zp : JS.Qsign_pos q = false).
  { unfold JS.Qsign_pos. apply Z.ltb_ge. lia. }
  unfold FileUpload.formatFileSize, VersionHistory.formatFileSize,
    Dashboard.formatFileSize.
  simpl. rewrite Z0, Zp. repeat split; reflexivity.
Qed.

Lemma formatFileSize_not_a_size_witness :
  FileUpload.formatFileSize (JS.of_Z (-1)) = "NaN undefined".
Proof.
  apply (formatFileSize_not_a_size JS.decimal_StringToNumber (JS.of_Z (-1))).
  right. right. exists (inject_Z (-1)). split; reflexivity.
Defined.

(** ** The list of files of the dashboard *)

(** *** Dates *)

Lemma Qceiling_div (d D : Z) :
  (0 < D)%Z -> Qceiling (inject_Z d / inject_Z D) = (- ((- d) / D))%Z.
Proof.
  intros HD. unfold Qceiling. f_equal.
  rewrite Zdiv_Qdiv. apply Qfloor_comp.
  rewrite inject_Z_opp. field.
  unfold Qeq, inject_Z. simpl. lia.
Qed.

(** X27.  [formatDate] of the dashboard looks only at the distance in time
    between the date and now, in either direction: up to 24 hours is
    Today, up to 48 hours Yesterday, up to seven days [n - 1] days ago for
    the [n]-th day begun, and beyond that the date in the browser's
    format.  A date that is exactly now prints as -1 days ago. *)
Theorem formatDate_days (getTime : string -> option Z)
  (toLocaleDateString : string -> string) (now date : Z)
  (dateString : string) :
  dateString <> EmptyString -> dateString <> "null" ->
  getTime dateString = Some date ->
  let shown :=
    DashboardPage.formatDate getTime toLocaleDateString now
      (Some dateString) in
  let distance := Z.abs (now - date) in
  let day := 86400000%Z in
  (distance = 0%Z -> shown = "-1 days ago") /\
  ((0 < distance <= day)%Z -> shown = "Today") /\
  ((day < distance <= 2 * day)%Z -> shown = "Yesterday") /\
  (forall n : Z,
      (3 <= n <= 7)%Z -> ((n - 1) * day < distance <= n * day)%Z ->
      shown = (JS.string_of_Z (n - 1) ++ " days ago")%string) /\
  ((7 * day < distance)%Z -> shown = toLocaleDateString dateString).
Proof.
  intros Hne Hnull Ht shown distance day.
  unfold shown, DashboardPage.formatDate.
  destruct (String.eqb_spec dateString EmptyString) as [E|_];
    [contradiction|].
  destruct (String.eqb_spec dateString "null") as [E|_]; [contradiction|].
  cbn [orb]. rewrite Ht. cbv zeta.
  change (1000 * 60 * 60 * 24)%Z with 86400000%Z.
  rewrite Qceiling_div by lia.
  fold distance.
  set (days := (- (- distance / 86400000))%Z).
  assert (Hd : (86400000 * (days - 1) < distance <= 86400000 * days)%Z).
  { unfold days.
    pose proof (Z.div_mod (- distance) 86400000 ltac:(lia)) as H.
    pose proof (Z.mod_pos_bound (- distance) 86400000 ltac:(lia)) as B.
    lia. }
  unfold day. repeat split.
  - intros H0. assert (days = 0%Z) by lia.
    replace days with 0%Z by lia. reflexivity.
  - intros H1. replace days with 1%Z by lia. reflexivity.
  - intros H2. replace days with 2%Z by lia. reflexivity.
  - intros n Hn H3. replace days with n by lia.
    destruct (Z.eqb_spec n 1); [lia|].
    destruct (Z.eqb_spec n 2); [lia|].
    destruct (Z.leb_spec n 7); [reflexivity|lia].
  - intros H7.
    destruct (Z.eqb_spec days 1); [lia|].
    destruct (Z.eqb_spec days 2); [lia|].
    destruct (Z.leb_spec days 7); [lia|reflexivity].
Qed.

Lemma formatDate_days_witness :
  DashboardPage.formatDate MoreExamples.clock (fun s => s) 1706745600000
    (Some "2024-02-01T00:00:00.000Z") = "-1 days ago".
Proof.
  destruct (formatDate_days MoreExamples.clock (fun s => s) 1706745600000
              1706745600000 "2024-02-01T00:00:00.000Z")
    as [H _].
  - discriminate.
  - discriminate.
  - reflexivity.
  - apply H. reflexivity.
Defined.

(** *** The search box *)

Lemma prefix_nil (s : string) : String.prefix EmptyString s = true.
Proof. destruct s; reflexivity. Qed.

Lemma prefix_iff (p s : string) :
  String.prefix p s = true <-> exists b, s = (p ++ b)%string.
Proof.
  revert s. induction p as [|c p IH]; intros s.
  - rewrite prefix_nil. split; [intros _; exists s; reflexivity|auto].
  - destruct s as [|c' s].
    + split; [discriminate|intros [b E]; discriminate].
    + rewrite prefix_cons. destruct (ascii_dec c c') as [<-|Hc].
      * rewrite IH. split; intros [b E]; exists b; simpl in *; congruence.
      * split; [discriminate|]. intros [b E]. simpl in E. congruence.
Qed.

Lemma includes_nil (p : string) :
  JS.includes p EmptyString = true <-> p = EmptyString.
Proof.
  unfold JS.includes. destruct p; simpl; split; congruence.
Qed.

Lemma includes_cons (p : string) (c : ascii) (s : string) :
  JS.includes p (String c s)
  = String.prefix p (String c s) || JS.includes p s.
Proof.
  unfold JS.includes. cbn [String.index].
  destruct (String.prefix p (String c s)); [reflexivity|].
  destruct (String.index 0 p s); reflexivity.
Qed.

(** [s.includes(p)] says that [p] occurs in [s]. *)
Lemma includes_iff (p s : string) :
  JS.includes p s = true <-> exists a b, s = (a ++ p ++ b)%string.
Proof.
  induction s as [|c s IH].
  - rewrite includes_nil. split.
    + intros ->. exists EmptyString, EmptyString. reflexivity.
    + intros [a [b E]]. destruct a; [|discriminate].
      destruct p; [reflexivity|discriminate].
  - rewrite includes_cons, orb_true_iff, prefix_iff, IH. split.
    + intros [[b E]|[a [b E]]].
      * exists EmptyString, b. exact E.
      * exists (String c a), b. simpl. now f_equal.
    + intros [a [b E]]. destruct a as [|c' a].
      * left. exists b. exact E.
      * right. exists a, b. simpl in E. congruence.
Qed.

Lemma lower_ascii_idem (c : ascii) :
  JS.lower_ascii (JS.lower_ascii c) = JS.lower_ascii c.
Proof.
  destruct c as [[] [] [] [] [] [] [] []]; vm_compute; reflexivity.
Qed.

Lemma toLowerCase_idem (s : string) :
  JS.toLowerCase (JS.toLowerCase s) = JS.toLowerCase s.
Proof.
  induction s as [|c s IH]; simpl; [reflexivity|].
  now rewrite lower_ascii_idem, IH.
Qed.

Lemma filter_all {X : Type} (p : X -> bool) (l : list X) :
  (forall x, p x = true) -> filter p l = l.
Proof.
  intros H. induction l as [|x l IH]; simpl; [reflexivity|].
  now rewrite H, IH.
Qed.

(** X28.  For a query, names and version labels of ASCII characters: the
    search box keeps the files whose name or version label holds the query
    as a substring, letters compared without regard to case; the empty
    query keeps every file. *)
Theorem filteredFiles_substring (files : list Blink.FileRow)
  (searchQuery : string) :
  Text.ascii_only searchQuery = true ->
  (forall f,
      In f files ->
      Text.ascii_only (Blink.f_name f) = true /\
      Text.ascii_only (Blink.f_version_label f) = true) ->
  (forall f,
      In f (DashboardPage.filteredFiles files searchQuery) <->
      In f files /\
      exists a b,
        JS.toLowerCase (Blink.f_name f)
        = (a ++ JS.toLowerCase searchQuery ++ b)%string
        \/ JS.toLowerCase (Blink.f_version_label f)
           = (a ++ JS.toLowerCase searchQuery ++ b)%string) /\
  DashboardPage.filteredFiles files EmptyString = files /\
  DashboardPage.filteredFiles files (JS.toLowerCase searchQuery)
  = DashboardPage.filteredFiles files searchQuery.
Proof.
  intros _ _. unfold DashboardPage.filteredFiles. split; [|split].
  - intros f. rewrite filter_In, orb_true_iff, !includes_iff.
    split; intros [Hin H]; (split; [exact Hin|]).
    + destruct H as [[a [b E]]|[a [b E]]]; exists a, b; auto.
    + destruct H as [a [b [E|E]]]; [left|right]; eauto.
  - apply filter_all. intros f. simpl.
    assert (H : JS.includes EmptyString (JS.toLowerCase (Blink.f_name f))
                = true).
    { apply includes_iff. exists EmptyString. eexists. reflexivity. }
    now rewrite H.
  - now rewrite toLowerCase_idem.
Qed.

Lemma filteredFiles_substring_witness :
  In Scenario.root_file
     (DashboardPage.filteredFiles [Scenario.root_file] "MANUAL").
Proof.
  destruct (filteredFiles_substring [Scenario.root_file] "MANUAL" eq_refl)
    as [H _].
  - intros f [<-|[]]. split; reflexivity.
  - apply H. split; [left; reflexivity|].
    exists EmptyString, ".pdf". left. reflexivity.
Defined.

(** *** Deleting a file *)

Lemma filter_not_exists {X : Type} (p : X -> bool) (l : list X) :
  existsb p l = false -> filter (fun x => negb (p x)) l = l.
Proof.
  induction l as [|x l IH]; simpl; [reflexivity|].
  intros H. apply orb_false_iff in H. destruct H as [Hx Hl].
  now rewrite Hx, IH.
Qed.

(** What a delete that is answered leaves in table [files]. *)
Lemma files_delete_answered (id : string) (w : Blink.World) :
  hd false (Blink.faults w) = false ->
  Blink.update_rejects_unknown_id w = false ->
  Store.files_delete id w
  = (Blink.Return tt,
     Blink.set_faults (tl (Blink.faults w))
       (Blink.set_files
          (filter (fun r => negb (Blink.f_id r =? id)%string) (Blink.files w))
          w)).
Proof.
  intros Hf Hl. unfold Store.files_delete, Blink.remote.
  pose proof (filter_not_exists (fun r => (Blink.f_id r =? id)%string)
                (Blink.files w)) as Hn.
  destruct w as [fs fvs al ai flt rej cnt cbs]. simpl in *. subst rej.
  destruct flt as [|[|] flt]; simpl in *; try discriminate;
    destruct (existsb _ fs); try reflexivity;
    rewrite Hn by reflexivity; reflexivity.
Qed.

(** X29.  In a world that answers, [handleDelete] removes the rows of the
    file from table [files], adds one entry to the activity log, and
    leaves table [fileVersions] as it was; the list it then shows holds
    the latest files of the organization but the deleted one, so an
    earlier version of the deleted file, not being marked latest, does not
    come back. *)
Theorem handleDelete_answered (user_id : string) (now : N)
  (file : Blink.FileRow) (st : DashboardPage.State) (w : Blink.World) :
  Blink.answers w ->
  let run := DashboardPage.handleDelete user_id now file st w in
  exists st',
    fst run = Blink.Return st' /\
    DashboardPage.loading st' = false /\
    (forall f,
        In f (DashboardPage.files st') <->
        In f (Blink.files w) /\
        Matches.of_latest "org_sample" f = true /\
        Blink.f_id f <> Blink.f_id file) /\
    Blink.files (snd run)
    = filter (fun r => negb (Blink.f_id r =? Blink.f_id file)%string)
        (Blink.files w) /\
    Blink.fileVersions (snd run) = Blink.fileVersions w /\
    exists entry,
      Blink.activityLog (snd run) = Blink.activityLog w ++ [entry] /\
      Blink.a_action entry = "delete" /\
      Blink.a_file_id entry = Blink.f_id file.
Proof.
  intros [Hf Hl]. cbv zeta.
  unfold DashboardPage.handleDelete, Blink.try_catch, Blink.bind.
  rewrite files_delete_answered by (rewrite ?Hf; auto).
  unfold DashboardPage.loadFiles, Blink.try_catch, Blink.bind,
    Blink.activityLog_create, Blink.files_list, Blink.remote, Blink.ret,
    Blink.select.
  destruct w as [fs fvs al ai flt rej cnt cbs]. simpl in *. subst flt rej.
  simpl. eexists. split; [reflexivity|]. simpl.
  split; [reflexivity|]. split; [|split; [reflexivity|split; [reflexivity|]]].
  - intros f. split.
    + intros H. apply (Permutation_in _ (sort_by_perm _ _)) in H.
      apply filter_In in H. destruct H as [H Hlat].
      apply filter_In in H. destruct H as [Hin Hid].
      split; [exact Hin|]. split; [exact Hlat|].
      apply negb_true_iff, String.eqb_neq in Hid. exact Hid.
    + intros (Hin & Hlat & Hid).
      apply (Permutation_in _ (Permutation_sym (sort_by_perm _ _))).
      apply filter_In. split; [|exact Hlat].
      apply filter_In. split; [exact Hin|].
      apply negb_true_iff, String.eqb_neq. exact Hid.
  - eexists. split; [reflexivity|]. split; reflexivity.
Qed.

(** X30.  The delete is not atomic, and it never throws.  If the delete
    itself is answered and the entry in the activity log is rejected, the
    file is gone from the store, nothing is logged, and the list on screen
    is not refreshed: it is the list from before, the deleted file
    included if it was shown. *)
Theorem handleDelete_unlogged (user_id : string) (now : N)
  (file : Blink.FileRow) (st : DashboardPage.State) (w : Blink.World)
  (rest : list bool) :
  Blink.faults w = false :: true :: rest ->
  Blink.update_rejects_unknown_id w = false ->
  let run := DashboardPage.handleDelete user_id now file st w in
  fst run = Blink.Return st /\
  Blink.files (snd run)
  = filter (fun r => negb (Blink.f_id r =? Blink.f_id file)%string)
      (Blink.files w) /\
  (forall f, In f (Blink.files (snd run)) -> Blink.f_id f <> Blink.f_id file) /\
  Blink.activityLog (snd run) = Blink.activityLog w /\
  Blink.rejected (snd run) = S (Blink.rejected w).
Proof.
  intros Hf Hl. cbv zeta.
  unfold DashboardPage.handleDelete, Blink.try_catch, Blink.bind.
  rewrite files_delete_answered by (rewrite ?Hf; auto).
  unfold Blink.activityLog_create, Blink.remote, Blink.reject, Blink.ret.
  destruct w as [fs fvs al ai flt rej cnt cbs]. simpl in *. subst flt rej.
  simpl. split; [reflexivity|]. split; [reflexivity|].
  split; [|split; reflexivity].
  intros f Hin. apply filter_In in Hin. destruct Hin as [_ Hid].
  apply negb_true_iff, String.eqb_neq in Hid. exact Hid.
Qed.

Lemma handleDelete_answered_witness :
  Blink.files
    (snd (DashboardPage.handleDelete "user_1" 1706745600000
            Scenario.root_file MoreExamples.dashboard
            (Scenario.restore_world false))) = [].
Proof.
  destruct (handleDelete_answered "user_1" 1706745600000 Scenario.root_file
              MoreExamples.dashboard (Scenario.restore_world false))
    as (st' & _ & _ & _ & E & _).
  - split; reflexivity.
  - exact E.
Defined.

Lemma handleDelete_unlogged_witness :
  fst (DashboardPage.handleDelete "user_1" 1706745600000
         Scenario.root_file MoreExamples.dashboard
         (Examples.world_of [Scenario.root_file] [Scenario.version_1]
            [false; true] false))
  = Blink.Return MoreExamples.dashboard.
Proof.
  destruct (handleDelete_unlogged "user_1" 1706745600000 Scenario.root_file
              MoreExamples.dashboard
              (Examples.world_of [Scenario.root_file] [Scenario.version_1]
                 [false; true] false) [] eq_refl eq_refl)
    as (E & _).
  exact E.
Defined.
